(** * Resolvia: the automated ticket triage pipeline

    A shallow embedding of [backend/services/aiService.js] and of the
    Mongoose models it talks to ([Article], [AgentSuggestion], [AuditLog],
    [Config]), followed by the properties of the pipeline.

    Conventions of the embedding:
    - a JavaScript number is an IEEE-754 binary64 value, modelled by
      [spec_float] with precision 53 and maximal exponent 1024; every
      arithmetic operation rounds to nearest-even, as the engine does;
    - a JavaScript string of the pipeline is a [string]: the sequence of
      its UTF-16 code units, each below 256 (the Latin-1 range), on which
      [toLowerCase], [trim] and [includes] are the ones of the language.
      The classifier is also given on texts that hold any code unit
      ([Text.t]), with the case mapping of the engine as a parameter;
    - an [async] method is a computation in the monad [M]: it threads the
      database ([World]) and either returns a value or rejects with an
      [Error]; effects performed before a rejection stay performed;
    - the [Ticket] model and the triage that the route creating a ticket
      schedules work on the help desk ([Desk]): the database of the
      pipeline, the collection of tickets and the clock; their methods are
      computations in the monad [Task].  A document holds its paths as the
      schema has cast them; a date is its [getTime()], an integer. *)

From Stdlib Require Import ZArith List String Ascii Bool Lia PeanoNat Permutation.
From Stdlib Require Import Floats.SpecFloat.
From Stdlib Require Import Sorting.Sorted.
From Stdlib Require DecimalString.
Import ListNotations.

Local Open Scope list_scope.
Local Open Scope string_scope.

(* ------------------------------------------------------------------ *)
(** ** Strings *)

Module Str.

(** [String.prototype.toLowerCase] on one code unit below 256: the letters
    A to Z and the capital letters of Latin-1, U+00C0 to U+00DE without the
    multiplication sign U+00D7, move up by 32; no other code unit below 256
    has a lower case of its own. *)
Definition lowerChar (c : ascii) : ascii :=
  let n := nat_of_ascii c in
  if ((65 <=? n)%nat && (n <=? 90)%nat)
     || ((192 <=? n)%nat && (n <=? 222)%nat && negb (n =? 215)%nat)
  then ascii_of_nat (n + 32) else c.

Fixpoint toLowerCase (s : string) : string :=
  match s with
  | EmptyString => EmptyString
  | String c rest => String (lowerChar c) (toLowerCase rest)
  end.

(** [s.includes(w)]: does [w] occur in [s] at some offset. *)
Fixpoint includes (s w : string) : bool :=
  if String.prefix w s then true
  else match s with
       | EmptyString => false
       | String _ rest => includes rest w
       end.

(** The decimal rendering of a non-negative integer inside a template
    literal. *)
Definition ofNat (n : nat) : string := DecimalString.NilZero.string_of_uint (Nat.to_uint n).

Definition newline : string := String (ascii_of_nat 10) EmptyString.
Definition quote : string := String (ascii_of_nat 34) EmptyString.

(** The no-break space U+00A0. *)
Definition nbsp : string := String (ascii_of_nat 160) EmptyString.

(** JavaScript truthiness of a string. *)
Definition truthy (s : string) : bool :=
  match s with EmptyString => false | _ => true end.

(** The white space and the line terminators of the language among the
    code units below 256, which [trim] strips: TAB, LF, VT, FF, CR, the
    space and the no-break space U+00A0. *)
Definition isSpace (c : ascii) : bool :=
  let n := nat_of_ascii c in
  (n =? 32)%nat || ((9 <=? n)%nat && (n <=? 13)%nat) || (n =? 160)%nat.

(** Is [s.trim()] the empty string. *)
Fixpoint blank (s : string) : bool :=
  match s with
  | EmptyString => true
  | String c rest => isSpace c && blank rest
  end.

Fixpoint trimStart (s : string) : string :=
  match s with
  | EmptyString => EmptyString
  | String c rest => if isSpace c then trimStart rest else s
  end.

Fixpoint trimEnd (s : string) : string :=
  match s with
  | EmptyString => EmptyString
  | String c rest =>
      match trimEnd rest with
      | EmptyString => if isSpace c then EmptyString else String c EmptyString
      | kept => String c kept
      end
  end.

Definition trim (s : string) : string := trimEnd (trimStart s).

(** [s.substring(0, n)] *)
Fixpoint take (n : nat) (s : string) : string :=
  match n, s with
  | O, _ => EmptyString
  | S _, EmptyString => EmptyString
  | S k, String c rest => String c (take k rest)
  end.

End Str.

(** A JavaScript string in full: the sequence of its UTF-16 code units. *)
Module Text.

Definition CodeUnit : Type := N.

Definition t : Type := list CodeUnit.

(** A string of the pipeline, as a text. *)
Definition ofString (s : string) : t := map N_of_ascii (list_ascii_of_string s).

(** [s.startsWith(w)] *)
Fixpoint prefix (w s : t) : bool :=
  match w, s with
  | [], _ => true
  | _ :: _, [] => false
  | a :: w', b :: s' => (a =? b)%N && prefix w' s'
  end.

(** [s.includes(w)]: does [w] occur in [s] at some offset. *)
Fixpoint includes (s w : t) : bool :=
  if prefix w s then true
  else match s with
       | [] => false
       | _ :: rest => includes rest w
       end.

(** [w] occurs in [s] as a substring. *)
Definition Occurs (w s : t) : Prop :=
  exists before after, s = (before ++ w ++ after)%list.

End Text.

(* ------------------------------------------------------------------ *)
(** ** Numbers: IEEE-754 binary64 *)

Definition float : Type := spec_float.

Module Num.

Definition prec : Z := 53.
Definition emax : Z := 1024.

Definition ofZ (z : Z) : float := binary_normalize prec emax z 0 false.
Definition ofNat (n : nat) : float := ofZ (Z.of_nat n).

Definition mul : float -> float -> float := SFmul prec emax.
Definition add : float -> float -> float := SFadd prec emax.
Definition div : float -> float -> float := SFdiv prec emax.

(** [x <= y] and [x >= y] of the language: false as soon as one side is
    NaN. *)
Definition leb (x y : float) : bool := SFleb x y.
Definition geb (x y : float) : bool := SFleb y x.

(** The double denoted by the decimal literal [n/d]: the quotient
    rounded once, which is how a literal is read. *)
Definition decimal (n d : Z) : float := div (ofZ n) (ofZ d).

Definition zero : float := S754_zero false.
Definition one : float := Eval vm_compute in ofZ 1.
Definition minusOne : float := Eval vm_compute in ofZ (-1).
Definition three : float := Eval vm_compute in ofZ 3.
Definition fiveHundred : float := Eval vm_compute in ofZ 500.
Definition lit_0_1 : float := Eval vm_compute in decimal 1 10.
Definition lit_0_3 : float := Eval vm_compute in decimal 3 10.
Definition lit_0_4 : float := Eval vm_compute in decimal 4 10.
Definition lit_0_5 : float := Eval vm_compute in decimal 5 10.
Definition lit_0_8 : float := Eval vm_compute in decimal 8 10.
Definition lit_0_92 : float := Eval vm_compute in decimal 92 100.

(** The double that follows [0.92]; it prints as 0.9200000000000002. *)
Definition after_0_92 : float := Eval vm_compute in SFsucc prec emax lit_0_92.

(** [Math.min] and [Math.max] on two arguments: NaN is contagious and
    the negative zero is below the positive one. *)
Definition Math_min (x y : float) : float :=
  match SFcompare x y with
  | None => S754_nan
  | Some Lt => x
  | Some Gt => y
  | Some Eq => match x with S754_zero true => x | _ => y end
  end.

Definition Math_max (x y : float) : float :=
  match SFcompare x y with
  | None => S754_nan
  | Some Lt => y
  | Some Gt => x
  | Some Eq => match x with S754_zero false => x | _ => y end
  end.

Definition digitsOfZ (z : Z) : string :=
  DecimalString.NilZero.string_of_uint (N.to_uint (Z.to_N z)).

Fixpoint zeros (k : nat) : string :=
  match k with
  | O => EmptyString
  | S k' => String "0" (zeros k')
  end.

(** The digits of [n / 10^f] with [f] of them after the point. *)
Definition fixedDigits (f : nat) (n : Z) : string :=
  let digits := digitsOfZ n in
  let padded := zeros (f + 1 - String.length digits) ++ digits in
  let whole := (String.length padded - f)%nat in
  if (f =? 0)%nat then padded
  else String.substring 0 whole padded ++ "." ++ String.substring whole f padded.

(** [x.toFixed(f)] for [|x| < 1e21], the range in which the method prints
    ordinary decimals: the integer nearest to [x * 10^f], the larger one on a
    tie. *)
Definition toFixed (f : nat) (x : float) : string :=
  match x with
  | S754_nan => "NaN"
  | S754_infinity s => if s then "-Infinity" else "Infinity"
  | S754_zero _ => fixedDigits f 0
  | S754_finite s m e =>
      let scaled := (Zpos m * 10 ^ Z.of_nat f)%Z in
      let n := match e with
               | Zneg k => ((2 * scaled + 2 ^ Zpos k) / 2 ^ (Zpos k + 1))%Z
               | _ => (scaled * 2 ^ e)%Z
               end in
      (if s then "-" else "") ++ fixedDigits f n
  end.

(** The closed interval [[0,1]] under the comparison of the language. *)
Definition inUnit (x : float) : Prop := leb zero x = true /\ leb x one = true.

End Num.

(** The sign of a number, for the numbers that have one. *)
Definition signed (s : bool) (x : float) : Prop :=
  match x with
  | S754_zero sx | S754_infinity sx | S754_finite sx _ _ => sx = s
  | S754_nan => False
  end.

(** [0 <= x] read off the representation: a zero of either sign, a positive
    number or the positive infinity. *)
Definition nonNegative (x : float) : bool :=
  match x with
  | S754_zero _ => true
  | S754_infinity s => negb s
  | S754_finite s _ _ => negb s
  | S754_nan => false
  end.

Definition two52 : Z := 4503599627370496.
Definition two53 : Z := 9007199254740992.
Definition two54 : Z := 18014398509481984.

(** A number that is at least one: the positive infinity, or a normal
    number with a non-negative sign and an exponent of at least -52. *)
Definition atLeastOne (x : float) : Prop :=
  x = S754_infinity false \/
  exists M E,
    x = S754_finite false M E /\ (two52 <= Zpos M < two53)%Z /\ (-52 <= E)%Z.

(** The outcome of a rounding whose mantissa has 53 bits: a normal number
    of exponent at least [e], or an overflow. *)
Definition roundsFrom (s : bool) (e : Z) (x : float) : Prop :=
  x = S754_infinity s \/
  exists M E,
    x = S754_finite s M E /\ (two52 <= Zpos M < two53)%Z /\ (e <= E)%Z.

(* ------------------------------------------------------------------ *)
(** ** Data model *)

Definition ObjectId : Type := nat.

Record Ticket : Type := {
  ticket_id : ObjectId;
  title : string;
  description : string
}.

Record Article : Type := {
  article_id : ObjectId;
  article_title : string;
  article_body : string;
  article_status : string;
  article_category : string;
  article_createdAt : nat
}.

Record CategoryResult : Type := {
  category : string;
  confidence : float;
  reasoning : string
}.

Record DraftResult : Type := {
  reply : string;
  tokensUsed : nat
}.

(* ------------------------------------------------------------------ *)
(** ** The heuristic classifier *)

Definition billingWords : list string :=
  ["bill"; "invoice"; "payment"; "charge"; "refund"; "subscription"; "price"; "cost"].
Definition techWords : list string :=
  ["bug"; "error"; "crash"; "not working"; "broken"; "issue"; "problem"; "technical"].
Definition shippingWords : list string :=
  ["delivery"; "shipping"; "package"; "tracking"; "shipment"; "order"; "received"].

(** [Object.entries(keywords)]: insertion order. *)
Definition keywords : list (string * list string) :=
  [("billing", billingWords); ("tech", techWords); ("shipping", shippingWords)].

(** [words.reduce((count, word) => count + (text.includes(word) ? 1 : 0), 0)].
    The classifier reads the text through [includes] only: [hit word] is
    [text.includes(word)]. *)
Definition keywordScore (hit : string -> bool) (words : list string) : nat :=
  fold_left (fun count word => count + (if hit word then 1 else 0)) words 0.

Definition ticketText (ticket : Ticket) : string :=
  title ticket ++ " " ++ description ticket.

Definition classifyStep (hit : string -> bool) (best : string * nat)
           (entry : string * list string) : string * nat :=
  let score := keywordScore hit (snd entry) in
  if (snd best <? score)%nat then (fst entry, score) else best.

(** The loop of [stubClassifyCategory] over the categories, and the object
    that the method returns. *)
Definition classifyBy (hit : string -> bool) : CategoryResult :=
  let best := fold_left (classifyStep hit) keywords ("other", 0) in
  let bestCategory := fst best in
  let bestScore := snd best in
  {| category := bestCategory;
     confidence := if (0 <? bestScore)%nat then Num.lit_0_8 else Num.lit_0_5;
     reasoning := if (0 <? bestScore)%nat
                  then "Keywords found: " ++ Str.ofNat bestScore
                  else "No specific keywords found" |}.

Definition stubClassifyCategory (ticket : Ticket) : CategoryResult :=
  let text := Str.toLowerCase (ticketText ticket) in
  classifyBy (Str.includes text).

(** [stubClassifyCategory] on a title and a description that hold any code
    units.  [toLowerCase] is the case mapping of the engine, which follows
    the Unicode tables of its version. *)
Definition classifyText (toLowerCase : Text.t -> Text.t)
           (titleText descriptionText : Text.t) : CategoryResult :=
  let text := toLowerCase (titleText ++ Text.ofString " " ++ descriptionText)%list in
  classifyBy (fun word => Text.includes text (Text.ofString word)).

(* ------------------------------------------------------------------ *)
(** ** The heuristic drafter *)

(** The [forEach] loop of the drafter: [index] is the position of the head
    of [articles] in the array. *)
Fixpoint numberedTitles (index : nat) (articles : list Article) : string :=
  match articles with
  | [] => ""
  | article :: rest =>
      Str.ofNat (index + 1) ++ ". " ++ article_title article ++ Str.newline
      ++ numberedTitles (S index) rest
  end.

Definition stubGenerateDraftReply (ticket : Ticket) (articles : list Article)
           (categoryResult : CategoryResult) : DraftResult :=
  let reply0 := "Thank you for contacting us regarding " ++ Str.quote
                ++ title ticket ++ Str.quote ++ "." in
  let reply1 :=
    if (0 <? List.length articles)%nat then
      reply0
      ++ Str.newline ++ Str.newline
      ++ "Based on your query, I found some relevant information that might help:"
      ++ Str.newline ++ Str.newline
      ++ numberedTitles 0 articles
      ++ Str.newline
      ++ "Please review these resources. If they don't fully address your concern, our team will be happy to assist you further."
    else
      reply0
      ++ Str.newline ++ Str.newline
      ++ "I understand you need help with this " ++ category categoryResult
      ++ " issue. Our team will review your request and get back to you shortly." in
  {| reply := reply1 ++ Str.newline ++ Str.newline ++ "Best regards,"
              ++ Str.newline ++ "Resolvia Support Team";
     tokensUsed := 0 |}.

(* ------------------------------------------------------------------ *)
(** ** The confidence aggregator *)

Definition calculateOverallConfidence (categoryResult : CategoryResult)
           (draftResult : DraftResult) (articles : list Article) : float :=
  let confidence0 := Num.mul (confidence categoryResult) Num.lit_0_4 in
  let articleScore :=
    Num.mul (Num.Math_min (Num.div (Num.ofNat (List.length articles)) Num.three) Num.one)
            Num.lit_0_3 in
  let confidence1 := Num.add confidence0 articleScore in
  let replyLength := String.length (reply draftResult) in
  let replyScore :=
    Num.mul (Num.Math_min (Num.div (Num.ofNat replyLength) Num.fiveHundred) Num.one)
            Num.lit_0_3 in
  let confidence2 := Num.add confidence1 replyScore in
  Num.Math_min confidence2 Num.one.

(* ------------------------------------------------------------------ *)
(** ** Persisted documents *)

(** A value of the [Mixed] field [meta]. *)
Inductive MetaValue : Type :=
| MString (s : string)
| MNumber (x : float)
| MNat (n : nat)
| MBool (b : bool)
| MIds (ids : list ObjectId).

Record AuditLog : Type := {
  log_ticketId : ObjectId;
  log_traceId : string;
  actor : string;
  action : string;
  log_description : string;
  meta : list (string * MetaValue)
}.

Record ModelInfo : Type := {
  mi_model : string;
  mi_version : string;
  processingTime : nat;
  mi_tokensUsed : nat
}.

Record AgentSuggestion : Type := {
  sug_ticketId : ObjectId;
  sug_traceId : string;
  predictedCategory : string;
  categoryConfidence : float;
  articleIds : list ObjectId;
  draftReply : string;
  sug_confidence : float;
  autoClosed : bool;
  modelInfo : ModelInfo
}.

(** [suggestion.autoClosed = b] *)
Definition setAutoClosed (b : bool) (doc : AgentSuggestion) : AgentSuggestion :=
  {| sug_ticketId := sug_ticketId doc;
     sug_traceId := sug_traceId doc;
     predictedCategory := predictedCategory doc;
     categoryConfidence := categoryConfidence doc;
     articleIds := articleIds doc;
     draftReply := draftReply doc;
     sug_confidence := sug_confidence doc;
     autoClosed := b;
     modelInfo := modelInfo doc |}.

Record Config : Type := {
  autoCloseEnabled : bool;
  confidenceThreshold : float
}.

(** What [processTicket] resolves to. *)
Record TriageResult : Type := {
  suggestion : AgentSuggestion;
  shouldAutoClose : bool;
  traceId : string
}.

(* ------------------------------------------------------------------ *)
(** ** Errors, the database and the monad of asynchronous methods *)

Inductive Error : Type :=
| ValidationError (model : string) (paths : list string)
| DuplicateKey (collection : string) (key : ObjectId)
| ExternalError (message : string).

(** The calls a run makes, in the order it makes them.  The list is an
    observer of the run: nothing reads it except [driver], which uses its
    length as the clock of the connection. *)
Inductive Call : Type :=
| LogAction (act : string)
| ClassifyCategory
| SearchByKeywords (cat : option string) (limit : nat)
| GenerateDraftReply
| CreateSuggestion (ticketId : ObjectId)
| SaveSuggestion (ticketId : ObjectId)
| GetConfig.

Record World : Type := {
  auditLogs : list AuditLog;
  suggestions : list AgentSuggestion;
  config : option Config;
  calls : list Call
}.

Inductive Outcome (A : Type) : Type :=
| Resolved (a : A)
| Rejected (e : Error).
Arguments Resolved {A} a.
Arguments Rejected {A} e.

Definition M (A : Type) : Type := World -> Outcome A * World.

Definition ret {A : Type} (a : A) : M A := fun w => (Resolved a, w).

Definition raise {A : Type} (e : Error) : M A := fun w => (Rejected e, w).

Definition bind {A B : Type} (m : M A) (k : A -> M B) : M B :=
  fun w =>
    match m w with
    | (Resolved a, w') => k a w'
    | (Rejected e, w') => (Rejected e, w')
    end.

(** [try { body } catch (error) { handler }] *)
Definition tryCatch {A : Type} (body : M A) (handler : Error -> M A) : M A :=
  fun w =>
    match body w with
    | (Resolved a, w') => (Resolved a, w')
    | (Rejected e, w') => handler e w'
    end.

Notation "x <- m ;; k" := (bind m (fun x => k))
  (at level 61, m at next level, right associativity).
Notation "m ;; k" := (bind m (fun _ => k))
  (at level 61, right associativity).

Definition addCall (c : Call) (w : World) : World :=
  {| auditLogs := auditLogs w; suggestions := suggestions w;
     config := config w; calls := (calls w ++ [c])%list |}.

Definition addAuditLog (doc : AuditLog) (w : World) : World :=
  {| auditLogs := (auditLogs w ++ [doc])%list; suggestions := suggestions w;
     config := config w; calls := calls w |}.

Definition setSuggestions (l : list AgentSuggestion) (w : World) : World :=
  {| auditLogs := auditLogs w; suggestions := l;
     config := config w; calls := calls w |}.

Definition setConfig (c : Config) (w : World) : World :=
  {| auditLogs := auditLogs w; suggestions := suggestions w;
     config := Some c; calls := calls w |}.

Definition mark (c : Call) : M unit := fun w => (Resolved tt, addCall c w).

Definition appendAuditLog (doc : AuditLog) : M unit :=
  fun w => (Resolved tt, addAuditLog doc w).

Definition putSuggestions (l : list AgentSuggestion) : M unit :=
  fun w => (Resolved tt, setSuggestions l w).

Definition putConfig (c : Config) : M unit :=
  fun w => (Resolved tt, setConfig c w).

Definition getWorld : M World := fun w => (Resolved w, w).

(** Mongoose collects the failing paths of a document in one
    [ValidationError]. *)
Definition failingPaths (checks : list (string * bool)) : list string :=
  map fst (filter (fun c => negb (snd c)) checks).

Definition validate (model : string) (checks : list (string * bool)) : M unit :=
  match failingPaths checks with
  | [] => ret tt
  | paths => raise (ValidationError model paths)
  end.

Definition oneOf (allowed : list string) (s : string) : bool :=
  existsb (String.eqb s) allowed.

(* ------------------------------------------------------------------ *)
(** ** What the service does not decide *)

(** The reply of the hosted model to the classification prompt, after
    [JSON.parse]; [p_confidence] is the field as [Math.max] coerces it, NaN
    when it is missing or not numeric. *)
Record Parsed : Type := {
  p_category : string;
  p_confidence : float;
  p_reasoning : string
}.

(** [this.model]: [askCategory] is [generateContent] on the classification
    prompt of a ticket followed by [response.text()] and [JSON.parse];
    [askReply] is [generateContent] on the reply prompt, giving the text and
    [usageMetadata?.totalTokenCount].  Either is [Rejected] when any of
    these steps throws. *)
Record GenerativeModel : Type := {
  askCategory : Ticket -> Outcome Parsed;
  askReply : Ticket -> list Article -> CategoryResult -> Outcome (string * option nat)
}.

(** Everything a run reads but does not write: [uuidv4] is the identifier
    that [uuidv4()] draws for the run, [elapsed] what [Date.now() - startTime]
    evaluates to, [STUB_MODE] whether [process.env.STUB_MODE === 'true'],
    [model] is [this.model], [articleCollection] the stored articles,
    [textScore] the score of the text index for a query and an article
    ([None] when the article does not match), [outage n] tells that the
    connection to the database is down when [n] calls have been recorded,
    and [messageOf error] is the [message] of a validation error or of a
    duplicate key error caught in the run, a text that Mongoose and the
    driver compose from the offending values. *)
Record Env : Type := {
  uuidv4 : string;
  elapsed : nat;
  STUB_MODE : bool;
  model : option GenerativeModel;
  articleCollection : list Article;
  textScore : string -> Article -> option nat;
  outage : nat -> option string;
  messageOf : Error -> string
}.

(* ------------------------------------------------------------------ *)
(** ** The models: [AuditLog], [AgentSuggestion], [Config], [Article] *)

Definition auditActors : list string := ["system"; "user"; "agent"; "admin"].

(** The [enum] of [auditLogSchema.action]. *)
Definition auditActions : list string :=
  ["ticket_created"; "ticket_updated"; "status_changed"; "assigned";
   "unassigned"; "assignment_requested"; "assignment_approved";
   "assignment_rejected"; "reply_added"; "category_predicted";
   "articles_retrieved"; "reply_drafted"; "auto_closed"; "agent_reviewed";
   "escalated"; "sla_set"; "sla_breached"].

Definition categories : list string := ["billing"; "tech"; "shipping"; "other"].

Definition auditLogChecks (doc : AuditLog) : list (string * bool) :=
  [("traceId", Str.truthy (log_traceId doc));
   ("actor", oneOf auditActors (actor doc));
   ("action", oneOf auditActions (action doc));
   ("description", Str.truthy (log_description doc)
                   && (String.length (log_description doc) <=? 500)%nat)].

Definition inRange01 (x : float) : bool := Num.leb Num.zero x && Num.leb x Num.one.

Definition suggestionChecks (doc : AgentSuggestion) : list (string * bool) :=
  [("traceId", Str.truthy (sug_traceId doc));
   ("predictedCategory", oneOf categories (predictedCategory doc));
   ("categoryConfidence", inRange01 (categoryConfidence doc));
   ("draftReply", Str.truthy (draftReply doc)
                  && (String.length (draftReply doc) <=? 5000)%nat);
   ("confidence", inRange01 (sug_confidence doc))].

Definition hasTicket (ticketId : ObjectId) (doc : AgentSuggestion) : bool :=
  (sug_ticketId doc =? ticketId)%nat.

Definition defaultConfig : Config :=
  {| autoCloseEnabled := false; confidenceThreshold := Num.lit_0_8 |}.

Record SearchOptions : Type := {
  opt_status : option string;
  opt_category : option string;
  opt_limit : option nat;
  opt_skip : option nat
}.

Definition orElse {A : Type} (o : option A) (d : A) : A :=
  match o with Some a => a | None => d end.

(** A stable insertion sort, largest key first. *)
Fixpoint insertDesc {A : Type} (key : A -> nat) (x : A) (l : list A) : list A :=
  match l with
  | [] => [x]
  | y :: rest => if (key y <=? key x)%nat then x :: l else y :: insertDesc key x rest
  end.

Definition sortDesc {A : Type} (key : A -> nat) (l : list A) : list A :=
  fold_right (insertDesc key) [] l.

(** What Mongoose makes of a filter on [category] before it sends the
    query: the setters of the path, [lowercase] and [trim], run on the
    value. *)
Definition castCategory (c : string) : string := Str.trim (Str.toLowerCase c).

Section Models.

Variable env : Env.

(** One round trip to the database: rejected when the connection is down
    at this point of the run. *)
Definition driver : M unit :=
  fun w =>
    match outage env (List.length (calls w)) with
    | Some message => (Rejected (ExternalError message), w)
    | None => (Resolved tt, w)
    end.

(** [AuditLog.logAction(data)], that is [this.create({...})]. *)
Definition logAction (data : AuditLog) : M unit :=
  mark (LogAction (action data)) ;;
  validate "AuditLog" (auditLogChecks data) ;;
  driver ;;
  appendAuditLog data.

(** [AgentSuggestion.create(fields)]; [ticketId] carries a unique index. *)
Definition AgentSuggestion_create (doc : AgentSuggestion) : M AgentSuggestion :=
  mark (CreateSuggestion (sug_ticketId doc)) ;;
  validate "AgentSuggestion" (suggestionChecks doc) ;;
  driver ;;
  w <- getWorld ;;
  if existsb (hasTicket (sug_ticketId doc)) (suggestions w)
  then raise (DuplicateKey "agentsuggestions" (sug_ticketId doc))
  else putSuggestions (suggestions w ++ [doc])%list ;; ret doc.

(** [suggestion.save()]: the stored document of this ticket is replaced. *)
Definition AgentSuggestion_save (doc : AgentSuggestion) : M unit :=
  mark (SaveSuggestion (sug_ticketId doc)) ;;
  validate "AgentSuggestion" (suggestionChecks doc) ;;
  driver ;;
  w <- getWorld ;;
  putSuggestions
    (map (fun old => if hasTicket (sug_ticketId doc) old then doc else old)
         (suggestions w)).

(** [Config.getConfig()] *)
Definition getConfig : M Config :=
  mark GetConfig ;;
  driver ;;
  w <- getWorld ;;
  match config w with
  | Some c => ret c
  | None => putConfig defaultConfig ;; ret defaultConfig
  end.

Definition matchesQuery (status : string) (cat : option string)
           (keywords : string) (a : Article) : bool :=
  String.eqb (article_status a) status
  && match cat with
     | Some c => if Str.truthy c
                 then String.eqb (article_category a) (castCategory c) else true
     | None => true
     end
  && (if Str.blank keywords then true
      else match textScore env keywords a with Some _ => true | None => false end).

(** The query that [searchByKeywords] builds, as the database answers it:
    filter, sort, skip, then limit; a limit of 0 is no limit.  The
    projection of [select] is left out: an article of the answer stands for
    the stored document it is read from. *)
Definition queryResult (keywords : string) (options : SearchOptions) : list Article :=
  let status := orElse (opt_status options) "published" in
  let limit := orElse (opt_limit options) 10 in
  let skip := orElse (opt_skip options) 0 in
  let found := filter (matchesQuery status (opt_category options) keywords)
                      (articleCollection env) in
  let sorted := if Str.truthy keywords
                then sortDesc (fun a => orElse (textScore env keywords a) 0) found
                else sortDesc article_createdAt found in
  if (limit =? 0)%nat then skipn skip sorted else firstn limit (skipn skip sorted).

(** [Article.searchByKeywords(keywords, options)].  A sort on the text
    score without a text filter is refused by the database. *)
Definition searchByKeywords (keywords : string) (options : SearchOptions)
  : M (list Article) :=
  mark (SearchByKeywords (opt_category options) (orElse (opt_limit options) 10)) ;;
  driver ;;
  if Str.truthy keywords && Str.blank keywords
  then raise (ExternalError "query requires text score metadata, but it is not available")
  else ret (queryResult keywords options).

End Models.

(* ------------------------------------------------------------------ *)
(** ** [class AIService] *)

(** The two queries of the retriever. *)
Definition primaryOptions (cat : string) : SearchOptions :=
  {| opt_status := Some "published"; opt_category := Some cat;
     opt_limit := Some 5; opt_skip := None |}.

Definition fallbackOptions : SearchOptions :=
  {| opt_status := Some "published"; opt_category := None;
     opt_limit := Some 3; opt_skip := None |}.


Section AIService.

Variable env : Env.

(** The hosted model that the methods may call: none when
    [process.env.STUB_MODE === 'true' || !this.model]. *)
Definition activeModel : option GenerativeModel :=
  if STUB_MODE env then None else model env.

Definition classifyCategory (ticket : Ticket) (traceId : string) : M CategoryResult :=
  mark ClassifyCategory ;;
  match activeModel with
  | None => ret (stubClassifyCategory ticket)
  | Some engine =>
      match askCategory engine ticket with
      | Resolved parsed =>
          ret {| category := p_category parsed;
                 confidence := Num.Math_min (Num.Math_max (p_confidence parsed) Num.zero)
                                            Num.one;
                 reasoning := p_reasoning parsed |}
      | Rejected _ => ret (stubClassifyCategory ticket)
      end
  end.

Definition retrieveRelevantArticles (ticket : Ticket) (cat : string)
           (traceId : string) : M (list Article) :=
  let query := ticketText ticket in
  found <- searchByKeywords env query (primaryOptions cat) ;;
  articles <- (if (List.length found =? 0)%nat
               then allArticles <- searchByKeywords env query fallbackOptions ;;
                    ret (found ++ allArticles)%list
               else ret found) ;;
  logAction env
    {| log_ticketId := ticket_id ticket;
       log_traceId := traceId;
       actor := "system";
       action := "articles_retrieved";
       log_description := "Retrieved " ++ Str.ofNat (List.length articles)
                          ++ " relevant articles";
       meta := [("query", MString (Str.take 100 query));
                ("category", MString cat);
                ("articleIds", MIds (map article_id articles))] |} ;;
  ret articles.

Definition generateDraftReply (ticket : Ticket) (articles : list Article)
           (categoryResult : CategoryResult) (traceId : string) : M DraftResult :=
  mark GenerateDraftReply ;;
  match activeModel with
  | None => ret (stubGenerateDraftReply ticket articles categoryResult)
  | Some engine =>
      match askReply engine ticket articles categoryResult with
      | Resolved (text, totalTokenCount) =>
          ret {| reply := Str.trim text; tokensUsed := orElse totalTokenCount 0 |}
      | Rejected _ => ret (stubGenerateDraftReply ticket articles categoryResult)
      end
  end.

Definition getStubResult (ticket : Ticket) (traceId : string) : M TriageResult :=
  let categoryResult := stubClassifyCategory ticket in
  articles <- retrieveRelevantArticles ticket (category categoryResult) traceId ;;
  let draftResult := stubGenerateDraftReply ticket articles categoryResult in
  let overall := calculateOverallConfidence categoryResult draftResult articles in
  suggestion <- AgentSuggestion_create env
      {| sug_ticketId := ticket_id ticket;
         sug_traceId := traceId;
         predictedCategory := category categoryResult;
         categoryConfidence := confidence categoryResult;
         articleIds := map article_id articles;
         draftReply := reply draftResult;
         sug_confidence := overall;
         autoClosed := false;
         modelInfo := {| mi_model := "stub"; mi_version := "1.0";
                         processingTime := 100; mi_tokensUsed := 0 |} |} ;;
  ret {| suggestion := suggestion; shouldAutoClose := false; traceId := traceId |}.

(** The [try] block of [processTicket]. *)
Definition triage (ticket : Ticket) (traceId : string) : M TriageResult :=
  logAction env
    {| log_ticketId := ticket_id ticket;
       log_traceId := traceId;
       actor := "system";
       action := "category_predicted";
       log_description := "Starting AI triage process";
       meta := [("ticketTitle", MString (title ticket))] |} ;;
  categoryResult <- classifyCategory ticket traceId ;;
  articles <- retrieveRelevantArticles ticket (category categoryResult) traceId ;;
  draftResult <- generateDraftReply ticket articles categoryResult traceId ;;
  let overall := calculateOverallConfidence categoryResult draftResult articles in
  created <- AgentSuggestion_create env
      {| sug_ticketId := ticket_id ticket;
         sug_traceId := traceId;
         predictedCategory := category categoryResult;
         categoryConfidence := confidence categoryResult;
         articleIds := map article_id articles;
         draftReply := reply draftResult;
         sug_confidence := overall;
         autoClosed := false;
         modelInfo := {| mi_model := if STUB_MODE env then "stub" else "gemini-pro";
                         mi_version := "1.0";
                         processingTime := elapsed env;
                         mi_tokensUsed := tokensUsed draftResult |} |} ;;
  config <- getConfig env ;;
  let shouldAutoClose :=
    autoCloseEnabled config && Num.geb overall (confidenceThreshold config) in
  suggestion <-
    (if shouldAutoClose then
       let closed := setAutoClosed true created in
       AgentSuggestion_save env closed ;;
       logAction env
         {| log_ticketId := ticket_id ticket;
            log_traceId := traceId;
            actor := "system";
            action := "auto_closed";
            log_description := "Auto-closed with confidence "
                               ++ Num.toFixed 3 overall;
            meta := [("confidence", MNumber overall);
                     ("threshold", MNumber (confidenceThreshold config));
                     ("draftReply", MString (reply draftResult))] |} ;;
       ret closed
     else ret created) ;;
  logAction env
    {| log_ticketId := ticket_id ticket;
       log_traceId := traceId;
       actor := "system";
       action := "reply_drafted";
       log_description := "AI triage process completed";
       meta := [("confidence", MNumber overall);
                ("category", MString (category categoryResult));
                ("articlesFound", MNat (List.length articles));
                ("autoClosed", MBool shouldAutoClose)] |} ;;
  ret {| suggestion := suggestion; shouldAutoClose := shouldAutoClose;
         traceId := traceId |}.

(** [error.message] *)
Definition errorMessage (error : Error) : string :=
  match error with
  | ExternalError message => message
  | _ => messageOf env error
  end.

(** The [catch] block of [processTicket]. *)
Definition triageFailed (ticket : Ticket) (traceId : string) (error : Error)
  : M TriageResult :=
  logAction env
    {| log_ticketId := ticket_id ticket;
       log_traceId := traceId;
       actor := "system";
       action := "triage_failed";
       log_description := "AI triage failed: " ++ errorMessage error;
       meta := [("error", MString (errorMessage error))] |} ;;
  getStubResult ticket traceId.

Definition processTicket (ticket : Ticket) : M TriageResult :=
  let traceId := uuidv4 env in
  tryCatch (triage ticket traceId) (triageFailed ticket traceId).

End AIService.

(* ------------------------------------------------------------------ *)
(** ** Properties of computations *)

(** A computation that leaves the stored suggestions alone, whatever its
    outcome. *)
Definition keeps {A : Type} (m : M A) : Prop :=
  forall w o w', m w = (o, w') -> suggestions w' = suggestions w.

(** A computation that the unique index on [ticketId] turns down once the
    ticket has a suggestion. *)
Definition blocked {A : Type} (ticketId : ObjectId) (m : M A) : Prop :=
  forall w, existsb (hasTicket ticketId) (suggestions w) = true ->
  exists e w', m w = (Rejected e, w') /\ suggestions w' = suggestions w.

(** The tickets that have a suggestion, one entry per stored suggestion. *)
Definition ticketIds (w : World) : list ObjectId :=
  map sug_ticketId (suggestions w).

(** A computation that never leaves two suggestions for one ticket. *)
Definition unique {A : Type} (m : M A) : Prop :=
  forall w o w', m w = (o, w') -> NoDup (ticketIds w) -> NoDup (ticketIds w').

(** Does the list of calls show a [category_predicted] entry written after
    the classifier was invoked; [seen] tells whether the classifier has been
    invoked already. *)
Fixpoint predictionLogged (seen : bool) (cs : list Call) : bool :=
  match cs with
  | [] => false
  | ClassifyCategory :: rest => predictionLogged true rest
  | LogAction act :: rest =>
      (seen && String.eqb act "category_predicted") || predictionLogged seen rest
  | _ :: rest => predictionLogged seen rest
  end.

(* ------------------------------------------------------------------ *)
(** ** Sample data *)

Module Sample.

Definition billingTicket : Ticket :=
  {| ticket_id := 7;
     title := "Invoice question";
     description := "I have a question about my monthly subscription bill and payment" |}.

Definition generalTicket : Ticket :=
  {| ticket_id := 8;
     title := "General inquiry";
     description := "I have a question about your company policies" |}.

Definition billingFaq : Article :=
  {| article_id := 1; article_title := "Understanding your invoice";
     article_body := "Each invoice lists the subscription period and the payment method.";
     article_status := "published"; article_category := "billing";
     article_createdAt := 10 |}.

Definition resetGuide : Article :=
  {| article_id := 2; article_title := "Password Reset Guide";
     article_body := "Use the reset link on the sign-in page to choose a new password.";
     article_status := "published"; article_category := "tech";
     article_createdAt := 11 |}.

Definition draftNote : Article :=
  {| article_id := 3; article_title := "Refund policy (draft)";
     article_body := "Refunds are issued to the original payment method.";
     article_status := "draft"; article_category := "billing";
     article_createdAt := 12 |}.

(** The case mapping of an engine, on the code units that the samples
    hold: the capital letters below 256 and the Kelvin sign U+212A, whose
    lower case is the letter k. *)
Definition lowerUnit (u : Text.CodeUnit) : Text.CodeUnit :=
  if ((65 <=? u) && (u <=? 90))%N || ((192 <=? u) && (u <=? 222) && negb (u =? 215))%N
  then (u + 32)%N
  else if (u =? 8490)%N then 107%N else u.

Definition toLowerCase (text : Text.t) : Text.t := map lowerUnit text.

(** A title in capitals, and one written with the Kelvin sign. *)
Definition shoutedTitle : Text.t := Text.ofString "INVOICE QUESTION".

Definition kelvinTitle : Text.t :=
  (Text.ofString "trac" ++ [8490%N] ++ Text.ofString "ing")%list.

(** Messages in the manner of Mongoose and of the driver. *)
Definition messages (error : Error) : string :=
  match error with
  | ValidationError model paths =>
      model ++ " validation failed: " ++ String.concat ", " paths
  | DuplicateKey collection key =>
      "E11000 duplicate key error collection: " ++ collection
      ++ " dup key: " ++ Str.ofNat key
  | ExternalError message => message
  end.

(** Heuristic mode, a healthy connection, every article matching the text. *)
Definition env : Env :=
  {| uuidv4 := "3f0c2a9e-7b1d-4c55-9a51-0d6f8e2b7c14";
     elapsed := 12;
     STUB_MODE := true;
     model := None;
     articleCollection := [billingFaq; resetGuide; draftNote];
     textScore := fun _ a => Some (article_id a);
     outage := fun _ => None;
     messageOf := messages |}.

(** The same, but the connection drops once, when the third call of the
    run (the first article search) reaches the database. *)
Definition flakyEnv : Env :=
  {| uuidv4 := uuidv4 env;
     elapsed := elapsed env;
     STUB_MODE := true;
     model := None;
     articleCollection := articleCollection env;
     textScore := textScore env;
     outage := fun n => if (n =? 3)%nat then Some "connection lost" else None;
     messageOf := messages |}.

(** An empty knowledge base. *)
Definition bareEnv : Env :=
  {| uuidv4 := uuidv4 env;
     elapsed := elapsed env;
     STUB_MODE := true;
     model := None;
     articleCollection := [];
     textScore := textScore env;
     outage := outage env;
     messageOf := messages |}.

(** A hosted model that answers without a usable confidence. *)
Definition vagueModel : GenerativeModel :=
  {| askCategory := fun _ =>
       Resolved {| p_category := "billing"; p_confidence := S754_nan;
                   p_reasoning := "mentions an invoice" |};
     askReply := fun _ _ _ => Rejected (ExternalError "timeout") |}.

Definition freshWorld : World :=
  {| auditLogs := []; suggestions := []; config := None; calls := [] |}.

(** Auto-close switched on with a low threshold. *)
Definition eagerWorld : World :=
  {| auditLogs := []; suggestions := [];
     config := Some {| autoCloseEnabled := true;
                       confidenceThreshold := Num.lit_0_1 |};
     calls := [] |}.

(** The database after a first triage of [billingTicket]. *)
Definition triagedWorld : World :=
  Eval vm_compute in snd (processTicket env billingTicket freshWorld).

Definition textOfLength (n : nat) : string := Num.zeros n.

Definition threeArticles : list Article := [billingFaq; billingFaq; billingFaq].

Definition confident : CategoryResult :=
  {| category := "billing"; confidence := Num.lit_0_8;
     reasoning := "Keywords found: 4" |}.

Definition longDraft : DraftResult :=
  {| reply := textOfLength 500; tokensUsed := 0 |}.

Definition emptyDraft : DraftResult := {| reply := ""; tokensUsed := 0 |}.

(** Classifier results that no classifier of the service produces
    ([negative]) or that the hosted one produces when its answer has no
    usable confidence ([unsure]). *)
Definition negative : CategoryResult :=
  {| category := "other"; confidence := Num.minusOne; reasoning := "" |}.

Definition unsure : CategoryResult :=
  {| category := "billing"; confidence := S754_nan;
     reasoning := "mentions an invoice" |}.

(** The hosted model switched on. *)
Definition vagueEnv : Env :=
  {| uuidv4 := uuidv4 env;
     elapsed := elapsed env;
     STUB_MODE := false;
     model := Some vagueModel;
     articleCollection := articleCollection env;
     textScore := textScore env;
     outage := outage env;
     messageOf := messages |}.

End Sample.

(* ------------------------------------------------------------------ *)
(** ** Properties of runs, whatever their outcome *)

(** A computation all of whose runs, resolved or rejected, take the
    database from a state to one related to it by [R]. *)
Definition preserves (R : World -> World -> Prop) {A : Type} (m : M A) : Prop :=
  forall w o w', m w = (o, w') -> R w w'.

(** The audit log only grew, and by entries that satisfy [P]. *)
Definition appended (P : AuditLog -> Prop) (w w' : World) : Prop :=
  exists events,
    auditLogs w' = (auditLogs w ++ events)%list /\ Forall P events.

(** A document that the schema of the model accepts. *)
Definition validAuditLog (doc : AuditLog) : Prop :=
  failingPaths (auditLogChecks doc) = [].

Definition validSuggestion (doc : AgentSuggestion) : Prop :=
  failingPaths (suggestionChecks doc) = [].

(** An audit entry as a run of [processTicket] for [ticket] writes them. *)
Definition ofRun (env : Env) (ticket : Ticket) (event : AuditLog) : Prop :=
  log_ticketId event = ticket_id ticket /\
  log_traceId event = uuidv4 env /\
  actor event = "system" /\
  In (action event)
     ["category_predicted"; "articles_retrieved"; "auto_closed"; "reply_drafted"] /\
  validAuditLog event.

(** The stored suggestions of the tickets other than [ticketId]. *)
Definition otherTickets (ticketId : ObjectId) (w : World) : list AgentSuggestion :=
  filter (fun doc => negb (hasTicket ticketId doc)) (suggestions w).

Definition sameOthers (ticketId : ObjectId) (w w' : World) : Prop :=
  otherTickets ticketId w' = otherTickets ticketId w.

(** Every suggestion in the store was there before, or is one that the
    schema accepts and that belongs to [ticketId]. *)
Definition addsOnlyFor (ticketId : ObjectId) (w w' : World) : Prop :=
  forall doc, In doc (suggestions w') ->
    In doc (suggestions w) \/ (validSuggestion doc /\ sug_ticketId doc = ticketId).

(** The configuration document is never rewritten: one that exists stays,
    and a missing one stays missing or becomes the default one. *)
Definition configSettled (w w' : World) : Prop :=
  match config w with
  | Some c => config w' = Some c
  | None => config w' = None \/ config w' = Some defaultConfig
  end.

(** A computation that always rejects, without touching the suggestions. *)
Definition refuses {A : Type} (m : M A) : Prop :=
  forall w, exists e w', m w = (Rejected e, w') /\ suggestions w' = suggestions w.



(** The clamp of [classifyCategory]: [Math.min(Math.max(x, 0), 1)]. *)
Definition clamp01 (x : float) : float :=
  Num.Math_min (Num.Math_max x Num.zero) Num.one.

(* ------------------------------------------------------------------ *)
(** ** More sample data *)

Module Cases.

Definition lit_1_5 : float := Eval vm_compute in Num.decimal 15 10.

(** A hosted model that is more than sure, and one that answers with a
    category outside the closed domain. *)
Definition keenModel : GenerativeModel :=
  {| askCategory := fun _ =>
       Resolved {| p_category := "billing"; p_confidence := lit_1_5;
                   p_reasoning := "mentions an invoice" |};
     askReply := fun _ _ _ => Resolved ("  We have refunded the charge. ", Some 42) |}.

Definition looseModel : GenerativeModel :=
  {| askCategory := fun _ =>
       Resolved {| p_category := "Billing"; p_confidence := Num.lit_0_8;
                   p_reasoning := "mentions an invoice" |};
     askReply := fun _ _ _ => Resolved ("We have refunded the charge.", Some 42) |}.

(** A hosted model whose replies hold nothing but white space: a space, a
    no-break space and a line feed. *)
Definition muteModel : GenerativeModel :=
  {| askCategory := fun _ => Rejected (ExternalError "Unexpected token in JSON");
     askReply := fun _ _ _ => Resolved (" " ++ Str.nbsp ++ Str.newline, None) |}.

Definition hosted (engine : GenerativeModel) : Env :=
  {| uuidv4 := uuidv4 Sample.env;
     elapsed := elapsed Sample.env;
     STUB_MODE := false;
     model := Some engine;
     articleCollection := articleCollection Sample.env;
     textScore := textScore Sample.env;
     outage := outage Sample.env;
     messageOf := messageOf Sample.env |}.

End Cases.

(* ------------------------------------------------------------------ *)
(** ** The [Ticket] model: documents *)

(** A [Date], as [getTime()] gives it: milliseconds since the epoch. *)
Definition Date : Type := Z.

(** An element of [replies]. *)
Record Reply : Type := {
  reply_author : option ObjectId;
  reply_content : string;
  isInternal : bool;
  reply_createdAt : Date
}.

(** The nested object [pendingAssignment]; a field that is [null] or was
    never set is [None]. *)
Record PendingAssignment : Type := {
  requestedBy : option ObjectId;
  requestedAt : option Date;
  pa_status : option string;
  adminNotes : option string
}.

Record TicketDoc : Type := {
  doc_id : ObjectId;
  doc_title : string;
  doc_description : string;
  doc_category : string;
  status : string;
  priority : string;
  createdBy : option ObjectId;
  assignee : option ObjectId;
  pendingAssignment : option PendingAssignment;
  agentSuggestionId : option ObjectId;
  attachmentUrl : option string;
  replies : list Reply;
  tags : list string;
  slaDeadline : option Date;
  resolvedAt : option Date;
  closedAt : option Date;
  lastActivity : Date;
  createdAt : option Date
}.

(** The part of a ticket that the triage pipeline reads. *)
Definition asTicket (doc : TicketDoc) : Ticket :=
  {| ticket_id := doc_id doc; title := doc_title doc;
     description := doc_description doc |}.

(** Assignments to the paths of a document. *)
Definition set_status (v : string) (doc : TicketDoc) : TicketDoc :=
  {| doc_id := doc_id doc; doc_title := doc_title doc;
     doc_description := doc_description doc; doc_category := doc_category doc;
     status := v; priority := priority doc; createdBy := createdBy doc;
     assignee := assignee doc; pendingAssignment := pendingAssignment doc;
     agentSuggestionId := agentSuggestionId doc; attachmentUrl := attachmentUrl doc;
     replies := replies doc; tags := tags doc; slaDeadline := slaDeadline doc;
     resolvedAt := resolvedAt doc; closedAt := closedAt doc;
     lastActivity := lastActivity doc; createdAt := createdAt doc |}.

Definition set_assignee (v : option ObjectId) (doc : TicketDoc) : TicketDoc :=
  {| doc_id := doc_id doc; doc_title := doc_title doc;
     doc_description := doc_description doc; doc_category := doc_category doc;
     status := status doc; priority := priority doc; createdBy := createdBy doc;
     assignee := v; pendingAssignment := pendingAssignment doc;
     agentSuggestionId := agentSuggestionId doc; attachmentUrl := attachmentUrl doc;
     replies := replies doc; tags := tags doc; slaDeadline := slaDeadline doc;
     resolvedAt := resolvedAt doc; closedAt := closedAt doc;
     lastActivity := lastActivity doc; createdAt := createdAt doc |}.

Definition set_pendingAssignment (v : option PendingAssignment) (doc : TicketDoc)
  : TicketDoc :=
  {| doc_id := doc_id doc; doc_title := doc_title doc;
     doc_description := doc_description doc; doc_category := doc_category doc;
     status := status doc; priority := priority doc; createdBy := createdBy doc;
     assignee := assignee doc; pendingAssignment := v;
     agentSuggestionId := agentSuggestionId doc; attachmentUrl := attachmentUrl doc;
     replies := replies doc; tags := tags doc; slaDeadline := slaDeadline doc;
     resolvedAt := resolvedAt doc; closedAt := closedAt doc;
     lastActivity := lastActivity doc; createdAt := createdAt doc |}.

Definition set_agentSuggestionId (v : option ObjectId) (doc : TicketDoc) : TicketDoc :=
  {| doc_id := doc_id doc; doc_title := doc_title doc;
     doc_description := doc_description doc; doc_category := doc_category doc;
     status := status doc; priority := priority doc; createdBy := createdBy doc;
     assignee := assignee doc; pendingAssignment := pendingAssignment doc;
     agentSuggestionId := v; attachmentUrl := attachmentUrl doc;
     replies := replies doc; tags := tags doc; slaDeadline := slaDeadline doc;
     resolvedAt := resolvedAt doc; closedAt := closedAt doc;
     lastActivity := lastActivity doc; createdAt := createdAt doc |}.

Definition set_replies (v : list Reply) (doc : TicketDoc) : TicketDoc :=
  {| doc_id := doc_id doc; doc_title := doc_title doc;
     doc_description := doc_description doc; doc_category := doc_category doc;
     status := status doc; priority := priority doc; createdBy := createdBy doc;
     assignee := assignee doc; pendingAssignment := pendingAssignment doc;
     agentSuggestionId := agentSuggestionId doc; attachmentUrl := attachmentUrl doc;
     replies := v; tags := tags doc; slaDeadline := slaDeadline doc;
     resolvedAt := resolvedAt doc; closedAt := closedAt doc;
     lastActivity := lastActivity doc; createdAt := createdAt doc |}.

Definition set_resolvedAt (v : option Date) (doc : TicketDoc) : TicketDoc :=
  {| doc_id := doc_id doc; doc_title := doc_title doc;
     doc_description := doc_description doc; doc_category := doc_category doc;
     status := status doc; priority := priority doc; createdBy := createdBy doc;
     assignee := assignee doc; pendingAssignment := pendingAssignment doc;
     agentSuggestionId := agentSuggestionId doc; attachmentUrl := attachmentUrl doc;
     replies := replies doc; tags := tags doc; slaDeadline := slaDeadline doc;
     resolvedAt := v; closedAt := closedAt doc;
     lastActivity := lastActivity doc; createdAt := createdAt doc |}.

Definition set_closedAt (v : option Date) (doc : TicketDoc) : TicketDoc :=
  {| doc_id := doc_id doc; doc_title := doc_title doc;
     doc_description := doc_description doc; doc_category := doc_category doc;
     status := status doc; priority := priority doc; createdBy := createdBy doc;
     assignee := assignee doc; pendingAssignment := pendingAssignment doc;
     agentSuggestionId := agentSuggestionId doc; attachmentUrl := attachmentUrl doc;
     replies := replies doc; tags := tags doc; slaDeadline := slaDeadline doc;
     resolvedAt := resolvedAt doc; closedAt := v;
     lastActivity := lastActivity doc; createdAt := createdAt doc |}.

Definition set_lastActivity (v : Date) (doc : TicketDoc) : TicketDoc :=
  {| doc_id := doc_id doc; doc_title := doc_title doc;
     doc_description := doc_description doc; doc_category := doc_category doc;
     status := status doc; priority := priority doc; createdBy := createdBy doc;
     assignee := assignee doc; pendingAssignment := pendingAssignment doc;
     agentSuggestionId := agentSuggestionId doc; attachmentUrl := attachmentUrl doc;
     replies := replies doc; tags := tags doc; slaDeadline := slaDeadline doc;
     resolvedAt := resolvedAt doc; closedAt := closedAt doc;
     lastActivity := v; createdAt := createdAt doc |}.

Definition set_createdAt (v : option Date) (doc : TicketDoc) : TicketDoc :=
  {| doc_id := doc_id doc; doc_title := doc_title doc;
     doc_description := doc_description doc; doc_category := doc_category doc;
     status := status doc; priority := priority doc; createdBy := createdBy doc;
     assignee := assignee doc; pendingAssignment := pendingAssignment doc;
     agentSuggestionId := agentSuggestionId doc; attachmentUrl := attachmentUrl doc;
     replies := replies doc; tags := tags doc; slaDeadline := slaDeadline doc;
     resolvedAt := resolvedAt doc; closedAt := closedAt doc;
     lastActivity := lastActivity doc; createdAt := v |}.

(** Equality of documents, as the change tracking of Mongoose sees it. *)
Definition Reply_eq_dec (a b : Reply) : {a = b} + {a <> b}.
Proof. repeat decide equality. Defined.

Definition PendingAssignment_eq_dec (a b : PendingAssignment) : {a = b} + {a <> b}.
Proof. repeat decide equality. Defined.

Definition TicketDoc_eq_dec (a b : TicketDoc) : {a = b} + {a <> b}.
Proof.
  decide equality;
    first [ apply Z.eq_dec | apply Nat.eq_dec | apply string_dec
          | apply (list_eq_dec string_dec) | apply (list_eq_dec Reply_eq_dec)
          | decide equality;
            first [ apply Z.eq_dec | apply Nat.eq_dec | apply string_dec
                  | apply PendingAssignment_eq_dec ] ].
Defined.

(* ------------------------------------------------------------------ *)
(** ** The [Ticket] model: schema *)

Definition ticketStatuses : list string :=
  ["open"; "triaged"; "waiting_human"; "in_progress"; "resolved"; "closed"].

Definition priorities : list string := ["low"; "medium"; "high"; "urgent"].

Definition assignmentStatuses : list string := ["pending"; "approved"; "rejected"].

Definition isSome {A : Type} (o : option A) : bool :=
  match o with Some _ => true | None => false end.

(** [required] together with [minlength] and [maxlength] on a string. *)
Definition lengthWithin (lo hi : nat) (s : string) : bool :=
  Str.truthy s && (lo <=? String.length s)%nat && (String.length s <=? hi)%nat.

Definition isLineTerminator (c : ascii) : bool :=
  let n := nat_of_ascii c in (n =? 10)%nat || (n =? 13)%nat.

(** [/^https?:\/\/.+/.test(v)] *)
Definition matchesHttpUrl (v : string) : bool :=
  let rest :=
    if String.prefix "https://" v then Some (String.substring 8 (String.length v - 8) v)
    else if String.prefix "http://" v
         then Some (String.substring 7 (String.length v - 7) v)
         else None in
  match rest with
  | Some (String c _) => negb (isLineTerminator c)
  | _ => false
  end.

(** The validator of [attachmentUrl]: [!v || /^https?:\/\/.+/.test(v)]. *)
Definition attachmentUrlValid (v : option string) : bool :=
  match v with
  | None => true
  | Some url => negb (Str.truthy url) || matchesHttpUrl url
  end.

(** The checks on the elements of [replies], with the paths that the
    validation error names; [index] is the position of the head. *)
Fixpoint replyChecks (index : nat) (l : list Reply) : list (string * bool) :=
  match l with
  | [] => []
  | r :: rest =>
      ("replies." ++ Str.ofNat index ++ ".author", isSome (reply_author r))
      :: ("replies." ++ Str.ofNat index ++ ".content",
          lengthWithin 1 5000 (reply_content r))
      :: replyChecks (S index) rest
  end.

Fixpoint tagChecks (index : nat) (l : list string) : list (string * bool) :=
  match l with
  | [] => []
  | tag :: rest =>
      ("tags." ++ Str.ofNat index, (String.length tag <=? 30)%nat)
      :: tagChecks (S index) rest
  end.

Definition ticketChecks (doc : TicketDoc) : list (string * bool) :=
  [("title", lengthWithin 5 200 (doc_title doc));
   ("description", lengthWithin 10 5000 (doc_description doc));
   ("category", oneOf categories (doc_category doc));
   ("status", oneOf ticketStatuses (status doc));
   ("priority", oneOf priorities (priority doc));
   ("createdBy", isSome (createdBy doc));
   ("attachmentUrl", attachmentUrlValid (attachmentUrl doc));
   ("pendingAssignment.status",
    match pendingAssignment doc with
    | Some {| pa_status := Some s |} => oneOf assignmentStatuses s
    | _ => true
    end)]
  ++ replyChecks 0 (replies doc) ++ tagChecks 0 (tags doc).

Definition validTicket (doc : TicketDoc) : Prop :=
  failingPaths (ticketChecks doc) = [].

(* ------------------------------------------------------------------ *)
(** ** The help desk: the tickets beside the rest of the database *)

(** [world] is the part of the database that the triage pipeline uses,
    [tickets] the collection of tickets, [today] what [new Date()] reads and
    [trips] the number of round trips made to the collection of tickets. *)
Record Desk : Type := {
  world : World;
  tickets : list TicketDoc;
  today : Date;
  trips : nat
}.

Definition setWorld (w : World) (desk : Desk) : Desk :=
  {| world := w; tickets := tickets desk; today := today desk; trips := trips desk |}.

Definition setTickets (l : list TicketDoc) (desk : Desk) : Desk :=
  {| world := world desk; tickets := l; today := today desk; trips := trips desk |}.

Definition addTrip (desk : Desk) : Desk :=
  {| world := world desk; tickets := tickets desk; today := today desk;
     trips := S (trips desk) |}.

(** An asynchronous method that works on the help desk. *)
Definition Task (A : Type) : Type := Desk -> Outcome A * Desk.

Module Task.

Definition ret {A : Type} (a : A) : Task A := fun desk => (Resolved a, desk).

Definition raise {A : Type} (e : Error) : Task A := fun desk => (Rejected e, desk).

Definition bind {A B : Type} (m : Task A) (k : A -> Task B) : Task B :=
  fun desk =>
    match m desk with
    | (Resolved a, desk') => k a desk'
    | (Rejected e, desk') => (Rejected e, desk')
    end.

Definition tryCatch {A : Type} (body : Task A) (handler : Error -> Task A) : Task A :=
  fun desk =>
    match body desk with
    | (Resolved a, desk') => (Resolved a, desk')
    | (Rejected e, desk') => handler e desk'
    end.

(** A method of the pipeline, run on the help desk. *)
Definition lift {A : Type} (m : M A) : Task A :=
  fun desk =>
    match m (world desk) with
    | (o, w') => (o, setWorld w' desk)
    end.

Definition get : Task Desk := fun desk => (Resolved desk, desk).

Definition putTickets (l : list TicketDoc) : Task unit :=
  fun desk => (Resolved tt, setTickets l desk).

End Task.

Declare Scope task_scope.
Delimit Scope task_scope with task.
Notation "x <- m ;; k" := (Task.bind m (fun x => k))
  (at level 61, m at next level, right associativity) : task_scope.
Notation "m ;; k" := (Task.bind m (fun _ => k))
  (at level 61, right associativity) : task_scope.

(** [throw new Error(message)] *)
Definition thrown (message : string) : Error := ExternalError message.

(** [new Date()] *)
Definition newDate : Task Date := fun desk => (Resolved (today desk), desk).

Definition sameId (id : ObjectId) (doc : TicketDoc) : bool := (doc_id doc =? id)%nat.

(** [Ticket.findById(id)] as the store answers it. *)
Definition stored (id : ObjectId) (l : list TicketDoc) : option TicketDoc :=
  find (sameId id) l.

(** The collection once [doc] is written: in the place of the document with
    its identifier, or at the end. *)
Definition written (doc : TicketDoc) (l : list TicketDoc) : list TicketDoc :=
  if existsb (sameId (doc_id doc)) l
  then map (fun old => if sameId (doc_id doc) old then doc else old) l
  else l ++ [doc].

(** A stable insertion sort, smallest key first. *)
Fixpoint insertAsc {A : Type} (key : A -> Z) (x : A) (l : list A) : list A :=
  match l with
  | [] => [x]
  | y :: rest => if (key x <? key y)%Z then x :: l else y :: insertAsc key x rest
  end.

Definition sortAsc {A : Type} (key : A -> Z) (l : list A) : list A :=
  fold_right (insertAsc key) [] l.

(* ------------------------------------------------------------------ *)
(** ** The [Ticket] model: methods *)

(** The virtual [slaStatus]; [now] is what its [new Date()] reads.  The two
    dates are integers below 2^53, so the comparisons of their difference
    with 0 and with two hours come out as on the integers. *)
Definition slaStatus (now : Date) (doc : TicketDoc) : string :=
  match slaDeadline doc with
  | None => "no_sla"
  | Some deadline =>
      if String.eqb (status doc) "resolved" || String.eqb (status doc) "closed"
      then "met"
      else
        let timeRemaining := (deadline - now)%Z in
        if (timeRemaining <? 0)%Z then "breached"
        else if (timeRemaining <? 2 * 60 * 60 * 1000)%Z then "at_risk"
        else "on_track"
  end.

(** What [canRequestAssignment] returns. *)
Record Availability : Type := {
  canRequest : bool;
  reason : option string
}.

Definition pendingIs (s : string) (doc : TicketDoc) : bool :=
  match pendingAssignment doc with
  | Some {| pa_status := Some s' |} => String.eqb s' s
  | _ => false
  end.

Definition requestedByAgent (agentId : ObjectId) (doc : TicketDoc) : bool :=
  match pendingAssignment doc with
  | Some {| requestedBy := Some agent |} => (agent =? agentId)%nat
  | _ => false
  end.

Definition canRequestAssignment (agentId : ObjectId) (doc : TicketDoc) : Availability :=
  if isSome (assignee doc)
  then {| canRequest := false;
          reason := Some "Ticket is already assigned to an agent" |}
  else if pendingIs "pending" doc
  then {| canRequest := false;
          reason := Some "Ticket already has a pending assignment request" |}
  else if pendingIs "rejected" doc
  then {| canRequest := true; reason := None |}
  else if requestedByAgent agentId doc
  then {| canRequest := false;
          reason := Some "You have already requested assignment for this ticket" |}
  else {| canRequest := true; reason := None |}.

(** The request that [requestAssignment] writes. *)
Definition pendingRequest (agentId : ObjectId) (date : Date) : PendingAssignment :=
  {| requestedBy := Some agentId; requestedAt := Some date;
     pa_status := Some "pending"; adminNotes := None |}.

(** [adminNotes || fallback] *)
Definition notesOr (notes fallback : option string) : option string :=
  match notes with
  | Some text => if Str.truthy text then Some text else fallback
  | None => fallback
  end.

Section TicketModel.

(** [down n] tells that the connection is down at the [n]-th round trip to
    the collection of tickets. *)
Variable down : nat -> option string.

Local Open Scope task_scope.

(** One round trip to the collection of tickets. *)
Definition roundTrip : Task unit :=
  fun desk =>
    match down (trips desk) with
    | Some message => (Rejected (ExternalError message), addTrip desk)
    | None => (Resolved tt, addTrip desk)
    end.

(** [ticket.save()]: validation, then the [pre('save')] hook of the schema
    and the time stamps, then the write, which is skipped when no path was
    modified.  A document whose identifier is not in the collection is a
    new one ([isNew]) and is inserted; the others are the documents that
    were loaded from it, and nobody writes to the collection between the
    load and the save.  A path counts as modified when its value is not the
    stored one; every path of a new document does, except [lastActivity],
    which holds its default. *)
Definition Ticket_save (doc : TicketDoc) : Task TicketDoc :=
  Task.lift (validate "Ticket" (ticketChecks doc)) ;;
  desk <- Task.get ;;
  date <- newDate ;;
  let old := stored (doc_id doc) (tickets desk) in
  let isModified :=
    match old with
    | Some before => if TicketDoc_eq_dec before doc then false else true
    | None => true
    end in
  let lastActivityModified :=
    match old with
    | Some before => negb (lastActivity before =? lastActivity doc)%Z
    | None => false
    end in
  let doc1 := if isModified && negb lastActivityModified
              then set_lastActivity date doc else doc in
  let doc2 := match old, createdAt doc1 with
              | None, None => set_createdAt (Some date) doc1
              | _, _ => doc1
              end in
  if isModified
  then roundTrip ;; Task.putTickets (written doc2 (tickets desk)) ;; Task.ret doc2
  else Task.ret doc2.

Definition addReply (authorId : option ObjectId) (content : string)
           (internal : bool) (doc : TicketDoc) : Task TicketDoc :=
  date <- newDate ;;
  let pushed := set_replies (replies doc
                             ++ [{| reply_author := authorId;
                                    reply_content := content;
                                    isInternal := internal;
                                    reply_createdAt := date |}])%list doc in
  Ticket_save (set_lastActivity date pushed).

Definition updateStatus (newStatus : string) (userId : option ObjectId)
           (doc : TicketDoc) : Task TicketDoc :=
  date <- newDate ;;
  let doc1 := set_lastActivity date (set_status newStatus doc) in
  let doc2 := if String.eqb newStatus "resolved" then set_resolvedAt (Some date) doc1
              else if String.eqb newStatus "closed" then set_closedAt (Some date) doc1
              else doc1 in
  Ticket_save doc2.

Definition assignTo (agentId : ObjectId) (doc : TicketDoc) : Task TicketDoc :=
  date <- newDate ;;
  Ticket_save (set_lastActivity date (set_assignee (Some agentId) doc)).

Definition requestAssignment (agentId : ObjectId) (doc : TicketDoc) : Task TicketDoc :=
  if isSome (assignee doc)
  then Task.raise (thrown "Ticket is already assigned to an agent")
  else if pendingIs "pending" doc
  then Task.raise (thrown "Ticket already has a pending assignment request")
  else if requestedByAgent agentId doc
  then Task.raise (thrown "You have already requested assignment for this ticket")
  else
    date <- newDate ;;
    Ticket_save (set_pendingAssignment (Some (pendingRequest agentId date)) doc).

Definition approveAssignment (notes : option string) (doc : TicketDoc)
  : Task TicketDoc :=
  match pendingAssignment doc with
  | Some request =>
      if pendingIs "pending" doc then
        let doc1 := set_assignee (requestedBy request) doc in
        let approved :=
          {| requestedBy := requestedBy request;
             requestedAt := requestedAt request;
             pa_status := Some "approved";
             adminNotes := notesOr notes (adminNotes request) |} in
        let doc2 := set_pendingAssignment (Some approved) doc1 in
        let doc3 := if String.eqb (status doc2) "triaged"
                       || String.eqb (status doc2) "waiting_human"
                    then set_status "in_progress" doc2 else doc2 in
        date <- newDate ;;
        Ticket_save (set_lastActivity date doc3)
      else Task.raise (thrown "No pending assignment request to approve")
  | None => Task.raise (thrown "No pending assignment request to approve")
  end.

Definition rejectAssignment (notes : option string) (doc : TicketDoc)
  : Task TicketDoc :=
  if pendingIs "pending" doc then
    let rejected :=
      {| requestedBy := None;
         requestedAt := None;
         pa_status := Some "rejected";
         adminNotes := notesOr notes None |} in
    date <- newDate ;;
    Ticket_save (set_lastActivity date (set_pendingAssignment (Some rejected) doc))
  else Task.raise (thrown "No pending assignment request to reject").

(** [Ticket.getOverdueTickets()].  The population of [createdBy] and
    [assignee] with the name and the email of the user is left out: the
    documents are returned as they are stored. *)
Definition overdue (now : Date) (doc : TicketDoc) : bool :=
  match slaDeadline doc with
  | Some deadline => (deadline <? now)%Z
  | None => false
  end
  && negb (oneOf ["resolved"; "closed"] (status doc)).

Definition getOverdueTickets : Task (list TicketDoc) :=
  now <- newDate ;;
  roundTrip ;;
  desk <- Task.get ;;
  Task.ret (sortAsc (fun doc => match slaDeadline doc with
                                | Some deadline => deadline
                                | None => 0%Z
                                end)
                    (filter (overdue now) (tickets desk))).

(* ------------------------------------------------------------------ *)
(** ** The route that creates a ticket: the triage it schedules *)

Variable env : Env.

(** [suggestion._id], the identifier of a stored suggestion.  The schema
    makes [ticketId] unique, so that the ticket names the suggestion: the
    embedding takes it as the identifier. *)
Definition suggestionKey (doc : AgentSuggestion) : ObjectId := sug_ticketId doc.

(** The callback that [POST /api/tickets] hands to [setImmediate] once the
    ticket is stored; it runs on its own, after the response. *)
Definition triageAfterCreate (ticket : TicketDoc) : Task unit :=
  Task.tryCatch
    (result <- Task.lift (processTicket env (asTicket ticket)) ;;
     if shouldAutoClose result then
       let ticket1 := set_status "resolved" ticket in
       let ticket2 := set_agentSuggestionId
                        (Some (suggestionKey (suggestion result))) ticket1 in
       ticket3 <- addReply None (draftReply (suggestion result)) false ticket2 ;;
       Ticket_save ticket3 ;;
       Task.ret tt
     else
       let ticket1 := set_status "triaged" ticket in
       let ticket2 := set_agentSuggestionId
                        (Some (suggestionKey (suggestion result))) ticket1 in
       Ticket_save ticket2 ;;
       Task.ret tt)
    (fun error => Task.ret tt).

End TicketModel.

(** Two documents that differ at most by their time stamps [lastActivity]
    and [createdAt]. *)
Definition sameContent (a b : TicketDoc) : Prop :=
  set_createdAt None (set_lastActivity 0%Z a)
  = set_createdAt None (set_lastActivity 0%Z b).

(** A pending request names the agent who asked, and a rejected one names
    nobody: what the three methods of the assignment leave behind. *)
Definition settled (doc : TicketDoc) : Prop :=
  pendingIs "rejected" doc = true ->
  match pendingAssignment doc with
  | Some request => requestedBy request = None
  | None => True
  end.

(** A ticket as [POST /api/tickets] has stored it, the help desk that holds
    it, and a connection that stays up. *)
Module Counter.

Definition invoice : TicketDoc :=
  {| doc_id := 7;
     doc_title := "Invoice question";
     doc_description := "I have a question about my monthly subscription bill and payment";
     doc_category := "billing"; status := "open"; priority := "medium";
     createdBy := Some 21; assignee := None; pendingAssignment := None;
     agentSuggestionId := None; attachmentUrl := None; replies := []; tags := [];
     slaDeadline := Some 90000000%Z; resolvedAt := None; closedAt := None;
     lastActivity := 3600000%Z; createdAt := Some 3600000%Z |}.

Definition desk : Desk :=
  {| world := Sample.freshWorld; tickets := [invoice]; today := 3600500%Z; trips := 0 |}.

(** The same help desk with auto-close switched on. *)
Definition eagerDesk : Desk :=
  {| world := Sample.eagerWorld; tickets := [invoice]; today := 3600500%Z; trips := 0 |}.

(** The ticket once agent 31 has asked for it. *)
Definition requested : TicketDoc :=
  set_pendingAssignment (Some (pendingRequest 31 3600400%Z)) invoice.

Definition up : nat -> option string := fun _ => None.

End Counter.

(* ------------------------------------------------------------------ *)
(** ** Reasoning about asynchronous methods *)

Lemma bind_resolved {A B : Type} (m : M A) (k : A -> M B) w b w' :
  bind m k w = (Resolved b, w') ->
  exists a w1, m w = (Resolved a, w1) /\ k a w1 = (Resolved b, w').
Proof.
  unfold bind. destruct (m w) as [[a|e] w1]; intros H.
  - exists a, w1. split; [reflexivity | exact H].
  - discriminate H.
Qed.

Lemma tryCatch_resolved_body {A : Type} (body : M A) handler w a w1 :
  body w = (Resolved a, w1) -> tryCatch body handler w = (Resolved a, w1).
Proof. intros H. unfold tryCatch. now rewrite H. Qed.

Lemma tryCatch_rejected_body {A : Type} (body : M A) handler w e w1 :
  body w = (Rejected e, w1) -> tryCatch body handler w = handler e w1.
Proof. intros H. unfold tryCatch. now rewrite H. Qed.

Lemma validate_resolved model checks w (u : unit) w' :
  validate model checks w = (Resolved u, w') ->
  failingPaths checks = [] /\ w' = w.
Proof.
  unfold validate. destruct (failingPaths checks); unfold ret, raise; intros H.
  - inversion H. split; reflexivity.
  - discriminate H.
Qed.

Lemma validate_rejected model checks w e w' :
  validate model checks w = (Rejected e, w') ->
  e = ValidationError model (failingPaths checks) /\ w' = w.
Proof.
  unfold validate. destruct (failingPaths checks) eqn:E; unfold ret, raise; intros H.
  - discriminate H.
  - inversion H. split; reflexivity.
Qed.

Lemma validate_fails model checks path w :
  In (path, false) checks ->
  exists paths, In path paths /\
    validate model checks w = (Rejected (ValidationError model paths), w).
Proof.
  intros Hin. unfold validate.
  assert (Hp : In path (failingPaths checks)).
  { unfold failingPaths. apply in_map_iff. exists (path, false). split; [reflexivity|].
    apply filter_In. split; [exact Hin | reflexivity]. }
  destruct (failingPaths checks) as [|p ps] eqn:E.
  - destruct Hp.
  - exists (p :: ps). split; [exact Hp | reflexivity].
Qed.

(** *** A computation that leaves the suggestions alone *)

Lemma keeps_ret {A : Type} (a : A) : keeps (ret a).
Proof. intros w o w' H. inversion H. reflexivity. Qed.

Lemma keeps_raise {A : Type} (e : Error) : keeps (@raise A e).
Proof. intros w o w' H. inversion H. reflexivity. Qed.

Lemma keeps_bind {A B : Type} (m : M A) (k : A -> M B) :
  keeps m -> (forall a, keeps (k a)) -> keeps (bind m k).
Proof.
  intros Hm Hk w o w'. unfold bind.
  destruct (m w) as [[a|e] w1] eqn:E; intros H.
  - rewrite (Hk a _ _ _ H). exact (Hm _ _ _ E).
  - inversion H; subst. exact (Hm _ _ _ E).
Qed.

Lemma keeps_mark c : keeps (mark c).
Proof. intros w o w' H. inversion H. reflexivity. Qed.

Lemma keeps_appendAuditLog doc : keeps (appendAuditLog doc).
Proof. intros w o w' H. inversion H. reflexivity. Qed.

Lemma keeps_putConfig c : keeps (putConfig c).
Proof. intros w o w' H. inversion H. reflexivity. Qed.

Lemma keeps_getWorld : keeps getWorld.
Proof. intros w o w' H. inversion H. reflexivity. Qed.

Lemma keeps_validate model checks : keeps (validate model checks).
Proof.
  unfold validate. destruct (failingPaths checks); [apply keeps_ret | apply keeps_raise].
Qed.

Lemma keeps_driver env : keeps (driver env).
Proof.
  intros w o w'. unfold driver.
  destruct (outage env (List.length (calls w))); intros H; inversion H; reflexivity.
Qed.

Create HintDb keeps.
#[export] Hint Resolve keeps_ret keeps_raise keeps_mark keeps_appendAuditLog
  keeps_putConfig keeps_getWorld keeps_validate keeps_driver : keeps.

Ltac keeps_tac :=
  repeat first
    [ solve [auto with keeps]
    | progress cbv zeta
    | apply keeps_bind; [|intros ?]
    | match goal with
      | |- keeps (match ?x with _ => _ end) => destruct x
      | |- keeps (if ?b then _ else _) => destruct b
      end ].

Lemma keeps_logAction env data : keeps (logAction env data).
Proof. unfold logAction. keeps_tac. Qed.

Lemma keeps_getConfig env : keeps (getConfig env).
Proof. unfold getConfig. keeps_tac. Qed.

Lemma keeps_searchByKeywords env keywords options :
  keeps (searchByKeywords env keywords options).
Proof. unfold searchByKeywords. keeps_tac. Qed.

Lemma keeps_classifyCategory env ticket traceId :
  keeps (classifyCategory env ticket traceId).
Proof. unfold classifyCategory. keeps_tac. Qed.

Lemma keeps_generateDraftReply env ticket articles categoryResult traceId :
  keeps (generateDraftReply env ticket articles categoryResult traceId).
Proof. unfold generateDraftReply. keeps_tac. Qed.

#[export] Hint Resolve keeps_logAction keeps_getConfig keeps_searchByKeywords
  keeps_classifyCategory keeps_generateDraftReply : keeps.

Lemma keeps_retrieveRelevantArticles env ticket cat traceId :
  keeps (retrieveRelevantArticles env ticket cat traceId).
Proof. unfold retrieveRelevantArticles. keeps_tac. Qed.

#[export] Hint Resolve keeps_retrieveRelevantArticles : keeps.

(** *** A computation that the unique index turns down *)

Lemma blocked_after {A B : Type} ticketId (m : M A) (k : A -> M B) :
  keeps m -> (forall a, blocked ticketId (k a)) -> blocked ticketId (bind m k).
Proof.
  intros Hm Hk w Hex. unfold bind.
  destruct (m w) as [[a|e] w1] eqn:E.
  - pose proof (Hm _ _ _ E) as Hs.
    destruct (Hk a w1) as (e & w' & Hrun & Hs'); [now rewrite Hs|].
    exists e, w'. split; [exact Hrun | congruence].
  - exists e, w1. split; [reflexivity | exact (Hm _ _ _ E)].
Qed.

Lemma blocked_first {A B : Type} ticketId (m : M A) (k : A -> M B) :
  blocked ticketId m -> blocked ticketId (bind m k).
Proof.
  intros Hm w Hex. destruct (Hm w Hex) as (e & w' & E & Hs).
  exists e, w'. unfold bind. rewrite E. split; [reflexivity | exact Hs].
Qed.

Lemma blocked_create env doc :
  blocked (sug_ticketId doc) (AgentSuggestion_create env doc).
Proof.
  unfold AgentSuggestion_create.
  apply blocked_after; [auto with keeps | intros _].
  apply blocked_after; [auto with keeps | intros _].
  apply blocked_after; [auto with keeps | intros _].
  intros w Hex. unfold bind, getWorld. rewrite Hex.
  exists (DuplicateKey "agentsuggestions" (sug_ticketId doc)), w.
  split; reflexivity.
Qed.

Lemma blocked_triage env ticket traceId :
  blocked (ticket_id ticket) (triage env ticket traceId).
Proof.
  unfold triage.
  apply blocked_after; [auto with keeps | intros _].
  apply blocked_after; [auto with keeps | intros categoryResult].
  apply blocked_after; [auto with keeps | intros articles].
  apply blocked_after; [auto with keeps | intros draftResult].
  cbv zeta. apply blocked_first.
  match goal with
  | |- blocked _ (AgentSuggestion_create _ ?doc) => exact (blocked_create env doc)
  end.
Qed.

(** The [catch] block never gets past its first statement: the schema of
    the audit log has no action [triage_failed]. *)
Lemma triageFailed_rejected env ticket traceId error w :
  exists paths,
    In "action" paths /\
    triageFailed env ticket traceId error w
    = (Rejected (ValidationError "AuditLog" paths),
       addCall (LogAction "triage_failed") w).
Proof.
  unfold triageFailed, logAction.
  match goal with
  | |- context [validate "AuditLog" ?checks] =>
      destruct (validate_fails "AuditLog" checks "action"
                  (addCall (LogAction "triage_failed") w))
        as (paths & Hin & Hrun)
  end.
  { right. right. left. reflexivity. }
  exists paths. split; [exact Hin|].
  unfold bind at 1. unfold mark at 1. cbn [action].
  unfold bind at 1. unfold bind at 1.
  cbn [action] in Hrun. rewrite Hrun. reflexivity.
Qed.

(** *** At most one suggestion per ticket *)

Lemma keeps_unique {A : Type} (m : M A) : keeps m -> unique m.
Proof.
  intros Hm w o w' H Hnd. unfold ticketIds. rewrite (Hm _ _ _ H). exact Hnd.
Qed.

Lemma unique_bind {A B : Type} (m : M A) (k : A -> M B) :
  unique m -> (forall a, unique (k a)) -> unique (bind m k).
Proof.
  intros Hm Hk w o w'. unfold bind.
  destruct (m w) as [[a|e] w1] eqn:E; intros H Hnd.
  - exact (Hk a _ _ _ H (Hm _ _ _ E Hnd)).
  - inversion H; subst. exact (Hm _ _ _ E Hnd).
Qed.

Lemma unique_tryCatch {A : Type} (body : M A) handler :
  unique body -> (forall e, unique (handler e)) -> unique (tryCatch body handler).
Proof.
  intros Hb Hh w o w'. unfold tryCatch.
  destruct (body w) as [[a|e] w1] eqn:E; intros H Hnd.
  - inversion H; subst. exact (Hb _ _ _ E Hnd).
  - exact (Hh e _ _ _ H (Hb _ _ _ E Hnd)).
Qed.

Lemma existsb_hasTicket_false ticketId l :
  existsb (hasTicket ticketId) l = false -> ~ In ticketId (map sug_ticketId l).
Proof.
  induction l as [|d l IH]; simpl; intros H.
  - intros [].
  - apply orb_false_iff in H. destruct H as [Hd Hl].
    intros [Heq | Hin].
    + unfold hasTicket in Hd. rewrite Heq, Nat.eqb_refl in Hd. discriminate Hd.
    + exact (IH Hl Hin).
Qed.

Lemma unique_create env doc : unique (AgentSuggestion_create env doc).
Proof.
  unfold AgentSuggestion_create.
  apply unique_bind; [apply keeps_unique; auto with keeps | intros _].
  apply unique_bind; [apply keeps_unique; auto with keeps | intros _].
  apply unique_bind; [apply keeps_unique; auto with keeps | intros _].
  intros w o w'. unfold bind, getWorld.
  destruct (existsb (hasTicket (sug_ticketId doc)) (suggestions w)) eqn:E;
    intros H Hnd; inversion H; subst; [exact Hnd|].
  unfold ticketIds. cbn [suggestions setSuggestions].
  rewrite map_app. cbn [map].
  apply (Permutation_NoDup
           (l := sug_ticketId doc :: map sug_ticketId (suggestions w))).
  - apply Permutation_cons_append.
  - constructor; [apply existsb_hasTicket_false; exact E | exact Hnd].
Qed.

Lemma map_replace_ticketIds doc l :
  map sug_ticketId
      (map (fun old => if hasTicket (sug_ticketId doc) old then doc else old) l)
  = map sug_ticketId l.
Proof.
  induction l as [|d l IH]; [reflexivity|]. cbn [map]. rewrite IH. f_equal.
  unfold hasTicket. destruct (sug_ticketId d =? sug_ticketId doc)%nat eqn:E.
  - apply Nat.eqb_eq in E. symmetry. exact E.
  - reflexivity.
Qed.

Lemma unique_save env doc : unique (AgentSuggestion_save env doc).
Proof.
  unfold AgentSuggestion_save.
  apply unique_bind; [apply keeps_unique; auto with keeps | intros _].
  apply unique_bind; [apply keeps_unique; auto with keeps | intros _].
  apply unique_bind; [apply keeps_unique; auto with keeps | intros _].
  intros w o w'. unfold bind, getWorld, putSuggestions.
  intros H Hnd. inversion H; subst.
  unfold ticketIds. cbn [suggestions setSuggestions].
  rewrite map_replace_ticketIds. exact Hnd.
Qed.

Ltac unique_tac :=
  repeat first
    [ solve [apply keeps_unique; auto with keeps]
    | apply unique_create
    | apply unique_save
    | progress cbv zeta
    | apply unique_bind; [|intros ?]
    | match goal with
      | |- unique (if ?b then _ else _) => destruct b
      end ].

Lemma unique_getStubResult env ticket traceId :
  unique (getStubResult env ticket traceId).
Proof. unfold getStubResult. unique_tac. Qed.

Lemma unique_triage env ticket traceId : unique (triage env ticket traceId).
Proof. unfold triage. unique_tac. Qed.

(** No run of the pipeline, whatever its outcome, leaves two suggestions
    for one ticket behind. *)
Lemma processTicket_unique env ticket : unique (processTicket env ticket).
Proof.
  unfold processTicket. apply unique_tryCatch.
  - apply unique_triage.
  - intros e. unfold triageFailed.
    apply unique_bind; [apply keeps_unique; auto with keeps | intros _].
    apply unique_getStubResult.
Qed.

(** *** What a method that resolved has done *)

Ltac inv_bind H a w1 H1 :=
  apply bind_resolved in H; destruct H as (a & w1 & H1 & H).

Lemma mark_resolved c w (u : unit) w' :
  mark c w = (Resolved u, w') -> w' = addCall c w.
Proof. intros H. inversion H. reflexivity. Qed.

Lemma driver_resolved env w (u : unit) w' :
  driver env w = (Resolved u, w') -> w' = w.
Proof.
  unfold driver. destruct (outage env (List.length (calls w))); intros H.
  - discriminate H.
  - inversion H. reflexivity.
Qed.

Lemma logAction_resolved env data w (u : unit) w' :
  logAction env data w = (Resolved u, w') ->
  w' = addAuditLog data (addCall (LogAction (action data)) w).
Proof.
  unfold logAction. intros H.
  inv_bind H u1 w1 H1. inv_bind H u2 w2 H2. inv_bind H u3 w3 H3.
  apply mark_resolved in H1. apply validate_resolved in H2 as [_ H2].
  apply driver_resolved in H3. inversion H. subst. reflexivity.
Qed.

Lemma create_resolved env doc w r w' :
  AgentSuggestion_create env doc w = (Resolved r, w') ->
  r = doc /\
  existsb (hasTicket (sug_ticketId doc)) (suggestions w) = false /\
  failingPaths (suggestionChecks doc) = [] /\
  w' = setSuggestions (suggestions w ++ [doc])%list
                      (addCall (CreateSuggestion (sug_ticketId doc)) w).
Proof.
  unfold AgentSuggestion_create. intros H.
  inv_bind H u1 w1 H1. inv_bind H u2 w2 H2. inv_bind H u3 w3 H3.
  inv_bind H w4 w5 H4.
  apply mark_resolved in H1. apply validate_resolved in H2 as [Hv H2].
  apply driver_resolved in H3. inversion H4. subst. clear H4.
  cbn [suggestions addCall] in H.
  destruct (existsb (hasTicket (sug_ticketId doc)) (suggestions w)) eqn:E.
  - discriminate H.
  - inv_bind H u5 w6 H5. inversion H5. inversion H. subst.
    repeat split; try reflexivity. exact Hv.
Qed.

Lemma save_resolved env doc w (u : unit) w' :
  AgentSuggestion_save env doc w = (Resolved u, w') ->
  w' = setSuggestions
         (map (fun old => if hasTicket (sug_ticketId doc) old then doc else old)
              (suggestions w))
         (addCall (SaveSuggestion (sug_ticketId doc)) w).
Proof.
  unfold AgentSuggestion_save. intros H.
  inv_bind H u1 w1 H1. inv_bind H u2 w2 H2. inv_bind H u3 w3 H3.
  inv_bind H w4 w5 H4.
  apply mark_resolved in H1. apply validate_resolved in H2 as [_ H2].
  apply driver_resolved in H3. inversion H4. inversion H. subst. reflexivity.
Qed.

Lemma getConfig_resolved env w c w' :
  getConfig env w = (Resolved c, w') ->
  c = orElse (config w) defaultConfig /\ w' = setConfig c (addCall GetConfig w).
Proof.
  unfold getConfig. intros H.
  inv_bind H u1 w1 H1. inv_bind H u2 w2 H2. inv_bind H w3 w4 H3.
  apply mark_resolved in H1. apply driver_resolved in H2. inversion H3. subst.
  clear H3. cbn [config addCall] in H.
  destruct w as [logs sugs [cfg|] cs]; cbn [config] in H.
  - inversion H. subst. split; reflexivity.
  - inv_bind H u5 w6 H5. inversion H5. inversion H. subst. split; reflexivity.
Qed.

Lemma searchByKeywords_resolved env keywords options w l w' :
  searchByKeywords env keywords options w = (Resolved l, w') ->
  l = queryResult env keywords options /\
  w' = addCall (SearchByKeywords (opt_category options)
                                 (orElse (opt_limit options) 10)) w.
Proof.
  unfold searchByKeywords. intros H.
  inv_bind H u1 w1 H1. inv_bind H u2 w2 H2.
  apply mark_resolved in H1. apply driver_resolved in H2. subst.
  destruct (Str.truthy keywords && Str.blank keywords).
  - discriminate H.
  - inversion H. split; reflexivity.
Qed.

Lemma classifyCategory_runs env ticket traceId w :
  exists categoryResult,
    classifyCategory env ticket traceId w
    = (Resolved categoryResult, addCall ClassifyCategory w).
Proof.
  unfold classifyCategory, bind, mark.
  destruct (activeModel env) as [engine|]; [|eexists; reflexivity].
  destruct (askCategory engine ticket); eexists; reflexivity.
Qed.

Lemma generateDraftReply_runs env ticket articles categoryResult traceId w :
  exists draftResult,
    generateDraftReply env ticket articles categoryResult traceId w
    = (Resolved draftResult, addCall GenerateDraftReply w).
Proof.
  unfold generateDraftReply, bind, mark.
  destruct (activeModel env) as [engine|]; [|eexists; reflexivity].
  destruct (askReply engine ticket articles categoryResult) as [[text n]|];
    eexists; reflexivity.
Qed.

Lemma retrieveRelevantArticles_resolved env ticket cat traceId w articles w' :
  retrieveRelevantArticles env ticket cat traceId w = (Resolved articles, w') ->
  let primary := queryResult env (ticketText ticket) (primaryOptions cat) in
  let secondary := queryResult env (ticketText ticket) fallbackOptions in
  exists event,
    action event = "articles_retrieved" /\
    log_traceId event = traceId /\
    log_ticketId event = ticket_id ticket /\
    articles = (if (List.length primary =? 0)%nat then secondary else primary) /\
    w' = addAuditLog event
           (addCall (LogAction "articles_retrieved")
              (if (List.length primary =? 0)%nat
               then addCall (SearchByKeywords None 3)
                            (addCall (SearchByKeywords (Some cat) 5) w)
               else addCall (SearchByKeywords (Some cat) 5) w)).
Proof.
  unfold retrieveRelevantArticles. intros H.
  set (primary := queryResult env (ticketText ticket) (primaryOptions cat)) in *.
  set (secondary := queryResult env (ticketText ticket) fallbackOptions) in *.
  inv_bind H found w1 H1. inv_bind H arts w2 H2. inv_bind H u3 w3 H3.
  apply searchByKeywords_resolved in H1 as [Hfound Hw1].
  fold primary in Hfound. subst found.
  unfold primaryOptions in Hw1. cbn [opt_category opt_limit orElse] in Hw1.
  apply logAction_resolved in H3. cbn [action] in H3.
  inversion H. subst articles w'. clear H.
  destruct (List.length primary =? 0)%nat eqn:E.
  - inv_bind H2 found2 w4 H4.
    apply searchByKeywords_resolved in H4 as [Hall Hw4].
    fold secondary in Hall. subst found2.
    unfold fallbackOptions in Hw4. cbn [opt_category opt_limit orElse] in Hw4.
    apply Nat.eqb_eq in E. apply length_zero_iff_nil in E.
    inversion H2. subst arts w2. rewrite E in *. cbn [app] in *.
    subst w3 w4 w1. eexists. repeat split; reflexivity.
  - inversion H2. subst arts w2.
    subst w3 w1. eexists. repeat split; reflexivity.
Qed.

Lemma map_replace_fresh ticketId doc l :
  existsb (hasTicket ticketId) l = false ->
  map (fun old => if hasTicket ticketId old then doc else old) l = l.
Proof.
  induction l as [|d l IH]; [reflexivity|]. cbn [existsb map]. intros H.
  apply orb_false_iff in H. destruct H as [Hd Hl].
  rewrite Hd, (IH Hl). reflexivity.
Qed.

(** Everything a run of the [try] block that reached its [return] has
    done, in one statement. *)
Lemma triage_resolved env ticket tid w r w' :
  triage env ticket tid w = (Resolved r, w') ->
  exists categoryResult articles draftResult events rest,
    let overall := calculateOverallConfidence categoryResult draftResult articles in
    let cfg := orElse (config w) defaultConfig in
    let close := autoCloseEnabled cfg && Num.geb overall (confidenceThreshold cfg) in
    traceId r = tid /\
    shouldAutoClose r = close /\
    sug_confidence (suggestion r) = overall /\
    autoClosed (suggestion r) = close /\
    sug_ticketId (suggestion r) = ticket_id ticket /\
    predictedCategory (suggestion r) = category categoryResult /\
    config w' = Some cfg /\
    suggestions w' = (suggestions w ++ [suggestion r])%list /\
    auditLogs w' = (auditLogs w ++ events)%list /\
    map action events
    = (["category_predicted"; "articles_retrieved"]
         ++ (if close then ["auto_closed"] else []) ++ ["reply_drafted"])%list /\
    Forall (fun event => log_traceId event = tid) events /\
    (exists others,
        events = {| log_ticketId := ticket_id ticket;
                    log_traceId := tid;
                    actor := "system";
                    action := "category_predicted";
                    log_description := "Starting AI triage process";
                    meta := [("ticketTitle", MString (title ticket))] |} :: others) /\
    calls w' = (calls w ++ LogAction "category_predicted" :: ClassifyCategory
                  :: SearchByKeywords (Some (category categoryResult)) 5 :: rest)%list /\
    categoryConfidence (suggestion r) = confidence categoryResult /\
    draftReply (suggestion r) = reply draftResult /\
    articleIds (suggestion r) = map article_id articles.
Proof.
  unfold triage. intros H.
  inv_bind H u1 w1 H1. apply logAction_resolved in H1. cbn [action] in H1.
  inv_bind H categoryResult w2 H2.
  destruct (classifyCategory_runs env ticket tid w1) as (cr & Hcr).
  rewrite Hcr in H2. inversion H2. subst cr w2. clear H2 Hcr.
  inv_bind H articles w3 H3.
  apply retrieveRelevantArticles_resolved in H3.
  destruct H3 as (retrieved & Hact & Htid & _ & _ & H3).
  inv_bind H draftResult w4 H4.
  destruct (generateDraftReply_runs env ticket articles categoryResult tid w3)
    as (dr & Hdr).
  rewrite Hdr in H4. inversion H4. subst dr w4. clear H4 Hdr.
  cbv zeta in H.
  set (overall := calculateOverallConfidence categoryResult draftResult articles) in *.
  inv_bind H created w5 H5. apply create_resolved in H5.
  destruct H5 as (Hcreated & Hfresh & _ & H5). cbn [sug_ticketId] in Hfresh, H5.
  inv_bind H cfg w6 H6. apply getConfig_resolved in H6. destruct H6 as (Hcfg & H6).
  inv_bind H final w7 H7.
  inv_bind H u8 w8 H8. apply logAction_resolved in H8. cbn [action] in H8.
  inversion H. subst r w'. clear H.
  assert (Hc0 : config w5 = config w).
  { subst w5 w3 w1.
    destruct (List.length (queryResult env (ticketText ticket)
                             (primaryOptions (category categoryResult))) =? 0)%nat;
      reflexivity. }
  rewrite Hc0 in Hcfg. clear Hc0.
  exists categoryResult, articles, draftResult.
  cbv zeta. fold overall. rewrite <- Hcfg.
  destruct (autoCloseEnabled cfg && Num.geb overall (confidenceThreshold cfg)) eqn:Eclose.
  - inv_bind H7 u9 w9 H9. apply save_resolved in H9.
    inv_bind H7 u10 w10 H10. apply logAction_resolved in H10. cbn [action] in H10.
    inversion H7. subst final w7. clear H7.
    subst created. cbn [setAutoClosed sug_ticketId] in H9.
    subst w8 w10 w9 w6 w5 w3 w1.
    destruct (List.length (queryResult env (ticketText ticket)
                             (primaryOptions (category categoryResult))) =? 0)%nat;
      cbn [auditLogs suggestions config calls addCall addAuditLog setSuggestions
           setConfig traceId shouldAutoClose suggestion setAutoClosed
           sug_confidence autoClosed sug_ticketId predictedCategory
           categoryConfidence draftReply articleIds];
      cbn [suggestions addCall addAuditLog] in Hfresh;
      rewrite map_app, (map_replace_fresh _ _ _ Hfresh); cbn [map];
      unfold hasTicket at 1; cbn [sug_ticketId]; rewrite Nat.eqb_refl;
      repeat rewrite <- app_assoc; cbn [app];
      eexists; eexists;
      do 9 (split; [reflexivity|]);
      (split; [cbn [map app]; rewrite Hact; reflexivity|]);
      (split; [repeat (apply Forall_cons; [first [reflexivity | exact Htid]|]);
               apply Forall_nil|]);
      (split; [eexists; reflexivity|]);
      (split; [reflexivity|]); repeat split; reflexivity.
  - inversion H7. subst final w7. clear H7.
    subst created.
    subst w8 w6 w5 w3 w1.
    destruct (List.length (queryResult env (ticketText ticket)
                             (primaryOptions (category categoryResult))) =? 0)%nat;
      cbn [auditLogs suggestions config calls addCall addAuditLog setSuggestions
           setConfig traceId shouldAutoClose suggestion setAutoClosed
           sug_confidence autoClosed sug_ticketId predictedCategory
           categoryConfidence draftReply articleIds];
      repeat rewrite <- app_assoc; cbn [app];
      eexists; eexists;
      do 9 (split; [reflexivity|]);
      (split; [cbn [map app]; rewrite Hact; reflexivity|]);
      (split; [repeat (apply Forall_cons; [first [reflexivity | exact Htid]|]);
               apply Forall_nil|]);
      (split; [eexists; reflexivity|]);
      (split; [reflexivity|]); repeat split; reflexivity.
Qed.

Lemma processTicket_resolved env ticket w r w' :
  processTicket env ticket w = (Resolved r, w') ->
  triage env ticket (uuidv4 env) w = (Resolved r, w').
Proof.
  unfold processTicket, tryCatch.
  destruct (triage env ticket (uuidv4 env) w) as [[r0|e] w1]; intros H.
  - exact H.
  - destruct (triageFailed_rejected env ticket (uuidv4 env) e w1) as (paths & _ & Hrun).
    rewrite Hrun in H. discriminate H.
Qed.

Lemma getStubResult_resolved env ticket tid w r w' :
  getStubResult env ticket tid w = (Resolved r, w') ->
  shouldAutoClose r = false /\ traceId r = tid.
Proof.
  unfold getStubResult. intros H.
  inv_bind H articles w1 H1. cbv zeta in H. inv_bind H created w2 H2.
  inversion H. split; reflexivity.
Qed.

(* ------------------------------------------------------------------ *)
(** ** The orchestrator *)

(** Once the [try] block has rejected, [processTicket] rejects as well. *)
Lemma processTicket_rejected env ticket w error w1 :
  triage env ticket (uuidv4 env) w = (Rejected error, w1) ->
  exists paths,
    In "action" paths /\
    processTicket env ticket w
    = (Rejected (ValidationError "AuditLog" paths),
       addCall (LogAction "triage_failed") w1).
Proof.
  intros Htry. unfold processTicket.
  rewrite (tryCatch_rejected_body _ _ _ _ _ Htry).
  apply triageFailed_rejected.
Qed.

(** C1.  The claim: when a step of [processTicket] raises, the error is
    caught once, a [triage_failed] audit event is recorded, and the stub
    fallback still returns a complete result, so that nothing escapes.
    What the code does instead, for every environment, ticket and database:
    as soon as the [try] block rejects, the first statement of the [catch]
    block, [AuditLog.logAction] with action [triage_failed], is turned down
    by the schema ([triage_failed] is not in the [enum] of [action]); the
    rejection of [processTicket] is that validation error, the only trace of
    the handler is the attempted call, no audit event is stored and
    [getStubResult] is never reached. *)
Theorem C1_triage_failed_escapes env ticket w error w1 :
  triage env ticket (uuidv4 env) w = (Rejected error, w1) ->
  exists paths,
    In "action" paths /\
    processTicket env ticket w
    = (Rejected (ValidationError "AuditLog" paths),
       addCall (LogAction "triage_failed") w1).
Proof. exact (processTicket_rejected env ticket w error w1). Qed.

Lemma C1_triage_failed_escapes_witness :
  exists paths,
    In "action" paths /\
    processTicket Sample.flakyEnv Sample.billingTicket Sample.freshWorld
    = (Rejected (ValidationError "AuditLog" paths),
       addCall (LogAction "triage_failed")
         (snd (triage Sample.flakyEnv Sample.billingTicket
                      (uuidv4 Sample.flakyEnv) Sample.freshWorld))).
Proof.
  apply (C1_triage_failed_escapes Sample.flakyEnv Sample.billingTicket
           Sample.freshWorld (ExternalError "connection lost")).
  vm_compute. reflexivity.
Defined.

(** C2.  On every run of [processTicket] that returns, [shouldAutoClose] is
    true exactly when the configuration read by the run has
    [autoCloseEnabled] and the aggregate confidence stored in the
    suggestion is [>=] its [confidenceThreshold]; and whatever
    [getStubResult] returns has [shouldAutoClose] false, for every ticket,
    database and configuration. *)
Theorem C2_auto_close_gating env ticket :
  (forall w r w',
      processTicket env ticket w = (Resolved r, w') ->
      exists cfg categoryResult draftResult articles,
        cfg = orElse (config w) defaultConfig /\
        config w' = Some cfg /\
        (predictedCategory (suggestion r) = category categoryResult /\
         categoryConfidence (suggestion r) = confidence categoryResult /\
         draftReply (suggestion r) = reply draftResult /\
         articleIds (suggestion r) = map article_id articles) /\
        sug_confidence (suggestion r)
        = calculateOverallConfidence categoryResult draftResult articles /\
        autoClosed (suggestion r) = shouldAutoClose r /\
        (shouldAutoClose r = true <->
         autoCloseEnabled cfg = true /\
         Num.geb (sug_confidence (suggestion r)) (confidenceThreshold cfg) = true)) /\
  (forall traceId w r w',
      getStubResult env ticket traceId w = (Resolved r, w') ->
      shouldAutoClose r = false).
Proof.
  split.
  - intros w r w' H. apply processTicket_resolved in H.
    apply triage_resolved in H.
    destruct H as (cr & arts & dr & events & rest & H). cbv zeta in H.
    destruct H as (_ & Hclose & Hconf & Hauto & _ & Hcat & Hcfg & _ & _ & _ & _ & _
                   & _ & Hcc & Hreply & Hids).
    exists (orElse (config w) defaultConfig), cr, dr, arts.
    split; [reflexivity|]. split; [exact Hcfg|].
    split; [repeat split; assumption|]. split; [exact Hconf|].
    split; [congruence|]. rewrite Hclose, Hconf. apply andb_true_iff.
  - intros tid w r w' H. apply getStubResult_resolved in H. apply H.
Qed.

Lemma C2_auto_close_gating_witness :
  (exists r w',
      processTicket Sample.env Sample.billingTicket Sample.eagerWorld
      = (Resolved r, w') /\
      shouldAutoClose r = true /\
      exists cfg,
        config w' = Some cfg /\ autoCloseEnabled cfg = true /\
        Num.geb (sug_confidence (suggestion r)) (confidenceThreshold cfg) = true) /\
  (exists r w',
      getStubResult Sample.env Sample.billingTicket "error-trace-id"
                    Sample.eagerWorld = (Resolved r, w') /\
      shouldAutoClose r = false).
Proof.
  destruct (C2_auto_close_gating Sample.env Sample.billingTicket) as [Hrun Hstub].
  split.
  - destruct (processTicket Sample.env Sample.billingTicket Sample.eagerWorld)
      as [[r|e] w'] eqn:E; [|vm_compute in E; discriminate E].
    exists r, w'. split; [reflexivity|].
    destruct (Hrun _ _ _ E) as (cfg & _ & _ & _ & _ & Hcfg & _ & _ & _ & Hiff).
    assert (Hclose : shouldAutoClose r = true).
    { vm_compute in E. inversion E. reflexivity. }
    split; [exact Hclose|]. exists cfg. split; [exact Hcfg|].
    exact (proj1 Hiff Hclose).
  - destruct (getStubResult Sample.env Sample.billingTicket "error-trace-id"
                            Sample.eagerWorld) as [[r|e] w'] eqn:E;
      [|vm_compute in E; discriminate E].
    exists r, w'. split; [reflexivity|]. exact (Hstub _ _ _ _ E).
Defined.

(** A second triage of a ticket, with a healthy connection, is stopped by
    the unique index: [AgentSuggestion.create] rejects with the duplicate
    key error. *)
Example second_triage_conflict :
  fst (triage Sample.env Sample.billingTicket (uuidv4 Sample.env) Sample.triagedWorld)
  = Rejected (DuplicateKey "agentsuggestions" 7).
Proof. vm_compute. reflexivity. Qed.

(** C7.  The claim: a ticket never has two suggestions; a second run of the
    pipeline for the same ticket creates nothing, its creation attempt is
    rejected as a conflict that reaches the caller, and the stored
    suggestion is not overwritten.  What the code does when the ticket
    already has a suggestion, for every environment and database: the
    stored suggestions are left exactly as they were, and [processTicket]
    rejects, but with the validation error of the [triage_failed] audit
    entry, not with the conflict, which the [catch] block has swallowed. *)
Theorem C7_second_run_keeps_first_suggestion env ticket w :
  existsb (hasTicket (ticket_id ticket)) (suggestions w) = true ->
  exists paths w',
    processTicket env ticket w = (Rejected (ValidationError "AuditLog" paths), w') /\
    In "action" paths /\
    suggestions w' = suggestions w /\
    (NoDup (ticketIds w) -> NoDup (ticketIds w')).
Proof.
  intros Hex.
  destruct (blocked_triage env ticket (uuidv4 env) w Hex) as (e & w1 & Htry & Hs).
  destruct (processTicket_rejected env ticket w e w1 Htry) as (paths & Hin & Hrun).
  exists paths, (addCall (LogAction "triage_failed") w1).
  split; [exact Hrun|]. split; [exact Hin|]. split; [exact Hs|].
  unfold ticketIds. cbn [suggestions addCall]. rewrite Hs. auto.
Qed.

Lemma C7_second_run_keeps_first_suggestion_witness :
  exists paths w',
    processTicket Sample.env Sample.billingTicket Sample.triagedWorld
    = (Rejected (ValidationError "AuditLog" paths), w') /\
    In "action" paths /\
    suggestions w' = suggestions Sample.triagedWorld /\
    (NoDup (ticketIds Sample.triagedWorld) -> NoDup (ticketIds w')).
Proof.
  apply (C7_second_run_keeps_first_suggestion Sample.env Sample.billingTicket
           Sample.triagedWorld).
  vm_compute. reflexivity.
Defined.

(** C8.  Every run of [processTicket] that returns has appended to the
    audit log, in this order, a [category_predicted] entry, an
    [articles_retrieved] entry, an [auto_closed] entry exactly when the run
    auto-closes, and a final [reply_drafted] entry; all of them carry the
    trace identifier drawn at the start of the run, which is the one
    returned. *)
Theorem C8_audit_trail env ticket w r w' :
  processTicket env ticket w = (Resolved r, w') ->
  exists events,
    auditLogs w' = (auditLogs w ++ events)%list /\
    map action events
    = (["category_predicted"; "articles_retrieved"]
         ++ (if shouldAutoClose r then ["auto_closed"] else [])
         ++ ["reply_drafted"])%list /\
    Forall (fun event => log_traceId event = uuidv4 env) events /\
    traceId r = uuidv4 env.
Proof.
  intros H. apply processTicket_resolved in H. apply triage_resolved in H.
  destruct H as (cr & arts & dr & events & rest & H). cbv zeta in H.
  destruct H as (Htid & Hclose & _ & _ & _ & _ & _ & _ & Hlogs & Hacts & Hall & _).
  exists events. rewrite Hclose.
  split; [exact Hlogs|]. split; [exact Hacts|]. split; [exact Hall | exact Htid].
Qed.

Lemma C8_audit_trail_witness :
  exists r w' events,
    shouldAutoClose r = true /\
    auditLogs w' = (auditLogs Sample.eagerWorld ++ events)%list /\
    map action events
    = ["category_predicted"; "articles_retrieved"; "auto_closed"; "reply_drafted"] /\
    Forall (fun event => log_traceId event = uuidv4 Sample.env) events /\
    traceId r = uuidv4 Sample.env.
Proof.
  destruct (processTicket Sample.env Sample.billingTicket Sample.eagerWorld)
    as [[r|e] w'] eqn:E; [|vm_compute in E; discriminate E].
  destruct (C8_audit_trail Sample.env Sample.billingTicket Sample.eagerWorld r w' E)
    as (events & Hlogs & Hacts & Hall & Htid).
  assert (Hclose : shouldAutoClose r = true).
  { vm_compute in E. inversion E. reflexivity. }
  rewrite Hclose in Hacts.
  exists r, w', events. repeat split; assumption.
Defined.

(** C9, the claim refuted on a run: in this run, which returns, no
    [category_predicted] entry is written after the classifier has been
    invoked; the only one is written before. *)
Lemma C9_counterexample :
  exists r w',
    processTicket Sample.env Sample.billingTicket Sample.freshWorld
    = (Resolved r, w') /\
    calls w' = [LogAction "category_predicted"; ClassifyCategory;
                SearchByKeywords (Some "billing") 5;
                LogAction "articles_retrieved"; GenerateDraftReply;
                CreateSuggestion 7; GetConfig; LogAction "reply_drafted"] /\
    predictionLogged false (calls w') = false.
Proof.
  eexists. eexists. split; [vm_compute; reflexivity|].
  split; vm_compute; reflexivity.
Qed.

(** C9, amended.  In every run that returns, the orchestrator first writes
    the [category_predicted] audit entry, which marks the start of triage
    and carries the ticket title only, then invokes the classifier, and
    then searches the articles of the category the classifier returned. *)
Theorem C9_start_marker_precedes_classifier env ticket w r w' :
  processTicket env ticket w = (Resolved r, w') ->
  exists rest others,
    calls w' = (calls w ++ LogAction "category_predicted" :: ClassifyCategory
                  :: SearchByKeywords (Some (predictedCategory (suggestion r))) 5
                  :: rest)%list /\
    auditLogs w'
    = (auditLogs w ++ {| log_ticketId := ticket_id ticket;
                         log_traceId := uuidv4 env;
                         actor := "system";
                         action := "category_predicted";
                         log_description := "Starting AI triage process";
                         meta := [("ticketTitle", MString (title ticket))] |}
                   :: others)%list.
Proof.
  intros H. apply processTicket_resolved in H. apply triage_resolved in H.
  destruct H as (cr & arts & dr & events & rest & H). cbv zeta in H.
  destruct H as (_ & _ & _ & _ & _ & Hcat & _ & _ & Hlogs & _ & _ & Hfirst & Hcalls & _).
  destruct Hfirst as (others & Hevents).
  exists rest, others. rewrite Hcat. split; [exact Hcalls|].
  rewrite Hlogs, Hevents. reflexivity.
Qed.

Lemma C9_start_marker_precedes_classifier_witness :
  exists r w' rest others,
    calls w' = (calls Sample.freshWorld ++ LogAction "category_predicted"
                  :: ClassifyCategory
                  :: SearchByKeywords (Some (predictedCategory (suggestion r))) 5
                  :: rest)%list /\
    auditLogs w'
    = (auditLogs Sample.freshWorld
         ++ {| log_ticketId := ticket_id Sample.billingTicket;
               log_traceId := uuidv4 Sample.env;
               actor := "system";
               action := "category_predicted";
               log_description := "Starting AI triage process";
               meta := [("ticketTitle", MString (title Sample.billingTicket))] |}
         :: others)%list.
Proof.
  destruct (processTicket Sample.env Sample.billingTicket Sample.freshWorld)
    as [[r|e] w'] eqn:E; [|vm_compute in E; discriminate E].
  destruct (C9_start_marker_precedes_classifier
              Sample.env Sample.billingTicket Sample.freshWorld r w' E)
    as (rest & others & Hcalls & Hlogs).
  exists r, w', rest, others. split; assumption.
Defined.

(* ------------------------------------------------------------------ *)
(** ** The retriever *)

Lemma In_firstn {A : Type} (x : A) n l : In x (firstn n l) -> In x l.
Proof.
  revert l. induction n as [|n IH]; intros [|y l]; cbn [firstn In]; try tauto.
  intros [H|H]; [left; exact H | right; exact (IH l H)].
Qed.

Lemma In_skipn {A : Type} (x : A) n l : In x (skipn n l) -> In x l.
Proof.
  revert l. induction n as [|n IH]; intros l; cbn [skipn]; [auto|].
  destruct l as [|y l]; [auto|]. intros H. right. exact (IH l H).
Qed.

Lemma In_insertDesc {A : Type} (key : A -> nat) (x y : A) l :
  In y (insertDesc key x l) -> y = x \/ In y l.
Proof.
  induction l as [|z l IH]; cbn [insertDesc].
  - intros [H|[]]. left. symmetry. exact H.
  - destruct (key z <=? key x)%nat.
    + intros [H|H]; [left; symmetry; exact H | right; exact H].
    + intros [H|H]; [right; left; exact H|].
      destruct (IH H) as [H'|H']; [left; exact H' | right; right; exact H'].
Qed.

Lemma In_sortDesc {A : Type} (key : A -> nat) (y : A) l :
  In y (sortDesc key l) -> In y l.
Proof.
  induction l as [|x l IH]; cbn [sortDesc fold_right]; [auto|].
  intros H. apply In_insertDesc in H. destruct H as [H|H].
  - left. symmetry. exact H.
  - right. exact (IH H).
Qed.

(** What the database guarantees about the answer to a query: no more
    documents than the limit, unless the limit is 0, each of the requested
    status and, when a category was given, of that category as the schema
    casts it. *)
Lemma queryResult_sound env keywords options :
  (orElse (opt_limit options) 10 <> 0 ->
   List.length (queryResult env keywords options) <= orElse (opt_limit options) 10) /\
  forall a, In a (queryResult env keywords options) ->
    In a (articleCollection env) /\
    article_status a = orElse (opt_status options) "published" /\
    (forall c, opt_category options = Some c -> Str.truthy c = true ->
               article_category a = castCategory c).
Proof.
  unfold queryResult. cbv zeta. split.
  { intros Hlimit. destruct (Nat.eqb_spec (orElse (opt_limit options) 10) 0) as [E|_];
      [now elim Hlimit | apply firstn_le_length]. }
  intros a Ha.
  assert (Ha' : In a (skipn (orElse (opt_skip options) 0)
                        (if Str.truthy keywords
                         then sortDesc (fun a => orElse (textScore env keywords a) 0)
                                (filter (matchesQuery env
                                           (orElse (opt_status options) "published")
                                           (opt_category options) keywords)
                                        (articleCollection env))
                         else sortDesc article_createdAt
                                (filter (matchesQuery env
                                           (orElse (opt_status options) "published")
                                           (opt_category options) keywords)
                                        (articleCollection env))))).
  { destruct (orElse (opt_limit options) 10 =? 0)%nat; [exact Ha|].
    apply In_firstn in Ha. exact Ha. }
  clear Ha. rename Ha' into Ha. apply In_skipn in Ha.
  assert (Hf : In a (filter (matchesQuery env (orElse (opt_status options) "published")
                               (opt_category options) keywords)
                            (articleCollection env))).
  { destruct (Str.truthy keywords); apply In_sortDesc in Ha; exact Ha. }
  apply filter_In in Hf. destruct Hf as [Hin Hm]. unfold matchesQuery in Hm.
  apply andb_true_iff in Hm. destruct Hm as [Hm _].
  apply andb_true_iff in Hm. destruct Hm as [Hst Hcat].
  split; [exact Hin|]. split; [apply String.eqb_eq; exact Hst|].
  intros c Hc Ht. rewrite Hc, Ht in Hcat. apply String.eqb_eq. exact Hcat.
Qed.

Lemma truthy_nonempty s : s <> "" -> Str.truthy s = true.
Proof. destruct s; [intros H; now elim H | reflexivity]. Qed.

Lemma castCategory_closed cat : In cat categories -> castCategory cat = cat.
Proof.
  cbn [In categories]. intros [<-|[<-|[<-|[<-|[]]]]]; reflexivity.
Qed.

(** C6.  Whenever the retriever returns: its first search is the one over
    published articles of the predicted category, capped at 5; the second
    search, over published articles of any category and capped at 3, is
    issued exactly when the first one found nothing, and its answer is then
    the result; otherwise the result is the answer of the first search.  So
    the result never has more than 5 articles and is empty only when both
    answers are.  The category of the filter is the predicted one as the
    schema of the articles casts it, in lower case and trimmed: the
    predicted category itself when it is one of billing, tech, shipping,
    other. *)
Theorem C6_two_tier_retrieval env ticket cat traceId w articles w' :
  retrieveRelevantArticles env ticket cat traceId w = (Resolved articles, w') ->
  let primary := queryResult env (ticketText ticket) (primaryOptions cat) in
  let secondary := queryResult env (ticketText ticket) fallbackOptions in
  (List.length primary <= 5 /\
   forall a, In a primary ->
     article_status a = "published" /\
     (cat <> "" -> article_category a = Str.trim (Str.toLowerCase cat)) /\
     (In cat categories -> article_category a = cat)) /\
  (List.length secondary <= 3 /\
   forall a, In a secondary -> article_status a = "published") /\
  (primary <> [] ->
   articles = primary /\
   calls w' = (calls w ++ [SearchByKeywords (Some cat) 5;
                           LogAction "articles_retrieved"])%list) /\
  (primary = [] ->
   articles = secondary /\
   calls w' = (calls w ++ [SearchByKeywords (Some cat) 5;
                           SearchByKeywords None 3;
                           LogAction "articles_retrieved"])%list) /\
  List.length articles <= 5 /\
  (articles = [] -> primary = [] /\ secondary = []).
Proof.
  intros H primary secondary.
  apply retrieveRelevantArticles_resolved in H. cbv zeta in H.
  fold primary secondary in H.
  destruct H as (event & _ & _ & _ & Harts & Hw).
  destruct (queryResult_sound env (ticketText ticket) (primaryOptions cat))
    as [Hlen1 Hin1].
  destruct (queryResult_sound env (ticketText ticket) fallbackOptions)
    as [Hlen2 Hin2].
  fold primary in Hlen1, Hin1. fold secondary in Hlen2, Hin2.
  cbn [primaryOptions fallbackOptions opt_limit opt_status opt_category orElse]
    in Hlen1, Hin1, Hlen2, Hin2.
  specialize (Hlen1 ltac:(discriminate)). specialize (Hlen2 ltac:(discriminate)).
  assert (Hcalls : calls w'
                   = (if (List.length primary =? 0)%nat
                      then calls w ++ [SearchByKeywords (Some cat) 5;
                                       SearchByKeywords None 3;
                                       LogAction "articles_retrieved"]
                      else calls w ++ [SearchByKeywords (Some cat) 5;
                                       LogAction "articles_retrieved"])%list).
  { rewrite Hw. destruct (List.length primary =? 0)%nat;
      cbn [calls addAuditLog addCall]; repeat rewrite <- app_assoc; reflexivity. }
  clear Hw.
  split; [split; [exact Hlen1|]|].
  { intros a Ha. destruct (Hin1 a Ha) as (_ & Hst & Hcat). split; [exact Hst|].
    assert (Hcast : cat <> "" -> article_category a = castCategory cat).
    { intros Hne. apply (Hcat cat eq_refl). apply truthy_nonempty. exact Hne. }
    split; [exact Hcast|].
    intros Hin. rewrite <- (castCategory_closed cat Hin). apply Hcast.
    intros ->. cbn [In categories] in Hin.
    repeat (destruct Hin as [Hin|Hin]; [discriminate Hin|]). exact Hin. }
  split; [split; [exact Hlen2|]|].
  { intros a Ha. apply (Hin2 a Ha). }
  destruct primary as [|p ps] eqn:Ep; cbn [List.length Nat.eqb] in Harts, Hcalls.
  - split; [intros Hne; now elim Hne|]. split; [intros _; split; assumption|].
    split; [rewrite Harts; lia|]. intros Hnil. split; [reflexivity | congruence].
  - split; [intros _; split; assumption|]. split; [intros Hnil; discriminate Hnil|].
    split; [rewrite Harts; exact Hlen1|]. intros Hnil. rewrite Harts in Hnil.
    discriminate Hnil.
Qed.

Lemma C6_two_tier_retrieval_witness :
  (exists articles w',
      retrieveRelevantArticles Sample.env Sample.generalTicket "other" "t-1"
                               Sample.freshWorld = (Resolved articles, w') /\
      queryResult Sample.env (ticketText Sample.generalTicket) (primaryOptions "other")
      = [] /\
      articles = [Sample.resetGuide; Sample.billingFaq] /\
      calls w' = [SearchByKeywords (Some "other") 5; SearchByKeywords None 3;
                  LogAction "articles_retrieved"] /\
      List.length articles <= 5) /\
  (exists articles w',
      retrieveRelevantArticles Sample.env Sample.billingTicket " Billing" "t-1"
                               Sample.freshWorld = (Resolved articles, w') /\
      articles = [Sample.billingFaq] /\
      (forall a, In a articles -> article_category a = "billing") /\
      calls w' = [SearchByKeywords (Some " Billing") 5;
                  LogAction "articles_retrieved"]).
Proof.
  split.
  - destruct (retrieveRelevantArticles Sample.env Sample.generalTicket "other" "t-1"
                                       Sample.freshWorld) as [[articles|e] w'] eqn:E;
      [|vm_compute in E; discriminate E].
    pose proof (C6_two_tier_retrieval Sample.env Sample.generalTicket "other" "t-1"
                  Sample.freshWorld articles w' E) as H.
    cbv zeta in H. destruct H as (_ & _ & _ & Hempty & Hlen & _).
    assert (Hp : queryResult Sample.env (ticketText Sample.generalTicket)
                             (primaryOptions "other") = []) by (vm_compute; reflexivity).
    destruct (Hempty Hp) as [Harts Hcalls].
    exists articles, w'. split; [reflexivity|]. split; [exact Hp|].
    split; [rewrite Harts; vm_compute; reflexivity|].
    split; [exact Hcalls | exact Hlen].
  - destruct (retrieveRelevantArticles Sample.env Sample.billingTicket " Billing" "t-1"
                                       Sample.freshWorld) as [[articles|e] w'] eqn:E;
      [|vm_compute in E; discriminate E].
    pose proof (C6_two_tier_retrieval Sample.env Sample.billingTicket " Billing" "t-1"
                  Sample.freshWorld articles w' E) as H.
    cbv zeta in H. destruct H as ((_ & Hprimary) & _ & Hfound & _).
    assert (Hp : queryResult Sample.env (ticketText Sample.billingTicket)
                             (primaryOptions " Billing") = [Sample.billingFaq])
      by (vm_compute; reflexivity).
    destruct Hfound as [Harts Hcalls]; [rewrite Hp; discriminate|].
    exists articles, w'. split; [reflexivity|]. split; [rewrite Harts; exact Hp|].
    split; [|exact Hcalls].
    intros a Ha. rewrite Harts in Ha.
    destruct (Hprimary a Ha) as (_ & Hcat & _).
    rewrite Hcat by discriminate. vm_compute. reflexivity.
Defined.

(* ------------------------------------------------------------------ *)
(** ** The heuristic classifier *)

Lemma text_prefix_append (w s : Text.t) :
  Text.prefix w s = true <-> exists after, s = (w ++ after)%list.
Proof.
  revert s. induction w as [|a w IH]; intros s.
  - cbn [Text.prefix]. split; [intros _; exists s; reflexivity | reflexivity].
  - destruct s as [|b s]; cbn [Text.prefix].
    + split; [intros H; discriminate H | intros [after H]; discriminate H].
    + rewrite andb_true_iff, N.eqb_eq, IH. split.
      * intros [-> [after ->]]. exists after. reflexivity.
      * intros [after H]. cbn [app] in H. inversion H. split; [reflexivity|].
        exists after. reflexivity.
Qed.

Lemma text_includes_occurs (s w : Text.t) :
  Text.includes s w = true <-> Text.Occurs w s.
Proof.
  induction s as [|c s IH]; cbn [Text.includes].
  - destruct (Text.prefix w []) eqn:E.
    + split; [intros _|reflexivity]. apply text_prefix_append in E.
      destruct E as [after E]. exists [], after. exact E.
    + split; [intros H; discriminate H|]. intros (before & after & H).
      destruct before as [|b before]; [|discriminate H].
      cbn [app] in H. assert (E' : Text.prefix w [] = true).
      { apply text_prefix_append. exists after. exact H. }
      congruence.
  - destruct (Text.prefix w (c :: s)) eqn:E.
    + split; [intros _|reflexivity]. apply text_prefix_append in E.
      destruct E as [after E]. exists [], after. exact E.
    + rewrite IH. split.
      * intros (before & after & H). exists (c :: before), after.
        cbn [app]. now rewrite H.
      * intros (before & after & H). destruct before as [|b before].
        -- cbn [app] in H. assert (E' : Text.prefix w (c :: s) = true).
           { apply text_prefix_append. exists after. exact H. }
           congruence.
        -- cbn [app] in H. inversion H. exists before, after. reflexivity.
Qed.

(** A string of the pipeline and the text it stands for have the same
    substrings. *)
Lemma ofString_append (s t : string) :
  Text.ofString (s ++ t) = (Text.ofString s ++ Text.ofString t)%list.
Proof.
  unfold Text.ofString. induction s as [|c s IH]; cbn [append list_ascii_of_string map app].
  - reflexivity.
  - now rewrite IH.
Qed.

Lemma N_of_ascii_eqb (a b : ascii) : (N_of_ascii a =? N_of_ascii b)%N = Ascii.eqb a b.
Proof.
  destruct (Ascii.eqb_spec a b) as [->|Hne]; [apply N.eqb_refl|].
  apply N.eqb_neq. intros H. apply Hne.
  rewrite <- (ascii_N_embedding a), <- (ascii_N_embedding b). now rewrite H.
Qed.

Lemma ofString_prefix (w s : string) :
  Text.prefix (Text.ofString w) (Text.ofString s) = String.prefix w s.
Proof.
  unfold Text.ofString. revert s. induction w as [|a w IH]; intros s.
  - destruct s; reflexivity.
  - destruct s as [|b s]; cbn [list_ascii_of_string map Text.prefix String.prefix];
      [reflexivity|].
    rewrite IH, N_of_ascii_eqb.
    destruct (Ascii.eqb_spec a b) as [->|Hne].
    + destruct (ascii_dec b b) as [_|H]; [reflexivity | now elim H].
    + destruct (ascii_dec a b) as [H|_]; [now elim Hne | reflexivity].
Qed.

Lemma ofString_includes (s w : string) :
  Text.includes (Text.ofString s) (Text.ofString w) = Str.includes s w.
Proof.
  induction s as [|c s IH].
  - cbn [Str.includes]. rewrite <- ofString_prefix.
    change (Text.ofString "") with (@nil Text.CodeUnit). reflexivity.
  - cbn [Str.includes]. rewrite <- ofString_prefix.
    change (Text.ofString (String c s)) with (N_of_ascii c :: Text.ofString s).
    cbn [Text.includes]. rewrite IH. reflexivity.
Qed.

Lemma keywordScore_from (hit : string -> bool) words n :
  fold_left (fun count word => count + (if hit word then 1 else 0)) words n
  = n + List.length (filter hit words).
Proof.
  revert n. induction words as [|word words IH]; intros n; cbn [fold_left filter].
  - cbn [List.length]. lia.
  - rewrite IH. destruct (hit word); cbn [List.length]; lia.
Qed.

Lemma keywordScore_count (hit : string -> bool) words :
  keywordScore hit words = List.length (filter hit words).
Proof. unfold keywordScore. rewrite keywordScore_from. reflexivity. Qed.

(** The classifier reads the text through the keywords only. *)
Lemma classifyBy_ext (hit hit' : string -> bool) :
  (forall word, hit word = hit' word) -> classifyBy hit = classifyBy hit'.
Proof.
  intros H. unfold classifyBy, keywords. cbn [fold_left]. unfold classifyStep.
  cbn [fst snd]. rewrite !keywordScore_count.
  rewrite !(filter_ext hit hit' H). reflexivity.
Qed.

(** What the loop returns, from the counts of the three categories. *)
Lemma classifyBy_counts (hit : string -> bool) :
  let hits := fun words => List.length (filter hit words) in
  let sb := hits billingWords in
  let st := hits techWords in
  let ss := hits shippingWords in
  let result := classifyBy hit in
  (category result = "billing" <-> 0 < sb /\ st <= sb /\ ss <= sb) /\
  (category result = "tech" <-> sb < st /\ ss <= st) /\
  (category result = "shipping" <-> sb < ss /\ st < ss) /\
  (category result = "other" <-> sb = 0 /\ st = 0 /\ ss = 0) /\
  confidence result
  = (if (0 <? Nat.max sb (Nat.max st ss))%nat then Num.lit_0_8 else Num.lit_0_5) /\
  (0 < sb -> st = 0 -> ss = 0 ->
   category result = "billing" /\ confidence result = Num.lit_0_8) /\
  (sb = 0 -> st = 0 -> ss = 0 ->
   category result = "other" /\ confidence result = Num.lit_0_5).
Proof.
  intros hits sb st ss result.
  subst result. unfold classifyBy.
  unfold keywords. cbn [fold_left]. unfold classifyStep. cbn [fst snd].
  rewrite !keywordScore_count. fold (hits billingWords) (hits techWords)
                                    (hits shippingWords).
  fold sb st ss. cbn [category confidence].
  destruct (Nat.ltb_spec 0 sb) as [Hb|Hb]; cbn [fst snd];
    [destruct (Nat.ltb_spec sb st) as [Ht|Ht] | destruct (Nat.ltb_spec 0 st) as [Ht|Ht]];
    cbn [fst snd];
    match goal with
    | |- context [(?a <? ss)%nat] => destruct (Nat.ltb_spec a ss) as [Hs|Hs]
    end; cbn [fst snd];
    match goal with
    | |- context [(0 <? ?a)%nat] =>
        destruct (Nat.ltb_spec 0 a) as [Hp|Hp];
        destruct (Nat.ltb_spec 0 (Nat.max sb (Nat.max st ss))) as [Hm|Hm];
        try lia
    end;
    repeat split; intros; try discriminate; try lia; try reflexivity;
    exfalso; lia.
Qed.

(** C3.  For every title and description, whatever code units they hold,
    the heuristic classifier folds the case of the title, a space and the
    description with the case mapping of the engine; a keyword counts when
    it occurs in that text as a substring; the category returned is the one
    with the highest count, the earlier of billing, tech, shipping on a tie,
    and other when all counts are zero; the confidence is 0.8 when the
    winning count is positive and 0.5 otherwise.  In particular a text with
    a billing keyword and no tech or shipping keyword is billing with 0.8,
    and a text with no keyword is other with 0.5.  A title and a description
    with the same folded text are classified alike, and [stubClassifyCategory]
    is this classifier on the tickets of the pipeline. *)
Theorem C3_keyword_classifier (toLowerCase : Text.t -> Text.t)
        (titleText descriptionText : Text.t) :
  let text := toLowerCase (titleText ++ Text.ofString " " ++ descriptionText)%list in
  let hits := fun words =>
    List.length (filter (fun word => Text.includes text (Text.ofString word)) words) in
  let sb := hits billingWords in
  let st := hits techWords in
  let ss := hits shippingWords in
  let result := classifyText toLowerCase titleText descriptionText in
  (forall word, Text.includes text word = true <-> Text.Occurs word text) /\
  (category result = "billing" <-> 0 < sb /\ st <= sb /\ ss <= sb) /\
  (category result = "tech" <-> sb < st /\ ss <= st) /\
  (category result = "shipping" <-> sb < ss /\ st < ss) /\
  (category result = "other" <-> sb = 0 /\ st = 0 /\ ss = 0) /\
  confidence result
  = (if (0 <? Nat.max sb (Nat.max st ss))%nat then Num.lit_0_8 else Num.lit_0_5) /\
  (0 < sb -> st = 0 -> ss = 0 ->
   category result = "billing" /\ confidence result = Num.lit_0_8) /\
  (sb = 0 -> st = 0 -> ss = 0 ->
   category result = "other" /\ confidence result = Num.lit_0_5) /\
  (forall otherTitle otherDescription,
     toLowerCase (otherTitle ++ Text.ofString " " ++ otherDescription)%list = text ->
     classifyText toLowerCase otherTitle otherDescription = result) /\
  (forall ticket,
     titleText = Text.ofString (title ticket) ->
     descriptionText = Text.ofString (description ticket) ->
     text = Text.ofString (Str.toLowerCase (title ticket ++ " " ++ description ticket)) ->
     stubClassifyCategory ticket = result).
Proof.
  intros text hits sb st ss result.
  split; [intros word; apply text_includes_occurs|].
  pose proof (classifyBy_counts (fun word => Text.includes text (Text.ofString word)))
    as Hcounts.
  cbv zeta in Hcounts. fold hits sb st ss in Hcounts.
  destruct Hcounts as (H1 & H2 & H3 & H4 & H5 & H6 & H7).
  repeat (split; [assumption|]).
  split.
  - intros otherTitle otherDescription Hsame. subst result. unfold classifyText.
    cbv zeta. fold text. rewrite Hsame. reflexivity.
  - intros ticket _ _ Hfold. subst result.
    unfold stubClassifyCategory, classifyText, ticketText. cbv zeta. fold text.
    apply classifyBy_ext. intros word. rewrite Hfold. symmetry.
    apply ofString_includes.
Qed.

Lemma C3_keyword_classifier_witness :
  (category (classifyText Sample.toLowerCase Sample.shoutedTitle
                          (Text.ofString "PLEASE SEND THE BILL")) = "billing" /\
   confidence (classifyText Sample.toLowerCase Sample.shoutedTitle
                            (Text.ofString "PLEASE SEND THE BILL")) = Num.lit_0_8) /\
  (category (classifyText Sample.toLowerCase Sample.kelvinTitle
                          (Text.ofString "Where is it?")) = "shipping") /\
  (classifyText Sample.toLowerCase (Text.ofString "Invoice Question")
                (Text.ofString "please send the bill")
   = classifyText Sample.toLowerCase Sample.shoutedTitle
                  (Text.ofString "PLEASE SEND THE BILL")) /\
  (stubClassifyCategory Sample.billingTicket
   = classifyText Sample.toLowerCase (Text.ofString (title Sample.billingTicket))
                  (Text.ofString (description Sample.billingTicket)) /\
   category (stubClassifyCategory Sample.billingTicket) = "billing") /\
  (category (stubClassifyCategory Sample.generalTicket) = "other" /\
   confidence (stubClassifyCategory Sample.generalTicket) = Num.lit_0_5).
Proof.
  pose proof (C3_keyword_classifier Sample.toLowerCase Sample.shoutedTitle
                (Text.ofString "PLEASE SEND THE BILL")) as Hshout.
  pose proof (C3_keyword_classifier Sample.toLowerCase Sample.kelvinTitle
                (Text.ofString "Where is it?")) as Hkelvin.
  pose proof (C3_keyword_classifier Sample.toLowerCase
                (Text.ofString (title Sample.billingTicket))
                (Text.ofString (description Sample.billingTicket))) as Hbilling.
  pose proof (C3_keyword_classifier Sample.toLowerCase
                (Text.ofString (title Sample.generalTicket))
                (Text.ofString (description Sample.generalTicket))) as Hgeneral.
  cbv zeta in Hshout, Hkelvin, Hbilling, Hgeneral.
  destruct Hshout as (_ & _ & _ & _ & _ & _ & Hshout & _ & Hsame & _).
  destruct Hkelvin as (_ & _ & _ & Hkelvin & _).
  destruct Hbilling as (_ & _ & _ & _ & _ & _ & Hbilling & _ & _ & Hbridge).
  destruct Hgeneral as (_ & _ & _ & _ & _ & _ & _ & Hgeneral & _ & Hbridge').
  split; [apply Hshout; vm_compute; try reflexivity; lia|].
  split; [apply Hkelvin; vm_compute; lia|].
  split; [apply Hsame; vm_compute; reflexivity|].
  split.
  - rewrite (Hbridge Sample.billingTicket eq_refl eq_refl ltac:(vm_compute; reflexivity)).
    split; [reflexivity|]. apply Hbilling; vm_compute; try reflexivity; lia.
  - rewrite (Hbridge' Sample.generalTicket eq_refl eq_refl ltac:(vm_compute; reflexivity)).
    apply Hgeneral; vm_compute; reflexivity.
Defined.

Lemma classifyBy_category hit : In (category (classifyBy hit)) categories.
Proof.
  unfold classifyBy, keywords. cbn [fold_left category].
  unfold classifyStep. cbn [fst snd].
  repeat match goal with
         | |- context [if ?b then _ else _] => destruct b; cbn [fst snd]
         end; cbn [categories In]; tauto.
Qed.

(* ------------------------------------------------------------------ *)
(** ** The heuristic drafter *)

Lemma length_append (s t : string) :
  String.length (s ++ t) = String.length s + String.length t.
Proof. induction s as [|c s IH]; cbn [append String.length]; [reflexivity | now rewrite IH]. Qed.

Lemma length_ofNat_digit n : 1 <= n <= 9 -> String.length (Str.ofNat n) = 1.
Proof.
  intros H.
  do 10 (destruct n as [|n]; [try lia; reflexivity|]). lia.
Qed.

Lemma length_numberedTitles articles index :
  index + List.length articles <= 9 ->
  Forall (fun a => String.length (article_title a) <= 200) articles ->
  String.length (numberedTitles index articles) <= 204 * List.length articles.
Proof.
  revert index. induction articles as [|a articles IH]; intros index Hn Hall.
  - cbn [numberedTitles String.length List.length]. lia.
  - cbn [numberedTitles List.length] in *. inversion Hall as [|? ? Ha Hrest]. subst.
    rewrite !length_append. rewrite length_ofNat_digit by lia.
    specialize (IH (S index) ltac:(lia) Hrest).
    cbn [String.length Str.newline]. lia.
Qed.

Lemma stubClassifyCategory_category ticket :
  In (category (stubClassifyCategory ticket)) categories.
Proof. apply classifyBy_category. Qed.

Lemma length_category cat : In cat categories -> String.length cat <= 8.
Proof.
  cbn [categories In]. intros [H|[H|[H|[H|[]]]]]; subst cat; cbn [String.length]; lia.
Qed.

(** C10.  For a ticket title of at most 200 characters and at most 5
    articles whose titles have at most 200 characters each, the reply that
    [stubGenerateDraftReply] builds for a category of the closed domain, and
    in particular for the category the heuristic classifier returns, is
    shorter than 5000 characters and not empty: the [draftReply] check of
    the suggestion schema accepts it. *)
Theorem C10_stub_reply_fits ticket articles categoryResult :
  String.length (title ticket) <= 200 ->
  List.length articles <= 5 ->
  Forall (fun a => String.length (article_title a) <= 200) articles ->
  In (category categoryResult) categories ->
  let draft := stubGenerateDraftReply ticket articles categoryResult in
  let stubDraft :=
    stubGenerateDraftReply ticket articles (stubClassifyCategory ticket) in
  String.length (reply draft) < 5000 /\
  Str.truthy (reply draft) && (String.length (reply draft) <=? 5000)%nat = true /\
  String.length (reply stubDraft) < 5000.
Proof.
  intros Htitle Hcount Htitles Hcat draft stubDraft.
  assert (Hbound : forall cr, In (category cr) categories ->
            String.length (reply (stubGenerateDraftReply ticket articles cr)) < 5000).
  { intros cr Hcr. unfold stubGenerateDraftReply. cbn [reply].
    pose proof (length_category _ Hcr) as Hc.
    pose proof (length_numberedTitles articles 0 ltac:(lia) Htitles) as Hnum.
    destruct (0 <? List.length articles)%nat;
      rewrite !length_append; cbn [String.length Str.newline Str.quote]; lia. }
  split; [exact (Hbound categoryResult Hcat)|].
  split; [|exact (Hbound _ (stubClassifyCategory_category ticket))].
  apply andb_true_iff. split.
  - subst draft. unfold stubGenerateDraftReply. cbn [reply].
    destruct (0 <? List.length articles)%nat; reflexivity.
  - apply Nat.leb_le. pose proof (Hbound categoryResult Hcat). subst draft. lia.
Qed.

Lemma C10_stub_reply_fits_witness :
  String.length (reply (stubGenerateDraftReply Sample.billingTicket
                          Sample.threeArticles
                          (stubClassifyCategory Sample.billingTicket))) < 5000.
Proof.
  apply (C10_stub_reply_fits Sample.billingTicket Sample.threeArticles
           (stubClassifyCategory Sample.billingTicket)).
  - vm_compute. lia.
  - vm_compute. lia.
  - repeat constructor; vm_compute; lia.
  - vm_compute. tauto.
Defined.

(* ------------------------------------------------------------------ *)
(** ** Binary64 arithmetic *)

Section Binary64.

Local Open Scope Z_scope.

(** *** Signs: the operations of the aggregator keep a number non-negative *)

Lemma leb_zero x : Num.leb Num.zero x = nonNegative x.
Proof. destruct x as [s|s| |s m e]; try destruct s; reflexivity. Qed.

Lemma signed_nonNegative x : signed false x -> nonNegative x = true.
Proof.
  destruct x as [s|s| |s m e]; cbn [signed nonNegative]; intros H;
    try subst s; try reflexivity; contradiction.
Qed.

Lemma iter_pos_invariant {A : Type} (P : A -> Prop) (f : A -> A) :
  (forall x, P x -> P (f x)) -> forall p x, P x -> P (iter_pos f p x).
Proof.
  intros Hf. induction p as [p IH|p IH|]; intros x Hx; cbn [iter_pos]; auto.
Qed.

Lemma shr_1_nonneg mrs : (0 <= shr_m mrs)%Z -> (0 <= shr_m (shr_1 mrs))%Z.
Proof.
  destruct mrs as [m r s]. cbn [shr_m]. intros H.
  destruct m as [|[p|p|]|p]; cbn [shr_1 shr_m]; lia.
Qed.

Lemma shr_nonneg mrs e n : (0 <= shr_m mrs)%Z -> (0 <= shr_m (fst (shr mrs e n)))%Z.
Proof.
  intros H. destruct n as [|p|p]; cbn [shr fst]; try exact H.
  apply iter_pos_invariant; [exact shr_1_nonneg | exact H].
Qed.

Lemma shr_m_of_loc m l : shr_m (shr_record_of_loc m l) = m.
Proof. destruct l as [|[| |]]; reflexivity. Qed.

Lemma round_nearest_even_nonneg m l : (0 <= m)%Z -> (0 <= round_nearest_even m l)%Z.
Proof.
  intros H. destruct l as [|[| |]]; cbn [round_nearest_even]; try lia.
  destruct (Z.even m); lia.
Qed.

Lemma binary_round_aux_signed s m e l :
  (0 <= m)%Z -> signed s (binary_round_aux Num.prec Num.emax s m e l).
Proof.
  intros Hm. unfold binary_round_aux.
  destruct (shr_fexp Num.prec Num.emax m e l) as [mrs1 e1] eqn:E1.
  destruct (shr_fexp Num.prec Num.emax (round_nearest_even (shr_m mrs1) (loc_of_shr_record mrs1)) e1 loc_Exact) as [mrs2 e2] eqn:E2.
  assert (H1 : (0 <= shr_m mrs1)%Z).
  { replace mrs1 with (fst (shr_fexp Num.prec Num.emax m e l)) by now rewrite E1.
    unfold shr_fexp. apply shr_nonneg. now rewrite shr_m_of_loc. }
  assert (H2 : (0 <= shr_m mrs2)%Z).
  { replace mrs2 with (fst (shr_fexp Num.prec Num.emax (round_nearest_even (shr_m mrs1) (loc_of_shr_record mrs1)) e1 loc_Exact)) by now rewrite E2.
    unfold shr_fexp. apply shr_nonneg. rewrite shr_m_of_loc.
    apply round_nearest_even_nonneg. exact H1. }
  destruct (shr_m mrs2) as [|p|p]; cbn [signed]; [reflexivity| |lia].
  destruct (e2 <=? Num.emax - Num.prec)%Z; reflexivity.
Qed.

Lemma nonNegative_cases x :
  nonNegative x = true ->
  (exists s, x = S754_zero s) \/ x = S754_infinity false
  \/ exists m e, x = S754_finite false m e.
Proof.
  destruct x as [s|[|]| |[|] m e]; cbn [nonNegative negb]; intros H;
    try discriminate H; eauto.
Qed.

Lemma mul_nonNegative x m e :
  nonNegative x = true -> nonNegative (Num.mul x (S754_finite false m e)) = true.
Proof.
  intros H. destruct (nonNegative_cases x H) as [[s ->]|[->|(mx & ex & ->)]];
    unfold Num.mul; cbn [SFmul xorb]; try reflexivity.
  apply signed_nonNegative, binary_round_aux_signed. lia.
Qed.

Lemma add_nonNegative x y :
  nonNegative x = true -> nonNegative y = true -> nonNegative (Num.add x y) = true.
Proof.
  intros Hx Hy.
  destruct (nonNegative_cases x Hx) as [[sx ->]|[->|(mx & ex & ->)]];
    destruct (nonNegative_cases y Hy) as [[sy ->]|[->|(my & ey & ->)]];
    unfold Num.add; cbn [SFadd]; try reflexivity.
  - destruct sx, sy; reflexivity.
  - cbn [cond_Zopp Z.add binary_normalize]. unfold binary_round.
    destruct (shl_align _ _ _) as [mz ez].
    apply signed_nonNegative, binary_round_aux_signed. lia.
Qed.

Lemma div_nonNegative x m e :
  nonNegative x = true -> nonNegative (Num.div x (S754_finite false m e)) = true.
Proof.
  intros H. destruct (nonNegative_cases x H) as [[s ->]|[->|(mx & ex & ->)]];
    unfold Num.div; cbn [SFdiv xorb]; try reflexivity.
  unfold SFdiv_core_binary.
  match goal with
  | |- context [Z.div_eucl ?a ?b] =>
      assert (Hq : (0 <= fst (Z.div_eucl a b))%Z);
      [ change (fst (Z.div_eucl a b)) with (a / b)%Z; apply Z.div_pos; [|lia]
      | destruct (Z.div_eucl a b) as [q r] ]
  end.
  - match goal with
    | |- (0 <= match ?s with _ => _ end)%Z => destruct s; try lia
    end.
    apply Z.shiftl_nonneg. lia.
  - cbn [fst] in Hq. apply signed_nonNegative, binary_round_aux_signed. exact Hq.
Qed.

Lemma ofNat_nonNegative n : nonNegative (Num.ofNat n) = true.
Proof.
  unfold Num.ofNat, Num.ofZ. destruct (Z.of_nat n) as [|p|p] eqn:E;
    cbn [binary_normalize]; [reflexivity| |lia].
  unfold binary_round. destruct (shl_align _ _ _) as [mz ez].
  apply signed_nonNegative, binary_round_aux_signed. lia.
Qed.

Lemma Math_min_one x :
  nonNegative x = true ->
  nonNegative (Num.Math_min x Num.one) = true /\
  Num.leb (Num.Math_min x Num.one) Num.one = true.
Proof.
  intros H. unfold Num.Math_min, Num.leb, SFleb.
  destruct (nonNegative_cases x H) as [[s ->]|[->|(m & e & ->)]].
  - destruct s; split; reflexivity.
  - split; reflexivity.
  - destruct (SFcompare (S754_finite false m e) Num.one) as [[| |]|] eqn:E.
    + split; reflexivity.
    + rewrite E. split; reflexivity.
    + split; reflexivity.
    + discriminate E.
Qed.

(** The aggregate is in the unit interval as soon as the classifier
    confidence is not negative. *)
Lemma inUnit_calculateOverallConfidence categoryResult draftResult articles :
  Num.leb Num.zero (confidence categoryResult) = true ->
  Num.inUnit (calculateOverallConfidence categoryResult draftResult articles).
Proof.
  rewrite leb_zero. intros Hc. unfold calculateOverallConfidence, Num.inUnit.
  cbv zeta. rewrite leb_zero. apply Math_min_one.
  repeat first
    [ apply add_nonNegative
    | apply (mul_nonNegative _ 5404319552844595 (-54))
    | apply (mul_nonNegative _ 7205759403792794 (-54))
    | apply Math_min_one
    | apply (div_nonNegative _ 6755399441055744 (-51))
    | apply (div_nonNegative _ 8796093022208000 (-44))
    | apply ofNat_nonNegative
    | exact Hc ].
Qed.

(** *** Normal numbers: mantissas of 53 bits *)

Lemma loc_of_shr_record_of_loc m l : loc_of_shr_record (shr_record_of_loc m l) = l.
Proof. destruct l as [|[| |]]; reflexivity. Qed.

Lemma digits2_pos_log2 p : Zpos (digits2_pos p) = Z.log2 (Zpos p) + 1.
Proof.
  induction p as [p IH|p IH|]; cbn [digits2_pos]; try reflexivity.
  - rewrite Pos2Z.inj_succ, IH, Pos2Z.inj_xI.
    rewrite (Z.log2_succ_double (Zpos p)) by lia. reflexivity.
  - rewrite Pos2Z.inj_succ, IH, Pos2Z.inj_xO.
    rewrite (Z.log2_double (Zpos p)) by lia. reflexivity.
Qed.

Lemma digits_of_bounds p d :
  1 <= d -> 2 ^ (d - 1) <= Zpos p < 2 ^ d -> Zpos (digits2_pos p) = d.
Proof.
  intros Hd H. rewrite digits2_pos_log2.
  rewrite (Z.log2_unique (Zpos p) (d - 1)); [lia|lia|].
  replace (Z.succ (d - 1)) with d by lia. exact H.
Qed.

Lemma digits_53 p : two52 <= Zpos p < two53 -> Zpos (digits2_pos p) = 53.
Proof. intros H. apply digits_of_bounds; [lia|]. exact H. Qed.

Lemma digits_54 p : two53 <= Zpos p < two54 -> Zpos (digits2_pos p) = 54.
Proof. intros H. apply digits_of_bounds; [lia|]. exact H. Qed.

Lemma shr_fexp_53 p e l :
  two52 <= Zpos p < two53 -> -1074 <= e ->
  shr_fexp Num.prec Num.emax (Zpos p) e l = (shr_record_of_loc (Zpos p) l, e).
Proof.
  intros Hp He. unfold shr_fexp. cbn [Zdigits2]. rewrite (digits_53 p Hp).
  unfold fexp, emin, Num.prec, Num.emax.
  replace (Z.max (53 + e - 53) (3 - 1024 - 53) - e) with 0 by lia.
  reflexivity.
Qed.

Lemma shr_fexp_54 p e l :
  two53 <= Zpos p < two54 -> -1075 <= e ->
  shr_fexp Num.prec Num.emax (Zpos p) e l
  = (shr_1 (shr_record_of_loc (Zpos p) l), e + 1).
Proof.
  intros Hp He. unfold shr_fexp. cbn [Zdigits2]. rewrite (digits_54 p Hp).
  unfold fexp, emin, Num.prec, Num.emax.
  replace (Z.max (54 + e - 53) (3 - 1024 - 53) - e) with 1 by lia.
  reflexivity.
Qed.

Lemma round_nearest_even_range m l :
  m <= round_nearest_even m l <= m + 1.
Proof.
  destruct l as [|[| |]]; cbn [round_nearest_even]; try lia.
  destruct (Z.even m); lia.
Qed.

Lemma shr_m_shr_1 mrs :
  0 <= shr_m mrs -> shr_m (shr_1 mrs) = shr_m mrs / 2.
Proof.
  destruct mrs as [m r s]. cbn [shr_m]. intros H.
  destruct m as [|[p|p|]|p]; cbn [shr_1 shr_m]; try reflexivity; try lia.
  - rewrite Pos2Z.inj_xI. apply (Z.div_unique _ _ _ 1); lia.
  - rewrite Pos2Z.inj_xO. apply (Z.div_unique _ _ _ 0); lia.
Qed.

Lemma round_exact s p e :
  two52 <= Zpos p < two53 -> -1074 <= e <= 970 ->
  binary_round_aux Num.prec Num.emax s (Zpos p) e loc_Exact = S754_finite s p e.
Proof.
  intros Hp He. unfold binary_round_aux.
  rewrite shr_fexp_53 by lia. cbn [shr_record_of_loc shr_m loc_of_shr_record
                                     round_nearest_even].
  rewrite shr_fexp_53 by lia. cbn [shr_record_of_loc shr_m].
  replace (e <=? Num.emax - Num.prec) with true
    by (symmetry; apply Z.leb_le; unfold Num.emax, Num.prec; lia).
  reflexivity.
Qed.

Lemma iter_xO p k : Zpos (Pos.iter xO p k) = Zpos p * 2 ^ Zpos k.
Proof.
  induction k as [|k IH] using Pos.peano_ind.
  - cbn [Pos.iter]. rewrite Pos2Z.inj_xO. lia.
  - rewrite Pos.iter_succ, Pos2Z.inj_xO, IH, Pos2Z.inj_succ, Z.pow_succ_r by lia.
    lia.
Qed.

Lemma digits_range p :
  1 <= Zpos (digits2_pos p) /\
  2 ^ (Zpos (digits2_pos p) - 1) <= Zpos p < 2 ^ Zpos (digits2_pos p).
Proof.
  rewrite digits2_pos_log2. pose proof (Z.log2_nonneg (Zpos p)) as H0.
  pose proof (Z.log2_spec (Zpos p) ltac:(lia)) as H.
  replace (Z.log2 (Zpos p) + 1 - 1) with (Z.log2 (Zpos p)) by lia.
  replace (Z.log2 (Zpos p) + 1) with (Z.succ (Z.log2 (Zpos p))) by lia.
  split; [lia | exact H].
Qed.

(** An integer below 2^53 is a double: its conversion is exact and
    normalised. *)
Lemma ofZ_normal n :
  0 < n < two53 ->
  exists m e,
    Num.ofZ n = S754_finite false m e /\
    two52 <= Zpos m < two53 /\ -52 <= e <= 0 /\ Zpos m = n * 2 ^ (- e).
Proof.
  intros Hn. destruct n as [|p|p]; try lia.
  destruct (digits_range p) as [Hd1 Hd].
  set (d := Zpos (digits2_pos p)) in *.
  assert (Hd53 : d <= 53).
  { destruct (Z_le_gt_dec d 53) as [H|H]; [exact H|].
    assert (2 ^ 53 <= 2 ^ (d - 1)) by (apply Z.pow_le_mono_r; lia).
    unfold two53 in Hn. change (2 ^ 53) with 9007199254740992 in *. lia. }
  unfold Num.ofZ. cbn [binary_normalize]. unfold binary_round.
  fold d. unfold fexp, emin, Num.prec, Num.emax.
  replace (Z.max (d + 0 - 53) (3 - 1024 - 53)) with (d - 53) by lia.
  unfold shl_align.
  destruct (d - 53 - 0) as [|k|k] eqn:Ek; try lia.
  - assert (d = 53) by lia.
    exists p, 0. rewrite round_exact;
      [|rewrite H in Hd; exact Hd | lia].
    split; [reflexivity|]. split; [rewrite H in Hd; exact Hd|]. split; [lia|].
    cbn [Z.opp Z.pow]. lia.
  - assert (Hk : Zpos k = 53 - d) by lia.
    assert (Hpow : 2 ^ (d - 1) * 2 ^ Zpos k = two52).
    { rewrite <- Z.pow_add_r by lia. replace (d - 1 + Zpos k) with 52 by lia.
      reflexivity. }
    assert (Hpow' : 2 ^ d * 2 ^ Zpos k = two53).
    { rewrite <- Z.pow_add_r by lia. replace (d + Zpos k) with 53 by lia.
      reflexivity. }
    assert (Hpos : 0 < 2 ^ Zpos k) by (apply Z.pow_pos_nonneg; lia).
    assert (Hb : two52 <= Zpos (Pos.iter xO p k) < two53).
    { rewrite iter_xO. rewrite <- Hpow, <- Hpow'. split.
      - apply Z.mul_le_mono_nonneg_r; lia.
      - apply Z.mul_lt_mono_pos_r; lia. }
    exists (Pos.iter xO p k), (d - 53).
    rewrite round_exact by (try exact Hb; lia).
    split; [reflexivity|]. split; [exact Hb|]. split; [lia|].
    rewrite iter_xO. replace (- (d - 53)) with (Zpos k) by lia. reflexivity.
Qed.

(** *** Saturation: [Math.min(n / k, 1)] is 1 as soon as [n >= k] *)

Lemma Math_min_atLeastOne x : atLeastOne x -> Num.Math_min x Num.one = Num.one.
Proof.
  intros [->|(M & E & -> & HM & HE)]; [reflexivity|].
  unfold Num.Math_min, Num.one. cbn [SFcompare].
  destruct (Z.compare_spec E (-52)) as [Heq|Hlt|Hgt]; try reflexivity; [|lia].
  destruct (Pos.compare_cont Eq M 4503599627370496) eqn:Ec; try reflexivity.
  exfalso. assert (Hlt : (M < 4503599627370496)%positive) by exact Ec.
  apply Pos2Z.pos_lt_pos in Hlt. unfold two52 in HM. clear - HM Hlt. lia.
Qed.

(** The last step of a rounding, on a mantissa of 53 bits or on 2^53. *)
Lemma round_finish_any s m1 e :
  two52 <= m1 <= two53 -> -1074 <= e ->
  roundsFrom s e
    (let '(mrs, e') := shr_fexp Num.prec Num.emax m1 e loc_Exact in
     match shr_m mrs with
     | Z0 => S754_zero s
     | Zpos m => if e' <=? Num.emax - Num.prec then S754_finite s m e'
                 else S754_infinity s
     | Zneg _ => S754_nan
     end).
Proof.
  intros Hm He. destruct (Z.eq_dec m1 two53) as [->|Hne].
  - change two53 with (Zpos 9007199254740992).
    rewrite shr_fexp_54 by (unfold two53, two54; lia).
    cbn [shr_record_of_loc shr_1 shr_m].
    destruct (e + 1 <=? Num.emax - Num.prec); [right | left; reflexivity].
    exists 4503599627370496%positive, (e + 1).
    split; [reflexivity|]. unfold two52, two53. lia.
  - destruct m1 as [|p|p]; try (unfold two52 in Hm; lia).
    rewrite shr_fexp_53 by lia. cbn [shr_record_of_loc shr_m].
    destruct (e <=? Num.emax - Num.prec); [right | left; reflexivity].
    exists p, e. split; [reflexivity|]. lia.
Qed.

Lemma roundsFrom_weaken s e e' x : e' <= e -> roundsFrom s e x -> roundsFrom s e' x.
Proof.
  intros He [->|(M & E & -> & HM & HE)]; [left; reflexivity | right].
  exists M, E. split; [reflexivity|]. split; [exact HM | lia].
Qed.

(** Rounding a mantissa of 53 or 54 bits. *)
Lemma round_aux_any s q e l :
  two52 <= Zpos q < two54 -> -1074 <= e ->
  roundsFrom s (if two53 <=? Zpos q then e + 1 else e)
             (binary_round_aux Num.prec Num.emax s (Zpos q) e l).
Proof.
  intros Hq He. unfold binary_round_aux.
  destruct (Z.leb_spec two53 (Zpos q)) as [Hge|Hlt].
  - rewrite shr_fexp_54 by lia.
    set (mrs := shr_1 (shr_record_of_loc (Zpos q) l)).
    assert (Hm : shr_m mrs = Zpos q / 2).
    { subst mrs. rewrite shr_m_shr_1; rewrite shr_m_of_loc; [reflexivity | lia]. }
    assert (Hb : two52 <= shr_m mrs < two53).
    { rewrite Hm. unfold two52, two53, two54 in *. split.
      - apply Z.div_le_lower_bound; lia.
      - apply Z.div_lt_upper_bound; lia. }
    pose proof (round_nearest_even_range (shr_m mrs) (loc_of_shr_record mrs)) as Hr.
    apply round_finish_any; [unfold two52, two53 in *; lia | lia].
  - rewrite shr_fexp_53 by lia.
    rewrite shr_m_of_loc, loc_of_shr_record_of_loc.
    pose proof (round_nearest_even_range (Zpos q) l) as Hr.
    apply round_finish_any; [unfold two52, two53 in *; lia | lia].
Qed.

Lemma shr_m_iter k mrs :
  0 <= shr_m mrs ->
  0 <= shr_m (iter_pos shr_1 k mrs) /\
  shr_m (iter_pos shr_1 k mrs) = shr_m mrs / 2 ^ Zpos k.
Proof.
  revert mrs. induction k as [k IH|k IH|]; intros mrs H; cbn [iter_pos].
  - pose proof (shr_1_nonneg mrs H) as H1.
    destruct (IH (shr_1 mrs) H1) as [H2 E2].
    destruct (IH _ H2) as [H3 E3].
    split; [exact H3|]. rewrite E3, E2, shr_m_shr_1 by exact H.
    assert (Hp : 0 < 2 ^ Zpos k) by (apply Z.pow_pos_nonneg; lia).
    rewrite !Z.div_div by lia.
    f_equal. rewrite Pos2Z.inj_xI.
    replace (2 * Zpos k + 1) with (1 + Zpos k + Zpos k) by lia.
    rewrite !Z.pow_add_r by lia. change (2 ^ 1) with 2. lia.
  - destruct (IH mrs H) as [H2 E2]. destruct (IH _ H2) as [H3 E3].
    split; [exact H3|]. rewrite E3, E2.
    assert (Hp : 0 < 2 ^ Zpos k) by (apply Z.pow_pos_nonneg; lia).
    rewrite Z.div_div by lia. f_equal.
    change (Zpos k~0) with (2 * Zpos k).
    replace (2 * Zpos k) with (Zpos k + Zpos k) by lia.
    rewrite Z.pow_add_r by lia. reflexivity.
  - split; [apply shr_1_nonneg; exact H|]. rewrite shr_m_shr_1 by exact H. reflexivity.
Qed.

(** An integer from 2^53 on is rounded to a normal number of positive
    exponent, or overflows. *)
Lemma ofZ_big n : two53 <= n -> roundsFrom false 1 (Num.ofZ n).
Proof.
  intros Hn. destruct n as [|p|p]; try (unfold two53 in Hn; lia).
  destruct (digits_range p) as [Hd1 Hd].
  set (d := Zpos (digits2_pos p)) in *.
  assert (Hd54 : 54 <= d).
  { destruct (Z_le_gt_dec 54 d) as [H|H]; [exact H|].
    assert (2 ^ d <= 2 ^ 53) by (apply Z.pow_le_mono_r; lia).
    change (2 ^ 53) with two53 in *. lia. }
  unfold Num.ofZ. cbn [binary_normalize]. unfold binary_round.
  fold d. unfold fexp, emin, Num.prec, Num.emax.
  replace (Z.max (d + 0 - 53) (3 - 1024 - 53)) with (d - 53) by lia.
  unfold shl_align.
  destruct (d - 53 - 0) as [|k|k] eqn:Ek; try lia.
  unfold binary_round_aux, shr_fexp. cbn [Zdigits2]. fold d.
  unfold fexp, emin.
  replace (Z.max (d + 0 - 53) (3 - 1024 - 53) - 0) with (Zpos k) by lia.
  cbn [shr shr_record_of_loc].
  set (mrs := iter_pos shr_1 k {| shr_m := Zpos p; shr_r := false; shr_s := false |}).
  destruct (shr_m_iter k {| shr_m := Zpos p; shr_r := false; shr_s := false |})
    as [Hnn Hm]; [cbn [shr_m]; lia|].
  fold mrs in Hnn, Hm. cbn [shr_m] in Hm.
  assert (Hpow : 2 ^ Zpos k * 2 ^ 52 = 2 ^ (d - 1)).
  { rewrite <- Z.pow_add_r by lia. f_equal. lia. }
  assert (Hpow' : 2 ^ Zpos k * 2 ^ 53 = 2 ^ d).
  { rewrite <- Z.pow_add_r by lia. f_equal. lia. }
  assert (Hpos : 0 < 2 ^ Zpos k) by (apply Z.pow_pos_nonneg; lia).
  assert (Hb : two52 <= shr_m mrs < two53).
  { rewrite Hm. split.
    - apply Z.div_le_lower_bound; [exact Hpos|].
      change two52 with (2 ^ 52). rewrite Hpow. apply Hd.
    - apply Z.div_lt_upper_bound; [exact Hpos|].
      change two53 with (2 ^ 53). rewrite Hpow'. apply Hd. }
  pose proof (round_nearest_even_range (shr_m mrs) (loc_of_shr_record mrs)) as Hr.
  apply (roundsFrom_weaken false (0 + Zpos k)); [lia|].
  apply round_finish_any; [unfold two52, two53 in *; lia | lia].
Qed.

(** A quotient of two normal numbers, the first at least as large as the
    second, does not fall below one. *)
Lemma div_normal_atLeastOne m1 e1 m2 e2 :
  two52 <= Zpos m1 < two53 -> two52 <= Zpos m2 < two53 ->
  -52 <= e2 <= 0 ->
  e2 < e1 \/ (e1 = e2 /\ Zpos m2 <= Zpos m1) ->
  atLeastOne (Num.div (S754_finite false m1 e1) (S754_finite false m2 e2)).
Proof.
  intros H1 H2 He2 Hord.
  assert (He1 : -52 <= e1) by lia.
  unfold Num.div. cbn [SFdiv xorb]. unfold SFdiv_core_binary. cbn [Zdigits2].
  rewrite (digits_53 m1 H1), (digits_53 m2 H2).
  unfold fexp, emin, Num.prec, Num.emax.
  replace (Z.min (Z.max (53 + e1 - (53 + e2) - 53) (3 - 1024 - 53)) (e1 - e2))
    with (e1 - e2 - 53) by lia.
  replace (e1 - e2 - (e1 - e2 - 53)) with 53 by lia.
  rewrite Z.shiftl_mul_pow2 by lia. change (2 ^ 53) with two53.
  pose proof (Z_div_mod (Zpos m1 * two53) (Zpos m2) ltac:(lia)) as Hdiv.
  destruct (Z.div_eucl (Zpos m1 * two53) (Zpos m2)) as [q r].
  destruct Hdiv as [Hq Hr].
  assert (Hqd : q = Zpos m1 * two53 / Zpos m2).
  { apply (Z.div_unique _ _ _ r); [left; exact Hr | exact Hq]. }
  assert (Hlow : two52 <= q).
  { rewrite Hqd. apply Z.div_le_lower_bound; [lia|].
    unfold two52, two53 in *. lia. }
  assert (Hhigh : q < two54).
  { rewrite Hqd. apply Z.div_lt_upper_bound; [lia|].
    unfold two52, two53, two54 in *. lia. }
  assert (Hbig : Zpos m2 <= Zpos m1 -> two53 <= q).
  { intros Hle. rewrite Hqd. apply Z.div_le_lower_bound; [lia|].
    unfold two53. lia. }
  clear Hq Hr Hqd.
  destruct q as [|q|q]; try (unfold two52 in Hlow; lia).
  pose proof (round_aux_any false q (e1 - e2 - 53) (new_location (Zpos m2) r)
                ltac:(lia) ltac:(lia)) as Hround.
  change Num.prec with 53 in Hround. change Num.emax with 1024 in Hround.
  destruct Hround as [Hinf|(M & E & Heq & HM & HE)]; [left; exact Hinf | right].
  exists M, E. split; [exact Heq|]. split; [exact HM|].
  destruct (Z.leb_spec two53 (Zpos q)) as [Hge|Hlt]; [lia|].
  destruct Hord as [H|[H H']]; [lia | specialize (Hbig H'); lia].
Qed.

Lemma div_atLeastOne n k :
  0 < k <= n -> k < two53 -> atLeastOne (Num.div (Num.ofZ n) (Num.ofZ k)).
Proof.
  intros Hk Hkb.
  destruct (ofZ_normal k ltac:(lia)) as (m2 & e2 & -> & Hm2 & He2 & Hv2).
  destruct (Z_lt_le_dec n two53) as [Hn|Hn].
  - destruct (ofZ_normal n ltac:(lia)) as (m1 & e1 & -> & Hm1 & He1 & Hv1).
    apply div_normal_atLeastOne; try assumption.
    destruct (Z_lt_le_dec e2 e1) as [Hlt|Hle]; [left; exact Hlt | right].
    assert (Hpos2 : 0 < 2 ^ (- e2)) by (apply Z.pow_pos_nonneg; lia).
    destruct (Z.eq_dec e1 e2) as [->|Hne].
    + split; [reflexivity|]. rewrite Hv1, Hv2. apply Z.mul_le_mono_nonneg_r; lia.
    + exfalso.
      assert (Hsplit : 2 ^ (- e1) = 2 ^ (- e2) * 2 ^ (e2 - e1)).
      { rewrite <- Z.pow_add_r by lia. f_equal. lia. }
      assert (H2 : 2 ^ 1 <= 2 ^ (e2 - e1)) by (apply Z.pow_le_mono_r; lia).
      change (2 ^ 1) with 2 in H2.
      assert (Hkm : k * 2 ^ (- e2) <= n * 2 ^ (- e2))
        by (apply Z.mul_le_mono_nonneg_r; lia).
      assert (Hdouble : n * 2 ^ (- e2) * 2 <= n * 2 ^ (- e2) * 2 ^ (e2 - e1))
        by (apply Z.mul_le_mono_nonneg_l; lia).
      rewrite Hsplit, Z.mul_assoc in Hv1.
      unfold two52, two53 in *. lia.
  - destruct (ofZ_big n Hn) as [->|(m1 & e1 & -> & Hm1 & He1)].
    + left. reflexivity.
    + apply div_normal_atLeastOne; try assumption. left. lia.
Qed.

Lemma saturates_any n k :
  0 < k <= n -> k < two53 ->
  Num.Math_min (Num.div (Num.ofZ n) (Num.ofZ k)) Num.one = Num.one.
Proof. intros Hk Hkb. apply Math_min_atLeastOne, div_atLeastOne; assumption. Qed.

Lemma mul_comm x y : Num.mul x y = Num.mul y x.
Proof.
  unfold Num.mul.
  destruct x as [sx|sx| |sx mx ex], y as [sy|sy| |sy my ey]; cbn [SFmul];
    try reflexivity; try (f_equal; apply xorb_comm).
  rewrite (xorb_comm sx sy), (Pos.mul_comm mx my), (Z.add_comm ex ey). reflexivity.
Qed.

Lemma ofNat_saturates n k :
  (0 < k)%Z -> (k < two53)%Z -> (k <= Z.of_nat n)%Z ->
  Num.Math_min (Num.div (Num.ofNat n) (Num.ofZ k)) Num.one = Num.one.
Proof.
  intros Hk Hb Hn. unfold Num.ofNat. apply saturates_any; [lia | exact Hb].
Qed.

End Binary64.

(* ------------------------------------------------------------------ *)
(** ** The confidence aggregator *)

(** The hosted classifier hands over a NaN when the model's answer has no
    usable confidence: the clamp keeps it. *)
Example classifyCategory_unsure :
  fst (classifyCategory Sample.vagueEnv Sample.billingTicket "t-1" Sample.freshWorld)
  = Resolved Sample.unsure.
Proof. vm_compute. reflexivity. Qed.

(** C4, the claim refuted on an input: with a classifier confidence of 0.8,
    three articles and a reply of 500 characters the aggregate is not the
    double 0.92 but the next one, 0.9200000000000002: each of the three
    products and two sums is rounded. *)
Lemma C4_counterexample :
  calculateOverallConfidence Sample.confident Sample.longDraft Sample.threeArticles
  = Num.after_0_92 /\
  SFeqb (calculateOverallConfidence Sample.confident Sample.longDraft Sample.threeArticles)
        Num.lit_0_92 = false.
Proof. split; vm_compute; reflexivity. Qed.

(** C4, amended.  [calculateOverallConfidence] returns
    0.4 x confidence + 0.3 x min(count / 3, 1) + 0.3 x min(length / 500, 1),
    capped at 1, every operation being the binary64 one; with a confidence
    of 0.8, at least 3 articles and a reply of at least 500 characters the
    result is the double that follows 0.92, that is 0.9200000000000002. *)
Theorem C4_weighted_confidence categoryResult draftResult articles :
  let count := List.length articles in
  let replyLength := String.length (reply draftResult) in
  calculateOverallConfidence categoryResult draftResult articles
  = Num.Math_min
      (Num.add
         (Num.add
            (Num.mul Num.lit_0_4 (confidence categoryResult))
            (Num.mul Num.lit_0_3
               (Num.Math_min (Num.div (Num.ofNat count) Num.three) Num.one)))
         (Num.mul Num.lit_0_3
            (Num.Math_min (Num.div (Num.ofNat replyLength) Num.fiveHundred) Num.one)))
      Num.one /\
  (confidence categoryResult = Num.lit_0_8 -> 3 <= count -> 500 <= replyLength ->
   calculateOverallConfidence categoryResult draftResult articles = Num.after_0_92).
Proof.
  intros count replyLength. unfold calculateOverallConfidence. cbv zeta.
  fold count replyLength. split.
  - rewrite (mul_comm Num.lit_0_4), !(mul_comm Num.lit_0_3). reflexivity.
  - intros Hc Hn Hl. rewrite Hc.
    change Num.three with (Num.ofZ 3). change Num.fiveHundred with (Num.ofZ 500).
    rewrite (ofNat_saturates count 3) by (unfold two53; lia).
    rewrite (ofNat_saturates replyLength 500) by (unfold two53; lia).
    vm_compute. reflexivity.
Qed.

Lemma C4_weighted_confidence_witness :
  calculateOverallConfidence Sample.confident Sample.longDraft Sample.threeArticles
  = Num.after_0_92.
Proof.
  apply (C4_weighted_confidence Sample.confident Sample.longDraft
           Sample.threeArticles).
  - reflexivity.
  - vm_compute. lia.
  - apply Nat.leb_le. vm_compute. reflexivity.
Defined.

(** C5, the claim refuted on two inputs: a negative classifier confidence
    gives a negative aggregate (the result is only capped from above), and a
    NaN classifier confidence gives a NaN aggregate. *)
Lemma C5_counterexample :
  ~ Num.inUnit (calculateOverallConfidence
Sample.negative Sample.emptyDraft []) /\
  ~ Num.inUnit (calculateOverallConfidence
Sample.unsure Sample.emptyDraft []).
Proof.
  split; intros [H _]; vm_compute in H; discriminate H.
Qed.

(** C5, amended.  For every classifier confidence that is a number not
    below zero, every list of articles and every reply, the empty ones
    included, the aggregate confidence lies in [[0,1]]. *)
Theorem C5_confidence_bounds categoryResult draftResult articles :
  Num.leb Num.zero (confidence categoryResult) = true ->
  Num.inUnit (calculateOverallConfidence categoryResult draftResult articles).
Proof. apply inUnit_calculateOverallConfidence. Qed.

Lemma C5_confidence_bounds_witness :
  Num.inUnit (calculateOverallConfidence Sample.confident Sample.emptyDraft []).
Proof.
  apply (C5_confidence_bounds Sample.confident Sample.emptyDraft []).
  vm_compute. reflexivity.
Defined.

(* ------------------------------------------------------------------ *)
(** ** Runs of the pipeline, whatever their outcome *)

Section Preserves.

Variable R : World -> World -> Prop.
Hypothesis R_refl : forall w, R w w.
Hypothesis R_trans : forall a b c, R a b -> R b c -> R a c.
Hypothesis R_call : forall c w, R w (addCall c w).

Lemma preserves_ret {A : Type} (a : A) : preserves R (ret a).
Proof. intros w o w' H. inversion H. apply R_refl. Qed.

Lemma preserves_raise {A : Type} (e : Error) : preserves R (@raise A e).
Proof. intros w o w' H. inversion H. apply R_refl. Qed.

Lemma preserves_bind {A B : Type} (m : M A) (k : A -> M B) :
  preserves R m -> (forall a, preserves R (k a)) -> preserves R (bind m k).
Proof.
  intros Hm Hk w o w'. unfold bind.
  destruct (m w) as [[a|e] w1] eqn:E; intros H.
  - exact (R_trans _ _ _ (Hm _ _ _ E) (Hk a _ _ _ H)).
  - inversion H; subst. exact (Hm _ _ _ E).
Qed.

Lemma preserves_bind_result {A B : Type} (m : M A) (k : A -> M B) :
  preserves R m ->
  (forall w a w1, m w = (Resolved a, w1) -> preserves R (k a)) ->
  preserves R (bind m k).
Proof.
  intros Hm Hk w o w'. unfold bind.
  destruct (m w) as [[a|e] w1] eqn:E; intros H.
  - exact (R_trans _ _ _ (Hm _ _ _ E) (Hk _ _ _ E _ _ _ H)).
  - inversion H; subst. exact (Hm _ _ _ E).
Qed.

Lemma preserves_tryCatch {A : Type} (body : M A) handler :
  preserves R body -> (forall e, preserves R (handler e)) ->
  preserves R (tryCatch body handler).
Proof.
  intros Hb Hh w o w'. unfold tryCatch.
  destruct (body w) as [[a|e] w1] eqn:E; intros H.
  - inversion H; subst. exact (Hb _ _ _ E).
  - exact (R_trans _ _ _ (Hb _ _ _ E) (Hh e _ _ _ H)).
Qed.

Lemma preserves_mark c : preserves R (mark c).
Proof. intros w o w' H. inversion H. apply R_call. Qed.

Lemma preserves_getWorld : preserves R getWorld.
Proof. intros w o w' H. inversion H. apply R_refl. Qed.

Lemma preserves_validate model checks : preserves R (validate model checks).
Proof.
  unfold validate.
  destruct (failingPaths checks); [apply preserves_ret | apply preserves_raise].
Qed.

Lemma preserves_driver env0 : preserves R (driver env0).
Proof.
  intros w o w'. unfold driver.
  destruct (outage env0 (List.length (calls w))); intros H; inversion H; apply R_refl.
Qed.

(** What is left to show for the pipeline once the three writes to the
    database are known to respect [R]. *)
Variable env : Env.
Variable ticket : Ticket.

Hypothesis R_logAction : forall data,
  log_ticketId data = ticket_id ticket -> log_traceId data = uuidv4 env ->
  actor data = "system" ->
  In (action data)
     ["category_predicted"; "articles_retrieved"; "auto_closed"; "reply_drafted"] ->
  preserves R (logAction env data).
Hypothesis R_create : forall doc,
  sug_ticketId doc = ticket_id ticket -> preserves R (AgentSuggestion_create env doc).
Hypothesis R_save : forall doc,
  sug_ticketId doc = ticket_id ticket -> preserves R (AgentSuggestion_save env doc).
Hypothesis R_getConfig : preserves R (getConfig env).

Lemma preserves_searchByKeywords keywords options :
  preserves R (searchByKeywords env keywords options).
Proof.
  unfold searchByKeywords.
  apply preserves_bind; [apply preserves_mark | intros _].
  apply preserves_bind; [apply preserves_driver | intros _].
  destruct (Str.truthy keywords && Str.blank keywords);
    [apply preserves_raise | apply preserves_ret].
Qed.

Lemma preserves_classifyCategory traceId :
  preserves R (classifyCategory env ticket traceId).
Proof.
  unfold classifyCategory.
  apply preserves_bind; [apply preserves_mark | intros _].
  destruct (activeModel env) as [engine|]; [|apply preserves_ret].
  destruct (askCategory engine ticket); apply preserves_ret.
Qed.

Lemma preserves_generateDraftReply articles categoryResult traceId :
  preserves R (generateDraftReply env ticket articles categoryResult traceId).
Proof.
  unfold generateDraftReply.
  apply preserves_bind; [apply preserves_mark | intros _].
  destruct (activeModel env) as [engine|]; [|apply preserves_ret].
  destruct (askReply engine ticket articles categoryResult) as [[text n]|];
    apply preserves_ret.
Qed.

Lemma preserves_retrieveRelevantArticles cat :
  preserves R (retrieveRelevantArticles env ticket cat (uuidv4 env)).
Proof.
  unfold retrieveRelevantArticles. cbv zeta.
  apply preserves_bind; [apply preserves_searchByKeywords | intros found].
  apply preserves_bind.
  - destruct (List.length found =? 0)%nat; [|apply preserves_ret].
    apply preserves_bind; [apply preserves_searchByKeywords | intros ?].
    apply preserves_ret.
  - intros articles.
    apply preserves_bind; [|intros _; apply preserves_ret].
    apply R_logAction; cbn [In action]; tauto.
Qed.

Lemma preserves_triage :
  preserves R (triage env ticket (uuidv4 env)).
Proof.
  unfold triage.
  apply preserves_bind; [apply R_logAction; cbn [In action]; tauto | intros _].
  apply preserves_bind; [apply preserves_classifyCategory | intros categoryResult].
  apply preserves_bind; [apply preserves_retrieveRelevantArticles | intros articles].
  apply preserves_bind; [apply preserves_generateDraftReply | intros draftResult].
  cbv zeta.
  apply preserves_bind_result; [apply R_create; reflexivity | intros w0 created w1 Hc].
  apply create_resolved in Hc. destruct Hc as (-> & _).
  apply preserves_bind; [apply R_getConfig | intros cfg].
  apply preserves_bind.
  - destruct (autoCloseEnabled cfg && _); [|apply preserves_ret].
    apply preserves_bind; [apply R_save; reflexivity | intros _].
    apply preserves_bind; [apply R_logAction; cbn [In action]; tauto | intros _].
    apply preserves_ret.
  - intros final.
    apply preserves_bind; [apply R_logAction; cbn [In action]; tauto | intros _].
    apply preserves_ret.
Qed.

Lemma preserves_processTicket :
  preserves R (processTicket env ticket).
Proof.
  unfold processTicket. cbv zeta. intros w o w'. unfold tryCatch.
  destruct (triage env ticket (uuidv4 env) w) as [[r|e] w1] eqn:E; intros H.
  - inversion H; subst. exact (preserves_triage _ _ _ E).
  - destruct (triageFailed_rejected env ticket (uuidv4 env) e w1) as (paths & _ & Hrun).
    rewrite Hrun in H. inversion H; subst.
    exact (R_trans _ _ _ (preserves_triage _ _ _ E) (R_call _ _)).
Qed.

End Preserves.

(** *** The checks of a schema *)

Lemma failingPaths_nil checks :
  failingPaths checks = [] <-> forall path b, In (path, b) checks -> b = true.
Proof.
  unfold failingPaths. induction checks as [|[p b] checks IH]; cbn [filter map snd negb].
  - split; [intros _ path b [] | reflexivity].
  - destruct b; cbn [negb map fst].
    + rewrite IH. split.
      * intros H path b [Heq|Hin]; [now inversion Heq | exact (H path b Hin)].
      * intros H path b Hin. apply (H path b). right. exact Hin.
    + split; [intros H; discriminate H|].
      intros H. specialize (H p false (or_introl eq_refl)). discriminate H.
Qed.

Lemma validate_passes model checks w :
  failingPaths checks = [] -> validate model checks w = (Resolved tt, w).
Proof. intros H. unfold validate. rewrite H. reflexivity. Qed.

Lemma validate_outcome model checks w o w' :
  validate model checks w = (o, w') ->
  w' = w /\ (o = Resolved tt -> failingPaths checks = []).
Proof.
  unfold validate. destruct (failingPaths checks); unfold ret, raise; intros H;
    inversion H; subst; split; try reflexivity; intros H'; discriminate H'.
Qed.

(** *** The audit log only grows *)

Lemma appended_refl P w : appended P w w.
Proof. exists []. split; [symmetry; apply app_nil_r | constructor]. Qed.

Lemma appended_trans P a b c : appended P a b -> appended P b c -> appended P a c.
Proof.
  intros (e1 & H1 & F1) (e2 & H2 & F2). exists (e1 ++ e2)%list. split.
  - rewrite H2, H1. symmetry. apply app_assoc.
  - apply Forall_app. split; assumption.
Qed.

Lemma appended_call P c w : appended P w (addCall c w).
Proof. exists []. split; [symmetry; apply app_nil_r | constructor]. Qed.

Lemma oneOf_In allowed s : oneOf allowed s = true <-> In s allowed.
Proof.
  unfold oneOf. rewrite existsb_exists. split.
  - intros (x & Hin & Heq). apply String.eqb_eq in Heq. now subst.
  - intros Hin. exists s. split; [exact Hin | apply String.eqb_refl].
Qed.

Lemma appended_logAction P env data :
  (validAuditLog data -> P data) -> preserves (appended P) (logAction env data).
Proof.
  intros HP w o w'. unfold logAction, bind, mark.
  destruct (validate "AuditLog" (auditLogChecks data) (addCall (LogAction (action data)) w))
    as [[u|e] w1] eqn:Ev.
  - apply validate_outcome in Ev. destruct Ev as [-> Hv].
    destruct u. specialize (Hv eq_refl).
    unfold driver. cbn [calls addCall].
    destruct (outage env _); intros H; inversion H; subst.
    + apply appended_call.
    + exists [data]. split; [reflexivity|]. constructor; [exact (HP Hv) | constructor].
  - apply validate_outcome in Ev. destruct Ev as [-> _].
    intros H. inversion H; subst. apply appended_call.
Qed.

Lemma appended_silent P {A : Type} (m : M A) :
  (forall w o w', m w = (o, w') -> auditLogs w' = auditLogs w) ->
  preserves (appended P) m.
Proof.
  intros Hm w o w' H. exists []. split; [|constructor].
  rewrite (Hm _ _ _ H). symmetry. apply app_nil_r.
Qed.

Lemma create_outcome env doc w o w' :
  AgentSuggestion_create env doc w = (o, w') ->
  auditLogs w' = auditLogs w /\ config w' = config w /\
  (suggestions w' = suggestions w \/
   validSuggestion doc /\ suggestions w' = (suggestions w ++ [doc])%list).
Proof.
  unfold AgentSuggestion_create, bind, mark, getWorld, putSuggestions, ret, raise.
  destruct (validate _ _ _) as [[u|e] w1] eqn:Ev;
    apply validate_outcome in Ev; destruct Ev as [-> Hv].
  - unfold driver. cbn [calls addCall].
    destruct (outage env _); [intros H; inversion H; cbn; tauto|].
    cbn [suggestions addCall].
    destruct (existsb _ _); intros H; inversion H; cbn; [tauto|].
    destruct u. split; [reflexivity|]. split; [reflexivity|].
    right. split; [exact (Hv eq_refl) | reflexivity].
  - intros H; inversion H; cbn; tauto.
Qed.

Lemma save_outcome env doc w o w' :
  AgentSuggestion_save env doc w = (o, w') ->
  auditLogs w' = auditLogs w /\ config w' = config w /\
  (suggestions w' = suggestions w \/
   validSuggestion doc /\
   suggestions w'
   = map (fun old => if hasTicket (sug_ticketId doc) old then doc else old)
         (suggestions w)).
Proof.
  unfold AgentSuggestion_save, bind, mark, getWorld, putSuggestions, ret, raise.
  destruct (validate _ _ _) as [[u|e] w1] eqn:Ev;
    apply validate_outcome in Ev; destruct Ev as [-> Hv].
  - unfold driver. cbn [calls addCall].
    destruct (outage env _); intros H; inversion H; cbn; [tauto|].
    destruct u. split; [reflexivity|]. split; [reflexivity|].
    right. split; [exact (Hv eq_refl) | reflexivity].
  - intros H; inversion H; cbn; tauto.
Qed.

Lemma getConfig_outcome env w o w' :
  getConfig env w = (o, w') ->
  auditLogs w' = auditLogs w /\ suggestions w' = suggestions w /\
  (config w' = config w \/ config w = None /\ config w' = Some defaultConfig).
Proof.
  unfold getConfig, bind, mark, getWorld, putConfig, ret, driver.
  destruct w as [logs sugs cfg cs]. cbn [calls addCall config].
  destruct (outage env _); [intros H; inversion H; cbn; tauto|].
  destruct cfg; intros H; inversion H; subst;
    cbn [auditLogs suggestions config setConfig addCall]; tauto.
Qed.

Lemma logAction_outcome env data w o w' :
  logAction env data w = (o, w') ->
  suggestions w' = suggestions w /\ config w' = config w.
Proof.
  unfold logAction, bind, mark, appendAuditLog.
  destruct (validate _ _ _) as [[u|e] w1] eqn:Ev;
    apply validate_outcome in Ev; destruct Ev as [-> Hv].
  - unfold driver. cbn [calls addCall].
    destruct (outage env _); intros H; inversion H; cbn; tauto.
  - intros H; inversion H; cbn; tauto.
Qed.

Lemma validAuditLog_action doc :
  validAuditLog doc -> In (action doc) auditActions.
Proof.
  intros H. apply oneOf_In.
  apply (proj1 (failingPaths_nil _) H "action"). right. right. left. reflexivity.
Qed.

Lemma appended_ofRun_processTicket env ticket :
  preserves (appended (ofRun env ticket)) (processTicket env ticket).
Proof.
  apply preserves_processTicket.
  - apply appended_refl.
  - apply appended_trans.
  - apply appended_call.
  - intros data H1 H2 H3 H4. apply appended_logAction. intros Hv.
    repeat split; assumption.
  - intros doc _. apply appended_silent. intros w o w' H.
    apply (create_outcome _ _ _ _ _ H).
  - intros doc _. apply appended_silent. intros w o w' H.
    apply (save_outcome _ _ _ _ _ H).
  - apply appended_silent. intros w o w' H.
    apply (getConfig_outcome _ _ _ _ H).
Qed.

(** X2.  Whatever the outcome of [processTicket], the audit log only
    grows: the entries that were there are still there, in the same order,
    and every entry the run added carries the ticket and the trace
    identifier of the run, the actor [system], one of the four actions
    [category_predicted], [articles_retrieved], [auto_closed],
    [reply_drafted], and passes the schema.  In particular no entry with the
    action [triage_failed] is ever stored. *)
Theorem processTicket_audit_log_grows env ticket w o w' :
  processTicket env ticket w = (o, w') ->
  exists events,
    auditLogs w' = (auditLogs w ++ events)%list /\
    Forall (ofRun env ticket) events /\
    Forall (fun event => action event <> "triage_failed") events.
Proof.
  intros H.
  destruct (appended_ofRun_processTicket env ticket _ _ _ H) as (events & Hlogs & Hall).
  exists events.
  split; [exact Hlogs|]. split; [exact Hall|].
  apply Forall_forall. intros event Hin.
  rewrite Forall_forall in Hall. destruct (Hall event Hin) as (_ & _ & _ & Hact & _).
  intros Heq. rewrite Heq in Hact. cbn [In] in Hact.
  repeat (destruct Hact as [Hact|Hact]; [discriminate Hact|]). destruct Hact.
Qed.

Lemma processTicket_audit_log_grows_witness :
  exists o w' events,
    processTicket Sample.flakyEnv Sample.billingTicket Sample.freshWorld = (o, w') /\
    auditLogs w' = (auditLogs Sample.freshWorld ++ events)%list /\
    Forall (ofRun Sample.flakyEnv Sample.billingTicket) events /\
    Forall (fun event => action event <> "triage_failed") events.
Proof.
  destruct (processTicket Sample.flakyEnv Sample.billingTicket Sample.freshWorld)
    as [o w'] eqn:E.
  destruct (processTicket_audit_log_grows _ _ _ _ _ E) as (events & H).
  exists o, w', events. split; [reflexivity | exact H].
Defined.

(** *** The suggestions of the other tickets *)

Lemma truthy_iff s : Str.truthy s = true <-> s <> "".
Proof.
  destruct s; cbn [Str.truthy]; split; intros H; try reflexivity;
    try discriminate H; try (intros H'; discriminate H'). now elim H.
Qed.

Lemma validSuggestion_spec doc :
  validSuggestion doc <->
  sug_traceId doc <> "" /\
  In (predictedCategory doc) categories /\
  Num.inUnit (categoryConfidence doc) /\
  draftReply doc <> "" /\
  String.length (draftReply doc) <= 5000 /\
  Num.inUnit (sug_confidence doc).
Proof.
  unfold validSuggestion. rewrite failingPaths_nil. unfold suggestionChecks, Num.inUnit.
  rewrite <- !truthy_iff, <- oneOf_In, <- Nat.leb_le. split.
  - intros H.
    pose proof (H "traceId" _ (or_introl eq_refl)) as H1.
    pose proof (H "predictedCategory" _ (or_intror (or_introl eq_refl))) as H2.
    pose proof (H "categoryConfidence" _
                  (or_intror (or_intror (or_introl eq_refl)))) as H3.
    pose proof (H "draftReply" _
                  (or_intror (or_intror (or_intror (or_introl eq_refl))))) as H4.
    pose proof (H "confidence" _
                  (or_intror (or_intror (or_intror (or_intror (or_introl eq_refl))))))
      as H5.
    unfold inRange01 in H3, H5.
    apply andb_true_iff in H3, H4, H5. tauto.
  - intros (H1 & H2 & [H3 H3'] & H4 & H4' & [H5 H5']) path b Hin.
    cbn [In] in Hin. unfold inRange01.
    destruct Hin as [E|[E|[E|[E|[E|[]]]]]];
      apply pair_equal_spec in E; destruct E as [_ <-]; unfold inRange01;
      rewrite ?H1, ?H2, ?H3, ?H3', ?H4, ?H4', ?H5, ?H5'; reflexivity.
Qed.

Lemma hasTicket_same doc : hasTicket (sug_ticketId doc) doc = true.
Proof. unfold hasTicket. apply Nat.eqb_refl. Qed.

Lemma filter_replace ticketId doc l :
  sug_ticketId doc = ticketId ->
  filter (fun d => negb (hasTicket ticketId d))
         (map (fun old => if hasTicket ticketId old then doc else old) l)
  = filter (fun d => negb (hasTicket ticketId d)) l.
Proof.
  intros Hid. induction l as [|d l IH]; [reflexivity|]. cbn [map filter].
  destruct (hasTicket ticketId d) eqn:E; cbn [negb].
  - rewrite <- Hid at 1. rewrite hasTicket_same. cbn [negb]. exact IH.
  - rewrite E. cbn [negb]. now rewrite IH.
Qed.

Lemma sameOthers_processTicket env ticket :
  preserves (sameOthers (ticket_id ticket)) (processTicket env ticket).
Proof.
  apply preserves_processTicket.
  - intros w. reflexivity.
  - intros a b c Hab Hbc. unfold sameOthers in *. congruence.
  - intros c w. reflexivity.
  - intros data _ _ _ _ w o w' H. unfold sameOthers, otherTickets.
    now rewrite (proj1 (logAction_outcome _ _ _ _ _ H)).
  - intros doc Hid w o w' H. unfold sameOthers, otherTickets.
    destruct (create_outcome _ _ _ _ _ H) as (_ & _ & [E|[_ E]]); rewrite E;
      [reflexivity|].
    rewrite filter_app. cbn [filter]. rewrite <- Hid, hasTicket_same. cbn [negb].
    apply app_nil_r.
  - intros doc Hid w o w' H. unfold sameOthers, otherTickets.
    destruct (save_outcome _ _ _ _ _ H) as (_ & _ & [E|[_ E]]); rewrite E;
      [reflexivity|].
    rewrite Hid. apply filter_replace. exact Hid.
  - intros w o w' H. unfold sameOthers, otherTickets.
    destruct (getConfig_outcome _ _ _ _ H) as (_ & E & _). now rewrite E.
Qed.

(** X4.  Whatever its outcome, a run of [processTicket] for a ticket
    leaves the stored suggestions of every other ticket exactly as they
    were, in number, order and content. *)
Theorem processTicket_leaves_other_tickets env ticket w o w' :
  processTicket env ticket w = (o, w') ->
  filter (fun doc => negb (sug_ticketId doc =? ticket_id ticket)%nat) (suggestions w')
  = filter (fun doc => negb (sug_ticketId doc =? ticket_id ticket)%nat) (suggestions w).
Proof. exact (sameOthers_processTicket env ticket w o w'). Qed.

(** *** What a run stores *)

Lemma addsOnlyFor_processTicket env ticket :
  preserves (addsOnlyFor (ticket_id ticket)) (processTicket env ticket).
Proof.
  apply preserves_processTicket.
  - intros w doc H. left. exact H.
  - intros a b c Hab Hbc doc H. destruct (Hbc doc H) as [H'|H']; [|right; exact H'].
    exact (Hab doc H').
  - intros c w doc H. left. exact H.
  - intros data _ _ _ _ w o w' H doc Hin. left.
    now rewrite (proj1 (logAction_outcome _ _ _ _ _ H)) in Hin.
  - intros doc Hid w o w' H d Hin.
    destruct (create_outcome _ _ _ _ _ H) as (_ & _ & [E|[Hv E]]); rewrite E in Hin;
      [left; exact Hin|].
    apply in_app_or in Hin. destruct Hin as [Hin|[<-|[]]]; [left; exact Hin|].
    right. split; assumption.
  - intros doc Hid w o w' H d Hin.
    destruct (save_outcome _ _ _ _ _ H) as (_ & _ & [E|[Hv E]]); rewrite E in Hin;
      [left; exact Hin|].
    apply in_map_iff in Hin. destruct Hin as (old & Hd & Hold).
    destruct (hasTicket (sug_ticketId doc) old); subst d;
      [right; split; assumption | left; exact Hold].
  - intros w o w' H doc Hin. left.
    destruct (getConfig_outcome _ _ _ _ H) as (_ & E & _). now rewrite E in Hin.
Qed.

Lemma processTicket_leaves_other_tickets_witness :
  exists o w',
    processTicket Sample.env Sample.generalTicket Sample.triagedWorld = (o, w') /\
    filter (fun doc => negb (sug_ticketId doc =? ticket_id Sample.generalTicket)%nat)
           (suggestions w')
    = suggestions Sample.triagedWorld.
Proof.
  destruct (processTicket Sample.env Sample.generalTicket Sample.triagedWorld)
    as [o w'] eqn:E.
  exists o, w'. split; [reflexivity|].
  rewrite (processTicket_leaves_other_tickets _ _ _ _ _ E). reflexivity.
Defined.

(** X3.  Only suggestions that the schema accepts ever reach the store:
    after a run of [processTicket], whatever its outcome, every stored
    suggestion either was stored before the run or belongs to the ticket of
    the run and has a trace identifier, a category among billing, tech,
    shipping, other, both confidences within [[0,1]] and a draft reply of 1
    to 5000 characters.  When the run returns, the suggestion it returns is
    such a suggestion and is in the store. *)
Theorem processTicket_stores_valid_suggestions env ticket w o w' :
  processTicket env ticket w = (o, w') ->
  let accepted := fun doc =>
    sug_ticketId doc = ticket_id ticket /\
    sug_traceId doc <> "" /\
    In (predictedCategory doc) categories /\
    Num.inUnit (categoryConfidence doc) /\
    draftReply doc <> "" /\
    String.length (draftReply doc) <= 5000 /\
    Num.inUnit (sug_confidence doc) in
  (forall doc, In doc (suggestions w') -> In doc (suggestions w) \/ accepted doc) /\
  (forall r, o = Resolved r ->
     accepted (suggestion r) /\ In (suggestion r) (suggestions w')).
Proof.
  intros H accepted.
  pose proof (addsOnlyFor_processTicket env ticket w o w' H) as Hadds.
  assert (Hold : forall doc, In doc (suggestions w') ->
                   In doc (suggestions w) \/ accepted doc).
  { intros doc Hin. destruct (Hadds doc Hin) as [Hw|[Hv Hid]]; [left; exact Hw|].
    right. split; [exact Hid|]. apply validSuggestion_spec. exact Hv. }
  split; [exact Hold|].
  intros r ->. apply processTicket_resolved in H.
  destruct (existsb (hasTicket (ticket_id ticket)) (suggestions w)) eqn:Efresh.
  { destruct (blocked_triage env ticket (uuidv4 env) w Efresh) as (e & w1 & Hrej & _).
    rewrite Hrej in H. discriminate H. }
  apply triage_resolved in H. cbv zeta in H.
  destruct H as (cr & arts & dr & events & rest & _ & _ & _ & _ & Hid & _ & _ & Hs & _).
  assert (Hin : In (suggestion r) (suggestions w')).
  { rewrite Hs. apply in_or_app. right. left. reflexivity. }
  split; [|exact Hin].
  destruct (Hold _ Hin) as [Hw|Ha]; [|exact Ha].
  exfalso. apply (existsb_hasTicket_false _ _ Efresh).
  apply in_map_iff. exists (suggestion r). split; assumption.
Qed.

Lemma processTicket_stores_valid_suggestions_witness :
  exists r w',
    processTicket Sample.env Sample.generalTicket Sample.triagedWorld
    = (Resolved r, w') /\
    In (suggestion r) (suggestions w') /\
    sug_ticketId (suggestion r) = 8 /\
    In (predictedCategory (suggestion r)) categories /\
    Num.inUnit (sug_confidence (suggestion r)).
Proof.
  destruct (processTicket Sample.env Sample.generalTicket Sample.triagedWorld)
    as [[r|e] w'] eqn:E; [|vm_compute in E; discriminate E].
  destruct (processTicket_stores_valid_suggestions _ _ _ _ _ E) as [_ Hr].
  destruct (Hr r eq_refl) as ((Hid & _ & Hcat & _ & _ & _ & Hconf) & Hin).
  exists r, w'. split; [reflexivity|]. split; [exact Hin|]. split; [exact Hid|].
  split; assumption.
Defined.

(** *** The configuration *)

Lemma configSettled_refl w : configSettled w w.
Proof. unfold configSettled. destruct (config w); [reflexivity | left; reflexivity]. Qed.

Lemma configSettled_trans a b c :
  configSettled a b -> configSettled b c -> configSettled a c.
Proof.
  unfold configSettled. destruct (config a) as [ca|].
  - intros ->. auto.
  - intros [->| ->]; [auto|]. intros ->. right. reflexivity.
Qed.

Lemma configSettled_same w w' : config w' = config w -> configSettled w w'.
Proof.
  intros E. unfold configSettled. rewrite E.
  destruct (config w); [reflexivity | left; reflexivity].
Qed.

Lemma configSettled_processTicket env ticket :
  preserves configSettled (processTicket env ticket).
Proof.
  apply preserves_processTicket.
  - apply configSettled_refl.
  - apply configSettled_trans.
  - intros c w. apply configSettled_same. reflexivity.
  - intros data _ _ _ _ w o w' H. apply configSettled_same.
    apply (logAction_outcome _ _ _ _ _ H).
  - intros doc _ w o w' H. apply configSettled_same.
    apply (create_outcome _ _ _ _ _ H).
  - intros doc _ w o w' H. apply configSettled_same.
    apply (save_outcome _ _ _ _ _ H).
  - intros w o w' H.
    destruct (getConfig_outcome _ _ _ _ H) as (_ & _ & [E|[E1 E2]]).
    + apply configSettled_same. exact E.
    + unfold configSettled. rewrite E1. right. exact E2.
Qed.

(** X5.  [processTicket] never rewrites the configuration: a stored
    configuration document is still the stored one after the run, whatever
    the outcome; when there is none, the run leaves none or the default one
    ([autoCloseEnabled] false, [confidenceThreshold] 0.8), and if it returns
    it has stored the default one and has not auto-closed. *)
Theorem processTicket_config env ticket w o w' :
  processTicket env ticket w = (o, w') ->
  (forall c, config w = Some c -> config w' = Some c) /\
  (config w = None ->
   (config w' = None \/ config w' = Some defaultConfig) /\
   forall r, o = Resolved r ->
     config w' = Some defaultConfig /\
     shouldAutoClose r = false /\ autoClosed (suggestion r) = false).
Proof.
  intros H. pose proof (configSettled_processTicket env ticket w o w' H) as Hc.
  unfold configSettled in Hc. split.
  - intros c E. rewrite E in Hc. exact Hc.
  - intros E. rewrite E in Hc. split; [exact Hc|].
    intros r ->. apply processTicket_resolved, triage_resolved in H. cbv zeta in H.
    destruct H as (cr & arts & dr & events & rest & _ & Hclose & _ & Hauto & _ & _
                   & Hcfg & _).
    rewrite E in Hclose, Hauto, Hcfg. cbn [orElse defaultConfig autoCloseEnabled andb]
      in Hclose, Hauto, Hcfg.
    repeat split; assumption.
Qed.

Lemma processTicket_config_witness :
  exists r w',
    processTicket Sample.env Sample.billingTicket Sample.freshWorld = (Resolved r, w') /\
    config w' = Some defaultConfig /\ shouldAutoClose r = false.
Proof.
  destruct (processTicket Sample.env Sample.billingTicket Sample.freshWorld)
    as [[r|e] w'] eqn:E; [|vm_compute in E; discriminate E].
  destruct (processTicket_config _ _ _ _ _ E) as [_ Hnone].
  destruct (Hnone eq_refl) as (_ & Hr).
  destruct (Hr r eq_refl) as (Hcfg & Hclose & _).
  exists r, w'. repeat split; assumption.
Defined.

(* ------------------------------------------------------------------ *)
(** ** The hosted classifier *)

Lemma Math_max_zero_nonNegative x :
  x <> S754_nan -> nonNegative (Num.Math_max x Num.zero) = true.
Proof.
  intros Hx. destruct x as [s|s| |s m e]; try destruct s; try reflexivity.
  now elim Hx.
Qed.

Lemma clamp01_inUnit x : x <> S754_nan -> Num.inUnit (clamp01 x).
Proof.
  intros Hx. unfold clamp01, Num.inUnit. rewrite leb_zero.
  apply Math_min_one, Math_max_zero_nonNegative. exact Hx.
Qed.

Lemma compare_one_eq m e :
  SFcompare (S754_finite false m e) Num.one = Some Eq -> S754_finite false m e = Num.one.
Proof.
  unfold Num.one. cbn [SFcompare].
  destruct (Z.compare e (-52)) eqn:Ee; try (intros H; discriminate H).
  destruct (Pos.compare_cont Eq m 4503599627370496) eqn:Em;
    try (intros H; discriminate H).
  intros _. apply Z.compare_eq in Ee.
  assert (Hm : m = 4503599627370496%positive) by (apply Pos.compare_eq; exact Em).
  rewrite Ee, Hm. reflexivity.
Qed.

Lemma clamp01_fixes x :
  Num.inUnit x -> x <> S754_zero true -> clamp01 x = x.
Proof.
  intros [H0 H1] Hz. unfold clamp01.
  destruct x as [s|s| |s m e]; try destruct s; try discriminate H0;
    try discriminate H1; try reflexivity; [now elim Hz|].
  change (Num.Math_max (S754_finite false m e) Num.zero) with (S754_finite false m e).
  unfold Num.leb, SFleb in H1. unfold Num.Math_min.
  destruct (SFcompare (S754_finite false m e) Num.one) as [[| |]|] eqn:E;
    try discriminate H1; [|reflexivity].
  symmetry. apply compare_one_eq. exact E.
Qed.

Lemma classifyCategory_answered env ticket traceId w engine parsed :
  activeModel env = Some engine ->
  askCategory engine ticket = Resolved parsed ->
  classifyCategory env ticket traceId w
  = (Resolved {| category := p_category parsed;
                 confidence := clamp01 (p_confidence parsed);
                 reasoning := p_reasoning parsed |},
     addCall ClassifyCategory w).
Proof.
  intros Hm Hans. unfold classifyCategory, bind, mark. rewrite Hm, Hans. reflexivity.
Qed.

(** X1.  With the hosted model switched on, [classifyCategory] never
    rejects and writes nothing.  When the model answers, the category is the
    answer's, unchecked, and the confidence is the answer's clamped to
    [[0,1]]: within [[0,1]] for every number, unchanged for a number already
    there (the negative zero apart), and NaN when the answer carries no
    number.  When the model or the parsing of its answer throws, the result
    is the one of the heuristic classifier. *)
Theorem classifyCategory_hosted env ticket traceId w engine :
  activeModel env = Some engine ->
  match askCategory engine ticket with
  | Resolved parsed =>
      exists result,
        classifyCategory env ticket traceId w
        = (Resolved result, addCall ClassifyCategory w) /\
        category result = p_category parsed /\
        confidence result = clamp01 (p_confidence parsed) /\
        (p_confidence parsed <> S754_nan -> Num.inUnit (confidence result)) /\
        (Num.inUnit (p_confidence parsed) -> p_confidence parsed <> S754_zero true ->
         confidence result = p_confidence parsed) /\
        (p_confidence parsed = S754_nan -> confidence result = S754_nan)
  | Rejected _ =>
      classifyCategory env ticket traceId w
      = (Resolved (stubClassifyCategory ticket), addCall ClassifyCategory w)
  end.
Proof.
  intros Hm.
  destruct (askCategory engine ticket) as [parsed|e] eqn:Hans;
    [|unfold classifyCategory, bind, mark; rewrite Hm, Hans; reflexivity].
  eexists. split; [exact (classifyCategory_answered _ _ _ _ _ _ Hm Hans)|].
  cbn [category confidence].
  split; [reflexivity|]. split; [reflexivity|]. split; [apply clamp01_inUnit|].
  split; [apply clamp01_fixes|]. intros ->. reflexivity.
Qed.

Lemma classifyCategory_hosted_witness :
  exists result,
    classifyCategory (Cases.hosted Cases.keenModel) Sample.billingTicket "t-1"
                     Sample.freshWorld
    = (Resolved result, addCall ClassifyCategory Sample.freshWorld) /\
    category result = "billing" /\ confidence result = Num.one.
Proof.
  pose proof (classifyCategory_hosted (Cases.hosted Cases.keenModel)
                Sample.billingTicket "t-1" Sample.freshWorld Cases.keenModel
                eq_refl) as H.
  cbn [askCategory Cases.keenModel] in H.
  destruct H as (result & Hrun & Hcat & Hconf & _).
  exists result. split; [exact Hrun|]. split; [exact Hcat|].
  rewrite Hconf. vm_compute. reflexivity.
Defined.

(* ------------------------------------------------------------------ *)
(** ** Answers of the hosted model that the schema turns down *)

Lemma refuses_after {A B : Type} (m : M A) (k : A -> M B) :
  keeps m -> (forall a, refuses (k a)) -> refuses (bind m k).
Proof.
  intros Hm Hk w. unfold bind.
  destruct (m w) as [[a|e] w1] eqn:E.
  - destruct (Hk a w1) as (e & w' & Hrun & Hs).
    exists e, w'. split; [exact Hrun|]. rewrite Hs. exact (Hm _ _ _ E).
  - exists e, w1. split; [reflexivity | exact (Hm _ _ _ E)].
Qed.

Lemma refuses_after_result {A B : Type} (m : M A) (k : A -> M B) (P : A -> Prop) :
  keeps m -> (forall w a w1, m w = (Resolved a, w1) -> P a) ->
  (forall a, P a -> refuses (k a)) -> refuses (bind m k).
Proof.
  intros Hm HP Hk w. unfold bind.
  destruct (m w) as [[a|e] w1] eqn:E.
  - destruct (Hk a (HP _ _ _ E) w1) as (e & w' & Hrun & Hs).
    exists e, w'. split; [exact Hrun|]. rewrite Hs. exact (Hm _ _ _ E).
  - exists e, w1. split; [reflexivity | exact (Hm _ _ _ E)].
Qed.

Lemma refuses_first {A B : Type} (m : M A) (k : A -> M B) :
  refuses m -> refuses (bind m k).
Proof.
  intros Hm w. destruct (Hm w) as (e & w' & E & Hs).
  exists e, w'. unfold bind. rewrite E. split; [reflexivity | exact Hs].
Qed.

Lemma refuses_create env doc :
  ~ validSuggestion doc -> refuses (AgentSuggestion_create env doc).
Proof.
  intros Hv w. unfold AgentSuggestion_create, bind, mark, validate.
  unfold validSuggestion in Hv.
  destruct (failingPaths (suggestionChecks doc)) as [|p ps]; [now elim Hv|].
  eexists. eexists. split; reflexivity.
Qed.

Lemma processTicket_refused env ticket w :
  refuses (triage env ticket (uuidv4 env)) ->
  exists paths w',
    processTicket env ticket w = (Rejected (ValidationError "AuditLog" paths), w') /\
    suggestions w' = suggestions w.
Proof.
  intros Href. destruct (Href w) as (e & w1 & Hrun & Hs).
  destruct (processTicket_rejected env ticket w e w1 Hrun) as (paths & _ & Hp).
  exists paths. eexists. split; [exact Hp | exact Hs].
Qed.

(** X7.  The answer of the hosted classifier is stored as it comes: when
    its category is not one of billing, tech, shipping, other, or when it
    carries no numeric confidence, the schema of the suggestion turns the
    creation down, and [processTicket] rejects without having stored a
    suggestion, whatever the database holds and whatever the other steps
    do. *)
Theorem processTicket_rejects_unusable_answer env ticket w engine parsed :
  activeModel env = Some engine ->
  askCategory engine ticket = Resolved parsed ->
  ~ In (p_category parsed) categories \/ p_confidence parsed = S754_nan ->
  exists paths w',
    processTicket env ticket w = (Rejected (ValidationError "AuditLog" paths), w') /\
    suggestions w' = suggestions w.
Proof.
  intros Hm Hans Hbad. apply processTicket_refused. unfold triage.
  apply refuses_after; [auto with keeps | intros _].
  apply (refuses_after_result _ _
           (fun cr => category cr = p_category parsed /\
                      confidence cr = clamp01 (p_confidence parsed)));
    [auto with keeps | |].
  { intros w0 cr w1 H.
    rewrite (classifyCategory_answered _ _ _ _ _ _ Hm Hans) in H.
    inversion H. subst. split; reflexivity. }
  intros cr [Hcat Hconf].
  apply refuses_after; [auto with keeps | intros articles].
  apply refuses_after; [auto with keeps | intros draftResult].
  cbv zeta. apply refuses_first, refuses_create.
  intros Hv. apply validSuggestion_spec in Hv.
  cbn [predictedCategory categoryConfidence] in Hv.
  destruct Hv as (_ & Hc & [Hu _] & _).
  destruct Hbad as [Hbad|Hbad].
  - apply Hbad. rewrite <- Hcat. exact Hc.
  - rewrite Hconf, Hbad in Hu. vm_compute in Hu. discriminate Hu.
Qed.

Lemma processTicket_rejects_unusable_answer_witness :
  exists paths w',
    processTicket (Cases.hosted Cases.looseModel) Sample.billingTicket Sample.freshWorld
    = (Rejected (ValidationError "AuditLog" paths), w') /\
    suggestions w' = [].
Proof.
  apply (processTicket_rejects_unusable_answer (Cases.hosted Cases.looseModel)
           Sample.billingTicket Sample.freshWorld Cases.looseModel
           {| p_category := "Billing"; p_confidence := Num.lit_0_8;
              p_reasoning := "mentions an invoice" |}).
  - reflexivity.
  - reflexivity.
  - left. cbn [p_category categories In].
    intros [H|[H|[H|[H|[]]]]]; discriminate H.
Defined.

(** X9.  A reply of the hosted model that, once [trim] has stripped its
    white space (the no-break space included), is empty or longer than 5000
    characters, is not replaced by the heuristic one: the schema of the
    suggestion turns the creation down and [processTicket] rejects without
    having stored a suggestion. *)
Theorem processTicket_rejects_unusable_reply env ticket w engine :
  activeModel env = Some engine ->
  (forall articles categoryResult, exists text count,
      askReply engine ticket articles categoryResult = Resolved (text, count) /\
      (Str.trim text = "" \/ 5000 < String.length (Str.trim text))) ->
  exists paths w',
    processTicket env ticket w = (Rejected (ValidationError "AuditLog" paths), w') /\
    suggestions w' = suggestions w.
Proof.
  intros Hm Hans. apply processTicket_refused. unfold triage.
  apply refuses_after; [auto with keeps | intros _].
  apply refuses_after; [auto with keeps | intros categoryResult].
  apply refuses_after; [auto with keeps | intros articles].
  apply (refuses_after_result _ _
           (fun dr => reply dr = "" \/ 5000 < String.length (reply dr)));
    [auto with keeps | |].
  { intros w0 dr w1. unfold generateDraftReply, bind, mark. rewrite Hm.
    destruct (Hans articles categoryResult) as (text & count & -> & Hbad).
    intros H. inversion H. subst. exact Hbad. }
  intros dr Hbad. cbv zeta. apply refuses_first, refuses_create.
  intros Hv. apply validSuggestion_spec in Hv. cbn [draftReply] in Hv.
  destruct Hv as (_ & _ & _ & Hne & Hlen & _).
  destruct Hbad as [Hbad|Hbad]; [exact (Hne Hbad) | lia].
Qed.

Lemma processTicket_rejects_unusable_reply_witness :
  exists paths w',
    processTicket (Cases.hosted Cases.muteModel) Sample.billingTicket Sample.freshWorld
    = (Rejected (ValidationError "AuditLog" paths), w') /\
    suggestions w' = [].
Proof.
  apply (processTicket_rejects_unusable_reply (Cases.hosted Cases.muteModel)
           Sample.billingTicket Sample.freshWorld Cases.muteModel).
  - reflexivity.
  - intros articles categoryResult. exists (" " ++ Str.nbsp ++ Str.newline), None.
    split; [reflexivity | left; reflexivity].
Defined.

(* ------------------------------------------------------------------ *)
(** ** A run in heuristic mode on a healthy connection *)

Lemma bind_run {A B : Type} (m : M A) (k : A -> M B) w a w1 :
  m w = (Resolved a, w1) -> bind m k w = k a w1.
Proof. intros H. unfold bind. now rewrite H. Qed.

Lemma logAction_runs env data w :
  validAuditLog data -> (forall n, outage env n = None) ->
  logAction env data w
  = (Resolved tt, addAuditLog data (addCall (LogAction (action data)) w)).
Proof.
  intros Hv Hup. unfold logAction, bind, mark, driver, appendAuditLog.
  rewrite (validate_passes _ _ _ Hv), Hup. reflexivity.
Qed.

Lemma searchByKeywords_runs env keywords options w :
  (forall n, outage env n = None) -> Str.blank keywords = false ->
  searchByKeywords env keywords options w
  = (Resolved (queryResult env keywords options),
     addCall (SearchByKeywords (opt_category options) (orElse (opt_limit options) 10)) w).
Proof.
  intros Hup Hb. unfold searchByKeywords, bind, mark, driver.
  rewrite Hup, Hb, andb_false_r. reflexivity.
Qed.

Lemma create_runs env doc w :
  validSuggestion doc -> (forall n, outage env n = None) ->
  existsb (hasTicket (sug_ticketId doc)) (suggestions w) = false ->
  AgentSuggestion_create env doc w
  = (Resolved doc,
     setSuggestions (suggestions w ++ [doc])%list
                    (addCall (CreateSuggestion (sug_ticketId doc)) w)).
Proof.
  intros Hv Hup Hfresh.
  unfold AgentSuggestion_create, bind, mark, driver, getWorld, putSuggestions, ret.
  rewrite (validate_passes _ _ _ Hv), Hup. cbn [suggestions addCall].
  rewrite Hfresh. reflexivity.
Qed.

Lemma getConfig_runs env w :
  (forall n, outage env n = None) ->
  getConfig env w
  = (Resolved (orElse (config w) defaultConfig),
     setConfig (orElse (config w) defaultConfig) (addCall GetConfig w)).
Proof.
  intros Hup. unfold getConfig, bind, mark, driver, getWorld, putConfig, ret.
  rewrite Hup. destruct w as [logs sugs [cfg|] cs]; reflexivity.
Qed.

Lemma validAuditLog_intro doc :
  log_traceId doc <> "" -> In (actor doc) auditActors ->
  In (action doc) auditActions ->
  log_description doc <> "" -> String.length (log_description doc) <= 500 ->
  validAuditLog doc.
Proof.
  intros H1 H2 H3 H4 H5. apply failingPaths_nil. intros path b Hin.
  apply truthy_iff in H1, H4. apply oneOf_In in H2, H3. apply Nat.leb_le in H5.
  unfold auditLogChecks in Hin. cbn [In] in Hin.
  destruct Hin as [E|[E|[E|[E|[]]]]];
    apply pair_equal_spec in E; destruct E as [_ <-];
    rewrite ?H1, ?H2, ?H3, ?H4, ?H5; reflexivity.
Qed.

Lemma length_ofNat_small n : n <= 9 -> String.length (Str.ofNat n) = 1.
Proof.
  intros H. destruct n as [|n]; [reflexivity|]. apply length_ofNat_digit. lia.
Qed.

Lemma stub_reply_fits ticket articles categoryResult :
  String.length (title ticket) <= 200 ->
  List.length articles <= 5 ->
  Forall (fun a => String.length (article_title a) <= 200) articles ->
  In (category categoryResult) categories ->
  reply (stubGenerateDraftReply ticket articles categoryResult) <> "" /\
  String.length (reply (stubGenerateDraftReply ticket articles categoryResult)) <= 5000.
Proof.
  intros Htitle Hcount Htitles Hcat. unfold stubGenerateDraftReply. cbn [reply]. split.
  - destruct (0 <? List.length articles)%nat; intros H; discriminate H.
  - pose proof (length_category _ Hcat) as Hc.
    pose proof (length_numberedTitles articles 0 ltac:(lia) Htitles) as Hnum.
    destruct (0 <? List.length articles)%nat;
      rewrite !length_append; cbn [String.length Str.newline Str.quote]; lia.
Qed.

Lemma ticketText_truthy ticket : ticketText ticket <> "".
Proof.
  unfold ticketText. destruct (title ticket); intros H; discriminate H.
Qed.

Lemma retrieve_runs env ticket cat tid w :
  (forall n, outage env n = None) -> tid <> "" ->
  Str.blank (ticketText ticket) = false ->
  exists articles w1,
    retrieveRelevantArticles env ticket cat tid w = (Resolved articles, w1) /\
    suggestions w1 = suggestions w /\ config w1 = config w /\
    List.length articles <= 5 /\
    (forall a, In a articles -> In a (articleCollection env)).
Proof.
  intros Hup Htid Hb. unfold retrieveRelevantArticles. cbv zeta.
  rewrite (bind_run _ _ _ _ _ (searchByKeywords_runs env _ _ w Hup Hb)).
  set (primary := queryResult env (ticketText ticket) (primaryOptions cat)).
  set (secondary := queryResult env (ticketText ticket) fallbackOptions).
  destruct (queryResult_sound env (ticketText ticket) (primaryOptions cat))
    as [Hlen1 Hin1].
  destruct (queryResult_sound env (ticketText ticket) fallbackOptions)
    as [Hlen2 Hin2].
  fold primary in Hlen1, Hin1. fold secondary in Hlen2, Hin2.
  cbn [primaryOptions fallbackOptions opt_limit orElse] in Hlen1, Hlen2.
  specialize (Hlen1 ltac:(discriminate)). specialize (Hlen2 ltac:(discriminate)).
  set (event := fun articles : list Article =>
         {| log_ticketId := ticket_id ticket; log_traceId := tid;
            actor := "system"; action := "articles_retrieved";
            log_description := "Retrieved " ++ Str.ofNat (List.length articles)
                               ++ " relevant articles";
            meta := [("query", MString (Str.take 100 (ticketText ticket)));
                     ("category", MString cat);
                     ("articleIds", MIds (map article_id articles))] |}).
  assert (Hlog : forall articles w0, List.length articles <= 5 ->
            logAction env (event articles) w0
            = (Resolved tt,
               addAuditLog (event articles)
                           (addCall (LogAction "articles_retrieved") w0))).
  { intros articles w0 Hl.
    change (LogAction "articles_retrieved") with (LogAction (action (event articles))).
    apply logAction_runs; [|exact Hup].
    apply validAuditLog_intro; unfold event;
      cbn [log_traceId actor action log_description].
    - exact Htid.
    - cbn; tauto.
    - cbn; tauto.
    - intros H; discriminate H.
    - rewrite !length_append, length_ofNat_small by lia. cbn [String.length]. lia. }
  destruct (List.length primary =? 0)%nat eqn:E.
  - rewrite (bind_run _ _ _ _ _
               (bind_run _ _ _ _ _ (searchByKeywords_runs env _ _ _ Hup Hb))).
    apply Nat.eqb_eq, length_zero_iff_nil in E. rewrite E. cbn [app].
    fold secondary.
    rewrite (bind_run _ _ _ _ _ (Hlog secondary _ ltac:(lia))).
    eexists. eexists. split; [reflexivity|].
    split; [reflexivity|]. split; [reflexivity|]. split; [lia|].
    intros a Ha. apply (Hin2 a Ha).
  - unfold ret at 1.
    rewrite (bind_run _ _ _ _ _ (eq_refl : (fun w0 => (Resolved primary, w0)) _ = _)).
    rewrite (bind_run _ _ _ _ _ (Hlog primary _ Hlen1)).
    eexists. eexists. split; [reflexivity|].
    split; [reflexivity|]. split; [reflexivity|]. split; [exact Hlen1|].
    intros a Ha. apply (Hin1 a Ha).
Qed.

Lemma stubClassifyCategory_confidence ticket :
  Num.inUnit (confidence (stubClassifyCategory ticket)).
Proof.
  unfold stubClassifyCategory, classifyBy. cbn [confidence].
  destruct (0 <? _)%nat; split; vm_compute; reflexivity.
Qed.

(** X6.  In heuristic mode (stub mode, or no hosted model) and over a
    connection that stays up, the first triage of a ticket whose text is not
    blank and whose title has at most 200 characters, over a knowledge base
    whose titles have at most 200 characters, with auto-close switched off
    (or no configuration stored) and a trace identifier drawn, always
    returns: it stores one suggestion for the ticket, with the category of
    the heuristic classifier and the reply of the heuristic drafter, and
    does not auto-close. *)
Theorem processTicket_heuristic_run_returns env ticket w :
  activeModel env = None ->
  (forall n, outage env n = None) ->
  uuidv4 env <> "" ->
  Str.blank (ticketText ticket) = false ->
  String.length (title ticket) <= 200 ->
  Forall (fun a => String.length (article_title a) <= 200) (articleCollection env) ->
  existsb (hasTicket (ticket_id ticket)) (suggestions w) = false ->
  autoCloseEnabled (orElse (config w) defaultConfig) = false ->
  exists r w' articles,
    processTicket env ticket w = (Resolved r, w') /\
    shouldAutoClose r = false /\
    traceId r = uuidv4 env /\
    sug_ticketId (suggestion r) = ticket_id ticket /\
    predictedCategory (suggestion r) = category (stubClassifyCategory ticket) /\
    categoryConfidence (suggestion r) = confidence (stubClassifyCategory ticket) /\
    articleIds (suggestion r) = map article_id articles /\
    draftReply (suggestion r)
    = reply (stubGenerateDraftReply ticket articles (stubClassifyCategory ticket)) /\
    autoClosed (suggestion r) = false /\
    suggestions w' = (suggestions w ++ [suggestion r])%list.
Proof.
  intros Hmodel Hup Htid Hblank Htitle Htitles Hfresh Hoff.
  assert (Hlog : forall data w0,
            log_traceId data = uuidv4 env -> actor data = "system" ->
            In (action data) auditActions ->
            log_description data <> "" -> String.length (log_description data) <= 500 ->
            logAction env data w0
            = (Resolved tt, addAuditLog data (addCall (LogAction (action data)) w0))).
  { intros data w0 H1 H2 H3 H4 H5. apply logAction_runs; [|exact Hup].
    apply validAuditLog_intro; try assumption.
    - rewrite H1. exact Htid.
    - rewrite H2. cbn; tauto. }
  unfold processTicket. cbv zeta.
  match goal with
  | |- exists r w' articles, tryCatch ?body ?handler w = _ /\ _ =>
      assert (Hrun : exists r w' articles,
                 body w = (Resolved r, w') /\
                 shouldAutoClose r = false /\
                 traceId r = uuidv4 env /\
                 sug_ticketId (suggestion r) = ticket_id ticket /\
                 predictedCategory (suggestion r) = category (stubClassifyCategory ticket) /\
                 categoryConfidence (suggestion r)
                 = confidence (stubClassifyCategory ticket) /\
                 articleIds (suggestion r) = map article_id articles /\
                 draftReply (suggestion r)
                 = reply (stubGenerateDraftReply ticket articles
                            (stubClassifyCategory ticket)) /\
                 autoClosed (suggestion r) = false /\
                 suggestions w' = (suggestions w ++ [suggestion r])%list)
  end.
  2:{ destruct Hrun as (r & w' & articles & Hbody & Hrest).
      exists r, w', articles. split; [|exact Hrest].
      apply tryCatch_resolved_body. exact Hbody. }
  unfold triage.
  erewrite bind_run
    by (apply Hlog; [reflexivity | reflexivity | cbn; tauto
                    | intros H; discriminate H | cbn; lia]).
  cbn [action].
  match goal with
  | |- context [bind (classifyCategory env ticket (uuidv4 env)) ?k ?w0] =>
      assert (Hc : classifyCategory env ticket (uuidv4 env) w0
                   = (Resolved (stubClassifyCategory ticket),
                      addCall ClassifyCategory w0))
        by (unfold classifyCategory, bind, mark; rewrite Hmodel; reflexivity);
      rewrite (bind_run _ _ _ _ _ Hc); clear Hc
  end.
  match goal with
  | |- context [bind (retrieveRelevantArticles env ticket ?cat ?tid) ?k ?w0] =>
      destruct (retrieve_runs env ticket cat tid w0 Hup Htid Hblank)
        as (articles & w3 & Hr & Hs3 & Hc3 & Hlen & Hin);
      rewrite (bind_run _ _ _ _ _ Hr); clear Hr
  end.
  cbn [suggestions config addAuditLog addCall] in Hs3, Hc3.
  assert (Hg : generateDraftReply env ticket articles (stubClassifyCategory ticket)
                 (uuidv4 env) w3
               = (Resolved (stubGenerateDraftReply ticket articles
                              (stubClassifyCategory ticket)),
                  addCall GenerateDraftReply w3))
    by (unfold generateDraftReply, bind, mark; rewrite Hmodel; reflexivity).
  rewrite (bind_run _ _ _ _ _ Hg). clear Hg. cbv zeta.
  assert (Harts : Forall (fun a => String.length (article_title a) <= 200) articles).
  { apply Forall_forall. intros a Ha. rewrite Forall_forall in Htitles.
    apply Htitles, Hin, Ha. }
  destruct (stub_reply_fits ticket articles (stubClassifyCategory ticket)
              Htitle Hlen Harts (stubClassifyCategory_category ticket))
    as [Hne Hle].
  match goal with
  | |- context [bind (AgentSuggestion_create env ?doc) ?k ?w0] =>
      assert (Hcr : AgentSuggestion_create env doc w0
                    = (Resolved doc,
                       setSuggestions (suggestions w0 ++ [doc])%list
                         (addCall (CreateSuggestion (sug_ticketId doc)) w0)));
      [apply create_runs; [|exact Hup|] | rewrite (bind_run _ _ _ _ _ Hcr); clear Hcr]
  end.
  { apply validSuggestion_spec.
    cbn [sug_traceId predictedCategory categoryConfidence draftReply sug_confidence].
    split; [exact Htid|]. split; [apply stubClassifyCategory_category|].
    split; [apply stubClassifyCategory_confidence|].
    split; [exact Hne|]. split; [exact Hle|].
    apply inUnit_calculateOverallConfidence. apply stubClassifyCategory_confidence. }
  { cbn [sug_ticketId suggestions addCall]. rewrite Hs3. exact Hfresh. }
  rewrite (bind_run _ _ _ _ _ (getConfig_runs env _ Hup)).
  cbn [config setSuggestions addCall]. rewrite Hc3, Hoff. cbn [andb].
  unfold ret at 1.
  rewrite (bind_run _ _ _ _ _
             (eq_refl : (fun w0 : World => (Resolved _, w0)) _ = _)).
  erewrite bind_run
    by (apply Hlog; [reflexivity | reflexivity | cbn; tauto
                    | intros H; discriminate H | cbn; lia]).
  eexists. eexists. exists articles. split; [reflexivity|].
  cbn [shouldAutoClose traceId suggestion sug_ticketId predictedCategory
       categoryConfidence articleIds draftReply autoClosed suggestions
       addAuditLog addCall setConfig setSuggestions].
  rewrite Hs3. repeat split; reflexivity.
Qed.

Lemma processTicket_heuristic_run_returns_witness :
  exists r w' articles,
    processTicket Sample.env Sample.billingTicket Sample.freshWorld = (Resolved r, w') /\
    shouldAutoClose r = false /\
    predictedCategory (suggestion r) = "billing" /\
    articleIds (suggestion r) = map article_id articles /\
    suggestions w' = [suggestion r].
Proof.
  destruct (processTicket_heuristic_run_returns Sample.env Sample.billingTicket
              Sample.freshWorld)
    as (r & w' & articles & Hrun & Hclose & _ & _ & Hcat & _ & Hids & _ & _ & Hs).
  - reflexivity.
  - intros n. reflexivity.
  - intros H. discriminate H.
  - reflexivity.
  - vm_compute. lia.
  - repeat constructor; vm_compute; lia.
  - reflexivity.
  - reflexivity.
  - exists r, w', articles. split; [exact Hrun|]. split; [exact Hclose|].
    split; [rewrite Hcat; reflexivity|]. split; [exact Hids | exact Hs].
Defined.

(* ------------------------------------------------------------------ *)
(** ** The order and the pages of a search *)








(* ------------------------------------------------------------------ *)
(** ** Saving a ticket *)

Lemma task_bind_run {A B : Type} (m : Task A) (k : A -> Task B) desk a desk1 :
  m desk = (Resolved a, desk1) -> Task.bind m k desk = k a desk1.
Proof. intros H. unfold Task.bind. now rewrite H. Qed.

Lemma task_bind_rejected {A B : Type} (m : Task A) (k : A -> Task B) desk e desk1 :
  m desk = (Rejected e, desk1) -> Task.bind m k desk = (Rejected e, desk1).
Proof. intros H. unfold Task.bind. now rewrite H. Qed.

Lemma setWorld_same desk : setWorld (world desk) desk = desk.
Proof. destruct desk. reflexivity. Qed.

Lemma lift_validate model checks desk :
  Task.lift (validate model checks) desk
  = match failingPaths checks with
    | [] => (Resolved tt, desk)
    | paths => (Rejected (ValidationError model paths), desk)
    end.
Proof.
  unfold Task.lift, validate.
  destruct (failingPaths checks); unfold ret, raise; now rewrite setWorld_same.
Qed.

Lemma sameContent_refl doc : sameContent doc doc.
Proof. reflexivity. Qed.

Lemma sameContent_trans a b c : sameContent a b -> sameContent b c -> sameContent a c.
Proof. unfold sameContent. congruence. Qed.

Lemma sameContent_lastActivity date doc : sameContent doc (set_lastActivity date doc).
Proof. reflexivity. Qed.

Lemma sameContent_createdAt date doc : sameContent doc (set_createdAt date doc).
Proof. reflexivity. Qed.

Lemma sameContent_checks a b : sameContent a b -> ticketChecks a = ticketChecks b.
Proof.
  intros H.
  change (ticketChecks (set_createdAt None (set_lastActivity 0%Z a))
          = ticketChecks (set_createdAt None (set_lastActivity 0%Z b))).
  now rewrite H.
Qed.

Lemma sameContent_valid a b : sameContent a b -> validTicket a -> validTicket b.
Proof. intros H. unfold validTicket. now rewrite (sameContent_checks a b H). Qed.

Lemma sameContent_fields a b :
  sameContent a b ->
  doc_id b = doc_id a /\ doc_title b = doc_title a /\
  doc_description b = doc_description a /\ status b = status a /\
  assignee b = assignee a /\ pendingAssignment b = pendingAssignment a /\
  agentSuggestionId b = agentSuggestionId a /\ replies b = replies a /\
  slaDeadline b = slaDeadline a /\ resolvedAt b = resolvedAt a /\
  closedAt b = closedAt a.
Proof.
  intros H.
  pose proof (f_equal doc_id H). pose proof (f_equal doc_title H).
  pose proof (f_equal doc_description H). pose proof (f_equal status H).
  pose proof (f_equal assignee H). pose proof (f_equal pendingAssignment H).
  pose proof (f_equal agentSuggestionId H). pose proof (f_equal replies H).
  pose proof (f_equal slaDeadline H). pose proof (f_equal resolvedAt H).
  pose proof (f_equal closedAt H).
  cbn in *. repeat split; congruence.
Qed.

Lemma stored_written doc l : stored (doc_id doc) (written doc l) = Some doc.
Proof.
  unfold stored, written.
  destruct (existsb (sameId (doc_id doc)) l) eqn:E.
  - induction l as [|d l IH]; [discriminate E|]. cbn [existsb map find] in *.
    destruct (sameId (doc_id doc) d) eqn:Ed.
    + unfold sameId at 1. now rewrite Nat.eqb_refl.
    + rewrite Ed. apply IH. exact E.
  - induction l as [|d l IH]; cbn [app find existsb] in *.
    + unfold sameId. now rewrite Nat.eqb_refl.
    + apply orb_false_iff in E. destruct E as [Ed El]. rewrite Ed. exact (IH El).
Qed.

Lemma stored_In id l doc : stored id l = Some doc -> In doc l /\ doc_id doc = id.
Proof.
  unfold stored. intros H. apply find_some in H. destruct H as [Hin Hid].
  split; [exact Hin|]. apply Nat.eqb_eq. exact Hid.
Qed.

(** What [save] does, whatever its outcome: it writes nothing but the
    document, and only a document that the schema accepts. *)
Lemma Ticket_save_outcome down doc desk o desk' :
  Ticket_save down doc desk = (o, desk') ->
  world desk' = world desk /\ today desk' = today desk /\
  (tickets desk' = tickets desk \/
   exists doc', validTicket doc /\ sameContent doc doc' /\
                tickets desk' = written doc' (tickets desk)) /\
  (forall doc', o = Resolved doc' ->
     validTicket doc /\ sameContent doc doc' /\
     stored (doc_id doc) (tickets desk') = Some doc').
Proof.
  unfold Ticket_save. unfold Task.bind at 1. rewrite lift_validate.
  destruct (failingPaths (ticketChecks doc)) as [|p ps] eqn:Ev.
  2:{ intros H. inversion H. subst.
      split; [reflexivity|]. split; [reflexivity|]. split; [left; reflexivity|].
      intros doc' H'. discriminate H'. }
  unfold Task.bind at 1, Task.get. unfold Task.bind at 1, newDate.
  cbv zeta.
  assert (Hwrite : forall doc2, sameContent doc doc2 ->
            (roundTrip down ;;
             Task.putTickets (written doc2 (tickets desk)) ;; Task.ret doc2)%task desk
            = (o, desk') ->
            world desk' = world desk /\ today desk' = today desk /\
            (tickets desk' = tickets desk \/
             exists doc', validTicket doc /\ sameContent doc doc' /\
                          tickets desk' = written doc' (tickets desk)) /\
            (forall doc', o = Resolved doc' ->
               validTicket doc /\ sameContent doc doc' /\
               stored (doc_id doc) (tickets desk') = Some doc')).
  { intros doc2 Hsame.
    unfold Task.bind, roundTrip, Task.putTickets, Task.ret.
    destruct (down (trips desk)); intros H; inversion H; subst;
      cbn [world today tickets setTickets addTrip].
    - split; [reflexivity|]. split; [reflexivity|]. split; [left; reflexivity|].
      intros doc' H'. discriminate H'.
    - split; [reflexivity|]. split; [reflexivity|]. split.
      + right. exists doc2. split; [exact Ev|]. split; [exact Hsame | reflexivity].
      + intros doc' H'. inversion H'. subst doc'.
        split; [exact Ev|]. split; [exact Hsame|].
        destruct (sameContent_fields _ _ Hsame) as (<- & _). apply stored_written. }
  destruct (stored (doc_id doc) (tickets desk)) as [before|] eqn:Eold.
  - destruct (TicketDoc_eq_dec before doc) as [Heq|Hne].
    + cbn [andb]. unfold Task.ret. intros H. inversion H. subst.
      split; [reflexivity|]. split; [reflexivity|]. split; [left; reflexivity|].
      intros doc' H'. inversion H'. subst doc'.
      split; [exact Ev|]. split; [reflexivity|]. exact Eold.
    + cbn [andb]. apply Hwrite.
      destruct (negb (negb _)); reflexivity.
  - cbn [andb negb]. apply Hwrite.
    cbn [createdAt set_lastActivity]. destruct (createdAt doc); reflexivity.
Qed.

Lemma Ticket_save_runs down doc desk :
  validTicket doc -> (forall n, down n = None) ->
  exists doc' desk',
    Ticket_save down doc desk = (Resolved doc', desk') /\
    sameContent doc doc' /\
    stored (doc_id doc) (tickets desk') = Some doc' /\
    world desk' = world desk /\ today desk' = today desk.
Proof.
  intros Hv Hup.
  destruct (Ticket_save down doc desk) as [[doc'|e] desk'] eqn:E.
  - destruct (Ticket_save_outcome _ _ _ _ _ E) as (Hw & Ht & _ & Hr).
    destruct (Hr doc' eq_refl) as (_ & Hsame & Hst).
    exists doc', desk'. repeat split; assumption.
  - exfalso. revert E. unfold Ticket_save. unfold Task.bind at 1.
    rewrite lift_validate. unfold validTicket in Hv. rewrite Hv.
    unfold Task.bind at 1, Task.get. unfold Task.bind at 1, newDate. cbv zeta.
    destruct (stored (doc_id doc) (tickets desk)) as [before|].
    + destruct (TicketDoc_eq_dec before doc); cbn [andb];
        unfold Task.bind, roundTrip, Task.putTickets, Task.ret; rewrite ?Hup;
        intros H; discriminate H.
    + unfold Task.bind, roundTrip, Task.putTickets, Task.ret. rewrite Hup.
      intros H; discriminate H.
Qed.

Lemma Ticket_save_invalid down doc desk path :
  In (path, false) (ticketChecks doc) ->
  exists paths,
    In path paths /\
    Ticket_save down doc desk = (Rejected (ValidationError "Ticket" paths), desk).
Proof.
  intros Hin. unfold Ticket_save. unfold Task.bind at 1. rewrite lift_validate.
  assert (Hp : In path (failingPaths (ticketChecks doc))).
  { unfold failingPaths. apply in_map_iff. exists (path, false). split; [reflexivity|].
    apply filter_In. split; [exact Hin | reflexivity]. }
  destruct (failingPaths (ticketChecks doc)) as [|p ps]; [destruct Hp|].
  exists (p :: ps). split; [exact Hp | reflexivity].
Qed.

(** *** The schema and the assignments to a document *)

Ltac unchanged_check Hv E :=
  apply pair_equal_spec in E; destruct E as [_ <-];
  eapply (proj1 (failingPaths_nil _) Hv); unfold ticketChecks;
  apply in_or_app; left; cbn [In];
  repeat first [left; reflexivity | right].

Lemma valid_set_status s doc :
  validTicket doc -> In s ticketStatuses -> validTicket (set_status s doc).
Proof.
  intros Hv Hs. apply failingPaths_nil. intros path b Hin.
  unfold ticketChecks in Hin. cbn [set_status doc_title doc_description doc_category
    status priority createdBy attachmentUrl pendingAssignment replies tags] in Hin.
  apply in_app_or in Hin. destruct Hin as [Hin|Hin].
  - cbn [In] in Hin.
    destruct Hin as [E|[E|[E|[E|[E|[E|[E|[E|[]]]]]]]]];
      try solve [unchanged_check Hv E].
    apply pair_equal_spec in E. destruct E as [_ <-]. apply oneOf_In. exact Hs.
  - apply (proj1 (failingPaths_nil _) Hv path b). unfold ticketChecks.
    apply in_or_app. right. exact Hin.
Qed.

Lemma valid_set_pendingAssignment request doc :
  validTicket doc ->
  match pa_status request with
  | Some s => In s assignmentStatuses
  | None => True
  end ->
  validTicket (set_pendingAssignment (Some request) doc).
Proof.
  intros Hv Hs. apply failingPaths_nil. intros path b Hin.
  unfold ticketChecks in Hin. cbn [set_pendingAssignment doc_title doc_description
    doc_category status priority createdBy attachmentUrl pendingAssignment replies tags]
    in Hin.
  apply in_app_or in Hin. destruct Hin as [Hin|Hin].
  - cbn [In] in Hin.
    destruct Hin as [E|[E|[E|[E|[E|[E|[E|[E|[]]]]]]]]];
      try solve [unchanged_check Hv E].
    apply pair_equal_spec in E. destruct E as [_ <-].
    destruct request as [rb ra [s|] an]; cbn [pa_status] in *; [|reflexivity].
    apply oneOf_In. exact Hs.
  - apply (proj1 (failingPaths_nil _) Hv path b). unfold ticketChecks.
    apply in_or_app. right. exact Hin.
Qed.

Lemma replyChecks_app index l r :
  replyChecks index (l ++ [r])
  = (replyChecks index l ++ replyChecks (index + List.length l) [r])%list.
Proof.
  revert index. induction l as [|x l IH]; intros index; cbn [app replyChecks List.length].
  - now rewrite Nat.add_0_r.
  - rewrite IH. now rewrite Nat.add_succ_r.
Qed.

Lemma In_checks_pushed r doc path b :
  In (path, b) (ticketChecks (set_replies (replies doc ++ [r]) doc)) <->
  In (path, b) (ticketChecks doc) \/
  In (path, b) (replyChecks (List.length (replies doc)) [r]).
Proof.
  unfold ticketChecks. cbn [set_replies doc_title doc_description doc_category status
    priority createdBy attachmentUrl pendingAssignment replies tags].
  rewrite replyChecks_app. cbn [Nat.add].
  match goal with
  | |- In _ (?fixed ++ _) <-> _ => generalize fixed
  end.
  intros fixed. rewrite !in_app_iff. tauto.
Qed.

(* ------------------------------------------------------------------ *)
(** ** The assignment of a ticket: request, approval, rejection *)

Lemma pendingIs_status s doc request :
  pendingAssignment doc = Some request ->
  pendingIs s doc = match pa_status request with
                    | Some s' => String.eqb s' s
                    | None => false
                    end.
Proof. intros H. unfold pendingIs. rewrite H. destruct request. reflexivity. Qed.

Lemma requestedByAgent_request agentId doc request :
  pendingAssignment doc = Some request ->
  requestedByAgent agentId doc = match requestedBy request with
                                 | Some agent => (agent =? agentId)%nat
                                 | None => false
                                 end.
Proof. intros H. unfold requestedByAgent. rewrite H. destruct request. reflexivity. Qed.

Lemma requestAssignment_runs down agentId doc desk :
  validTicket doc -> (forall n, down n = None) ->
  assignee doc = None -> pendingIs "pending" doc = false ->
  requestedByAgent agentId doc = false ->
  exists doc' desk',
    requestAssignment down agentId doc desk = (Resolved doc', desk') /\
    pendingAssignment doc' = Some (pendingRequest agentId (today desk)) /\
    assignee doc' = None /\ status doc' = status doc /\
    doc_id doc' = doc_id doc /\ validTicket doc' /\
    stored (doc_id doc) (tickets desk') = Some doc' /\
    world desk' = world desk /\ today desk' = today desk.
Proof.
  intros Hv Hup Ha Hp Hr. unfold requestAssignment. rewrite Ha, Hp, Hr. cbn [isSome].
  unfold Task.bind at 1, newDate.
  set (doc1 := set_pendingAssignment (Some (pendingRequest agentId (today desk))) doc).
  assert (Hv1 : validTicket doc1).
  { apply valid_set_pendingAssignment; [exact Hv|]. cbn. tauto. }
  destruct (Ticket_save_runs down doc1 desk Hv1 Hup)
    as (doc' & desk' & Hrun & Hsame & Hst & Hw & Ht).
  destruct (sameContent_fields _ _ Hsame)
    as (Hid & _ & _ & Hstatus & Hassignee & Hpending & _).
  exists doc', desk'. split; [exact Hrun|]. split; [exact Hpending|].
  split; [rewrite Hassignee; exact Ha|]. split; [exact Hstatus|].
  split; [exact Hid|]. split; [exact (sameContent_valid _ _ Hsame Hv1)|].
  split; [exact Hst|]. split; assumption.
Qed.

Lemma approveAssignment_runs down notes doc desk request :
  validTicket doc -> (forall n, down n = None) ->
  pendingAssignment doc = Some request -> pa_status request = Some "pending" ->
  exists doc' desk',
    approveAssignment down notes doc desk = (Resolved doc', desk') /\
    assignee doc' = requestedBy request /\
    pendingAssignment doc'
    = Some {| requestedBy := requestedBy request; requestedAt := requestedAt request;
              pa_status := Some "approved";
              adminNotes := notesOr notes (adminNotes request) |} /\
    status doc' = (if String.eqb (status doc) "triaged"
                      || String.eqb (status doc) "waiting_human"
                   then "in_progress" else status doc) /\
    doc_id doc' = doc_id doc /\ validTicket doc' /\
    stored (doc_id doc) (tickets desk') = Some doc' /\
    world desk' = world desk /\ today desk' = today desk.
Proof.
  intros Hv Hup Hp Hs. unfold approveAssignment.
  rewrite (pendingIs_status _ _ _ Hp), Hp, Hs. cbn [String.eqb Ascii.eqb Bool.eqb].
  cbv zeta. unfold Task.bind at 1, newDate.
  cbn [status set_pendingAssignment set_assignee].
  match goal with
  | |- context [Ticket_save down ?d desk] => set (doc1 := d)
  end.
  assert (Hv1 : validTicket doc1).
  { subst doc1.
    assert (Hv0 : validTicket
                    (set_pendingAssignment
                       (Some {| requestedBy := requestedBy request;
                                requestedAt := requestedAt request;
                                pa_status := Some "approved";
                                adminNotes := notesOr notes (adminNotes request) |})
                       (set_assignee (requestedBy request) doc))).
    { apply valid_set_pendingAssignment; [exact Hv | cbn; tauto]. }
    match goal with
    | |- validTicket (set_lastActivity ?d ?x) =>
        apply (sameContent_valid x); [reflexivity|]
    end.
    destruct (String.eqb (status doc) "triaged" || String.eqb (status doc) "waiting_human").
    - apply valid_set_status; [exact Hv0 | cbn; tauto].
    - exact Hv0. }
  destruct (Ticket_save_runs down doc1 desk Hv1 Hup)
    as (doc' & desk' & Hrun & Hsame & Hst & Hw & Ht).
  destruct (sameContent_fields _ _ Hsame)
    as (Hid & _ & _ & Hstatus & Hassignee & Hpending & _).
  assert (Hid1 : doc_id doc1 = doc_id doc).
  { subst doc1. destruct (_ || _); reflexivity. }
  exists doc', desk'. split; [exact Hrun|].
  split; [rewrite Hassignee; subst doc1; destruct (_ || _); reflexivity|].
  split; [rewrite Hpending; subst doc1; destruct (_ || _); reflexivity|].
  split; [rewrite Hstatus; subst doc1; destruct (_ || _); reflexivity|].
  split; [congruence|]. split; [exact (sameContent_valid _ _ Hsame Hv1)|].
  split; [rewrite <- Hid1; exact Hst|]. split; assumption.
Qed.

Lemma rejectAssignment_runs down notes doc desk request :
  validTicket doc -> (forall n, down n = None) ->
  pendingAssignment doc = Some request -> pa_status request = Some "pending" ->
  exists doc' desk',
    rejectAssignment down notes doc desk = (Resolved doc', desk') /\
    assignee doc' = assignee doc /\
    pendingAssignment doc'
    = Some {| requestedBy := None; requestedAt := None;
              pa_status := Some "rejected"; adminNotes := notesOr notes None |} /\
    status doc' = status doc /\
    doc_id doc' = doc_id doc /\ validTicket doc' /\
    stored (doc_id doc) (tickets desk') = Some doc' /\
    world desk' = world desk /\ today desk' = today desk.
Proof.
  intros Hv Hup Hp Hs. unfold rejectAssignment.
  rewrite (pendingIs_status _ _ _ Hp), Hs. cbn [String.eqb Ascii.eqb Bool.eqb].
  cbv zeta. unfold Task.bind at 1, newDate.
  match goal with
  | |- context [Ticket_save down ?d desk] => set (doc1 := d)
  end.
  assert (Hv1 : validTicket doc1).
  { subst doc1.
    match goal with
    | |- validTicket (set_lastActivity ?d ?x) =>
        apply (sameContent_valid x); [reflexivity|]
    end.
    apply valid_set_pendingAssignment; [exact Hv | cbn; tauto]. }
  destruct (Ticket_save_runs down doc1 desk Hv1 Hup)
    as (doc' & desk' & Hrun & Hsame & Hst & Hw & Ht).
  destruct (sameContent_fields _ _ Hsame)
    as (Hid & _ & _ & Hstatus & Hassignee & Hpending & _).
  pose proof (sameContent_valid _ _ Hsame Hv1) as Hv'.
  subst doc1.
  cbn [doc_id status assignee pendingAssignment set_lastActivity set_pendingAssignment]
    in Hid, Hstatus, Hassignee, Hpending, Hst.
  exists doc', desk'. repeat split; assumption.
Qed.

Lemma not_pending_refused down notes doc desk :
  pendingIs "pending" doc = false ->
  approveAssignment down notes doc desk
  = (Rejected (thrown "No pending assignment request to approve"), desk) /\
  rejectAssignment down notes doc desk
  = (Rejected (thrown "No pending assignment request to reject"), desk).
Proof.
  intros Hp. unfold approveAssignment, rejectAssignment. rewrite Hp.
  destruct (pendingAssignment doc); split; reflexivity.
Qed.

Lemma settled_after_request agentId date doc' :
  pendingAssignment doc' = Some (pendingRequest agentId date) -> settled doc'.
Proof.
  intros Hp Hr. rewrite (pendingIs_status _ _ _ Hp) in Hr. discriminate Hr.
Qed.

(** X10.  [canRequestAssignment] tells what [requestAssignment] will do,
    for every ticket in which a rejected request names no agent (what
    [rejectAssignment] leaves): when it answers no, [requestAssignment]
    throws the reason it gives and writes nothing; when it answers yes, the
    request goes through, and on a valid ticket and a healthy connection it
    is stored as pending under the name of the agent. *)
Theorem canRequestAssignment_agrees down agentId doc desk :
  settled doc ->
  match reason (canRequestAssignment agentId doc) with
  | Some message =>
      canRequest (canRequestAssignment agentId doc) = false /\
      requestAssignment down agentId doc desk = (Rejected (thrown message), desk)
  | None =>
      canRequest (canRequestAssignment agentId doc) = true /\
      (validTicket doc -> (forall n, down n = None) ->
       exists doc' desk',
         requestAssignment down agentId doc desk = (Resolved doc', desk') /\
         pendingAssignment doc' = Some (pendingRequest agentId (today desk)) /\
         stored (doc_id doc) (tickets desk') = Some doc')
  end.
Proof.
  intros Hs.
  assert (Hgo : assignee doc = None -> pendingIs "pending" doc = false ->
                requestedByAgent agentId doc = false ->
                validTicket doc -> (forall n, down n = None) ->
                exists doc' desk',
                  requestAssignment down agentId doc desk = (Resolved doc', desk') /\
                  pendingAssignment doc' = Some (pendingRequest agentId (today desk)) /\
                  stored (doc_id doc) (tickets desk') = Some doc').
  { intros Ha Hp Hr Hv Hup.
    destruct (requestAssignment_runs down agentId doc desk Hv Hup Ha Hp Hr)
      as (doc' & desk' & Hrun & Hpa & _ & _ & _ & _ & Hst & _).
    exists doc', desk'. repeat split; assumption. }
  unfold canRequestAssignment. unfold requestAssignment at 1.
  destruct (assignee doc) as [agent|] eqn:Ha; cbn [isSome reason canRequest];
    [split; reflexivity|].
  destruct (pendingIs "pending" doc) eqn:Hp; cbn [reason canRequest];
    [split; reflexivity|].
  destruct (pendingIs "rejected" doc) eqn:Hr; cbn [reason canRequest].
  - split; [reflexivity|]. apply Hgo; try reflexivity.
    specialize (Hs Hr). unfold requestedByAgent.
    destruct (pendingAssignment doc) as [[rb ra st an]|]; [|reflexivity].
    cbn [requestedBy] in Hs. now subst rb.
  - destruct (requestedByAgent agentId doc) eqn:Hq; cbn [reason canRequest].
    + split; reflexivity.
    + split; [reflexivity|]. apply Hgo; reflexivity.
Qed.

Lemma canRequestAssignment_agrees_witness :
  settled Counter.invoice /\
  exists doc' desk',
    requestAssignment Counter.up 31 Counter.invoice Counter.desk
    = (Resolved doc', desk') /\
    pendingAssignment doc' = Some (pendingRequest 31 (today Counter.desk)) /\
    stored (doc_id Counter.invoice) (tickets desk') = Some doc'.
Proof.
  assert (Hs : settled Counter.invoice) by (intros H; discriminate H).
  split; [exact Hs|].
  destruct (canRequestAssignment_agrees Counter.up 31 Counter.invoice Counter.desk Hs)
    as [_ Hgo].
  apply Hgo; reflexivity.
Defined.

Lemma canRequest_guards agentId doc :
  canRequest (canRequestAssignment agentId doc) = true -> settled doc ->
  assignee doc = None /\ pendingIs "pending" doc = false /\
  requestedByAgent agentId doc = false.
Proof.
  unfold canRequestAssignment. intros Hc Hs.
  destruct (assignee doc) as [agent|]; cbn [isSome canRequest] in Hc;
    [discriminate Hc|].
  destruct (pendingIs "pending" doc); cbn [canRequest] in Hc; [discriminate Hc|].
  split; [reflexivity|]. split; [reflexivity|].
  destruct (pendingIs "rejected" doc) eqn:Hr.
  - specialize (Hs Hr). unfold requestedByAgent.
    destruct (pendingAssignment doc) as [[rb ra st an]|]; [|reflexivity].
    cbn [requestedBy] in Hs. now subst rb.
  - destruct (requestedByAgent agentId doc); [discriminate Hc | reflexivity].
Qed.

(** X11.  A request that is approved makes the agent who asked the
    assignee: on a valid ticket that the agent may request, over a healthy
    connection, [requestAssignment] followed by [approveAssignment] stores
    the ticket with that agent as assignee and the request marked approved;
    a ticket that was triaged or waiting for a human is then in progress,
    any other status is kept.  From then on nobody can request the ticket,
    and there is nothing left to approve or to reject. *)
Theorem request_then_approve down agentId notes doc desk :
  validTicket doc -> (forall n, down n = None) ->
  canRequest (canRequestAssignment agentId doc) = true -> settled doc ->
  exists requested desk1 approved desk2,
    requestAssignment down agentId doc desk = (Resolved requested, desk1) /\
    approveAssignment down notes requested desk1 = (Resolved approved, desk2) /\
    stored (doc_id doc) (tickets desk2) = Some approved /\
    assignee approved = Some agentId /\
    pendingIs "approved" approved = true /\
    status approved = (if String.eqb (status doc) "triaged"
                          || String.eqb (status doc) "waiting_human"
                       then "in_progress" else status doc) /\
    (forall other,
        canRequestAssignment other approved
        = {| canRequest := false;
             reason := Some "Ticket is already assigned to an agent" |}) /\
    (forall other desk',
        requestAssignment down other approved desk'
        = (Rejected (thrown "Ticket is already assigned to an agent"), desk')) /\
    (forall notes' desk',
        approveAssignment down notes' approved desk'
        = (Rejected (thrown "No pending assignment request to approve"), desk') /\
        rejectAssignment down notes' approved desk'
        = (Rejected (thrown "No pending assignment request to reject"), desk')).
Proof.
  intros Hv Hup Hc Hs.
  destruct (canRequest_guards agentId doc Hc Hs) as (Ha & Hp & Hr).
  destruct (requestAssignment_runs down agentId doc desk Hv Hup Ha Hp Hr)
    as (requested & desk1 & Hrun1 & Hpa1 & _ & Hst1 & Hid1 & Hv1 & _).
  destruct (approveAssignment_runs down notes requested desk1 _ Hv1 Hup Hpa1 eq_refl)
    as (approved & desk2 & Hrun2 & Ha2 & Hpa2 & Hst2 & Hid2 & _ & Hstored & _).
  exists requested, desk1, approved, desk2.
  split; [exact Hrun1|]. split; [exact Hrun2|].
  split; [rewrite <- Hid1; exact Hstored|].
  split; [exact Ha2|].
  assert (Hnot : pendingIs "pending" approved = false)
    by (rewrite (pendingIs_status _ _ _ Hpa2); reflexivity).
  split; [rewrite (pendingIs_status _ _ _ Hpa2); reflexivity|].
  split; [rewrite Hst2, Hst1; reflexivity|].
  split; [intros other; unfold canRequestAssignment; rewrite Ha2; reflexivity|].
  split; [intros other desk'; unfold requestAssignment; rewrite Ha2; reflexivity|].
  intros notes' desk'. apply not_pending_refused. exact Hnot.
Qed.

Lemma request_then_approve_witness :
  exists approved desk2,
    stored 7 (tickets desk2) = Some approved /\
    assignee approved = Some 31 /\
    status approved = "open".
Proof.
  assert (Hs : settled Counter.invoice) by (intros H; discriminate H).
  assert (Hv : validTicket Counter.invoice) by reflexivity.
  assert (Hup : forall n, Counter.up n = None) by reflexivity.
  destruct (request_then_approve Counter.up 31 (Some "ok") Counter.invoice Counter.desk
              Hv Hup eq_refl Hs)
    as (requested & desk1 & approved & desk2 & _ & _ & Hst & Ha & _ & Hstatus & _).
  exists approved, desk2. repeat split; assumption.
Defined.

(** X12.  A request that is rejected frees the ticket again: while the
    request is pending every further request is turned down; once
    [rejectAssignment] has run, the ticket is stored with no assignee and
    with a rejected request that names nobody, and the same agent may
    request it once more. *)
Theorem reject_then_request_again down agentId notes doc desk :
  validTicket doc -> (forall n, down n = None) ->
  canRequest (canRequestAssignment agentId doc) = true -> settled doc ->
  exists requested desk1 rejected desk2 again desk3,
    requestAssignment down agentId doc desk = (Resolved requested, desk1) /\
    (forall other desk',
        requestAssignment down other requested desk'
        = (Rejected (thrown "Ticket already has a pending assignment request"),
           desk')) /\
    rejectAssignment down notes requested desk1 = (Resolved rejected, desk2) /\
    assignee rejected = None /\
    pendingAssignment rejected
    = Some {| requestedBy := None; requestedAt := None;
              pa_status := Some "rejected"; adminNotes := notesOr notes None |} /\
    canRequest (canRequestAssignment agentId rejected) = true /\
    requestAssignment down agentId rejected desk2 = (Resolved again, desk3) /\
    pendingAssignment again = Some (pendingRequest agentId (today desk)) /\
    stored (doc_id doc) (tickets desk3) = Some again.
Proof.
  intros Hv Hup Hc Hs.
  destruct (canRequest_guards agentId doc Hc Hs) as (Ha & Hp & Hr).
  destruct (requestAssignment_runs down agentId doc desk Hv Hup Ha Hp Hr)
    as (requested & desk1 & Hrun1 & Hpa1 & Ha1 & _ & Hid1 & Hv1 & _ & _ & Ht1).
  destruct (rejectAssignment_runs down notes requested desk1 _ Hv1 Hup Hpa1 eq_refl)
    as (rejected & desk2 & Hrun2 & Ha2 & Hpa2 & _ & Hid2 & Hv2 & _ & _ & Ht2).
  rewrite Ha1 in Ha2.
  assert (Hp2 : pendingIs "pending" rejected = false)
    by (rewrite (pendingIs_status _ _ _ Hpa2); reflexivity).
  assert (Hr2 : requestedByAgent agentId rejected = false)
    by (rewrite (requestedByAgent_request _ _ _ Hpa2); reflexivity).
  destruct (requestAssignment_runs down agentId rejected desk2 Hv2 Hup Ha2 Hp2 Hr2)
    as (again & desk3 & Hrun3 & Hpa3 & _ & _ & _ & _ & Hstored & _).
  exists requested, desk1, rejected, desk2, again, desk3.
  split; [exact Hrun1|].
  split.
  { intros other desk'. unfold requestAssignment.
    rewrite Ha1, (pendingIs_status _ _ _ Hpa1). reflexivity. }
  split; [exact Hrun2|]. split; [exact Ha2|]. split; [exact Hpa2|].
  split.
  { unfold canRequestAssignment. rewrite Ha2, Hp2.
    rewrite (pendingIs_status _ _ _ Hpa2). reflexivity. }
  split; [exact Hrun3|].
  split; [rewrite Hpa3, Ht2, Ht1; reflexivity|].
  rewrite <- Hid1, <- Hid2. exact Hstored.
Qed.

Lemma reject_then_request_again_witness :
  exists rejected again desk3,
    assignee rejected = None /\
    canRequest (canRequestAssignment 31 rejected) = true /\
    pendingAssignment again = Some (pendingRequest 31 (today Counter.desk)) /\
    stored 7 (tickets desk3) = Some again.
Proof.
  assert (Hs : settled Counter.invoice) by (intros H; discriminate H).
  assert (Hv : validTicket Counter.invoice) by reflexivity.
  assert (Hup : forall n, Counter.up n = None) by reflexivity.
  destruct (reject_then_request_again Counter.up 31 None Counter.invoice Counter.desk
              Hv Hup eq_refl Hs)
    as (requested & desk1 & rejected & desk2 & again & desk3
        & _ & _ & _ & Ha & _ & Hc & _ & Hp & Hst).
  exists rejected, again, desk3. repeat split; assumption.
Defined.

(* ------------------------------------------------------------------ *)
(** ** Replies *)

Lemma lengthWithin_spec lo hi s :
  0 < lo -> (lengthWithin lo hi s = true <-> lo <= String.length s <= hi).
Proof.
  intros Hlo. unfold lengthWithin.
  rewrite !andb_true_iff, !Nat.leb_le, truthy_iff. split.
  - intros [[_ H1] H2]. lia.
  - intros [H1 H2]. split; [split|]; try assumption.
    intros ->. cbn [String.length] in H1. lia.
Qed.

(** X13.  [addReply] appends: on a valid ticket and a healthy connection,
    a reply with an author and a content of 1 to 5000 characters is stored
    at the end of the replies, in front of nothing, and the ticket records
    the moment as its last activity.  A reply without an author, or with an
    empty or too long content, is turned down by the schema under the path
    of the new element, and nothing is written. *)
Theorem addReply_appends_or_rejects down authorId content internal doc desk :
  validTicket doc -> (forall n, down n = None) ->
  let entry := {| reply_author := authorId; reply_content := content;
                  isInternal := internal; reply_createdAt := today desk |} in
  let position := Str.ofNat (List.length (replies doc)) in
  (authorId <> None -> 1 <= String.length content <= 5000 ->
   exists doc' desk',
     addReply down authorId content internal doc desk = (Resolved doc', desk') /\
     replies doc' = (replies doc ++ [entry])%list /\
     lastActivity doc' = today desk /\
     stored (doc_id doc) (tickets desk') = Some doc') /\
  (authorId = None ->
   exists paths,
     In ("replies." ++ position ++ ".author") paths /\
     addReply down authorId content internal doc desk
     = (Rejected (ValidationError "Ticket" paths), desk)) /\
  (content = "" \/ 5000 < String.length content ->
   exists paths,
     In ("replies." ++ position ++ ".content") paths /\
     addReply down authorId content internal doc desk
     = (Rejected (ValidationError "Ticket" paths), desk)).
Proof.
  intros Hv Hup entry position.
  assert (Hadd : addReply down authorId content internal doc desk
                 = Ticket_save down
                     (set_lastActivity (today desk)
                        (set_replies (replies doc ++ [entry])%list doc)) desk)
    by reflexivity.
  assert (Hchecks : forall path b,
             In (path, b) (replyChecks (List.length (replies doc)) [entry]) ->
             In (path, b)
                (ticketChecks (set_lastActivity (today desk)
                                 (set_replies (replies doc ++ [entry])%list doc)))).
  { intros path b Hin.
    change (In (path, b) (ticketChecks (set_replies (replies doc ++ [entry])%list doc))).
    apply In_checks_pushed. right. exact Hin. }
  split; [|split].
  - intros Hauthor Hlen. rewrite Hadd.
    set (doc1 := set_lastActivity (today desk)
                   (set_replies (replies doc ++ [entry])%list doc)).
    assert (Hv1 : validTicket doc1).
    { apply failingPaths_nil. intros path b Hin.
      change (In (path, b) (ticketChecks (set_replies (replies doc ++ [entry])%list doc)))
        in Hin.
      apply In_checks_pushed in Hin. destruct Hin as [Hin|Hin].
      - exact (proj1 (failingPaths_nil _) Hv path b Hin).
      - cbn [replyChecks In] in Hin. destruct Hin as [E|[E|[]]];
          apply pair_equal_spec in E; destruct E as [_ <-]; cbn [entry reply_author
            reply_content].
        + destruct authorId; [reflexivity | now elim Hauthor].
        + apply lengthWithin_spec; lia. }
    pose proof Hv1 as Hv1'.
    destruct (Ticket_save down doc1 desk) as [[doc'|e] desk'] eqn:E.
    2:{ destruct (Ticket_save_runs down doc1 desk Hv1 Hup) as (d & k & Hrun & _).
        rewrite Hrun in E. discriminate E. }
    destruct (Ticket_save_outcome _ _ _ _ _ E) as (_ & _ & _ & Hr).
    destruct (Hr doc' eq_refl) as (_ & Hsame & Hst).
    destruct (sameContent_fields _ _ Hsame) as (_ & _ & _ & _ & _ & _ & _ & Hreplies & _).
    exists doc', desk'. split; [reflexivity|]. split; [exact Hreplies|].
    split; [|exact Hst]. clear Hsame Hst Hreplies.
    revert E. unfold Ticket_save. unfold Task.bind at 1. rewrite lift_validate.
    unfold validTicket in Hv1'. rewrite Hv1'.
    unfold Task.bind at 1, Task.get. unfold Task.bind at 1, newDate. cbv zeta.
    destruct (stored (doc_id doc1) (tickets desk)) as [before|].
    + destruct (TicketDoc_eq_dec before doc1); cbn [andb].
      * unfold Task.ret. intros H. injection H as Hd Hk. rewrite <- Hd.
        reflexivity.
      * unfold Task.bind, roundTrip, Task.putTickets, Task.ret. rewrite Hup.
        intros H. injection H as Hd Hk. rewrite <- Hd.
        destruct (negb (negb _)); reflexivity.
    + cbn [andb negb]. unfold Task.bind, roundTrip, Task.putTickets, Task.ret.
      rewrite Hup. intros H. injection H as Hd Hk. rewrite <- Hd.
      destruct (createdAt doc); reflexivity.
  - intros ->. rewrite Hadd. apply Ticket_save_invalid. apply Hchecks.
    cbn [replyChecks In entry reply_author isSome]. left. reflexivity.
  - intros Hbad. rewrite Hadd. apply Ticket_save_invalid. apply Hchecks.
    cbn [replyChecks In entry reply_content]. right. left. f_equal.
    destruct (lengthWithin 1 5000 content) eqn:E; [|reflexivity].
    apply lengthWithin_spec in E; [|lia].
    destruct Hbad as [->|Hbad]; [cbn [String.length] in E|]; lia.
Qed.

Lemma addReply_appends_or_rejects_witness :
  (exists doc' desk',
      addReply Counter.up (Some 21) "Thank you" false Counter.invoice Counter.desk
      = (Resolved doc', desk') /\
      List.length (replies doc') = 1 /\
      stored 7 (tickets desk') = Some doc') /\
  (exists paths,
      In "replies.0.author" paths /\
      addReply Counter.up None "Thank you" false Counter.invoice Counter.desk
      = (Rejected (ValidationError "Ticket" paths), Counter.desk)).
Proof.
  assert (Hv : validTicket Counter.invoice) by reflexivity.
  assert (Hup : forall n, Counter.up n = None) by reflexivity.
  split.
  - destruct (addReply_appends_or_rejects Counter.up (Some 21) "Thank you" false
                Counter.invoice Counter.desk Hv Hup) as (Hok & _).
    destruct Hok as (doc' & desk' & Hrun & Hreplies & _ & Hst).
    { intros H; discriminate H. }
    { cbn; lia. }
    exists doc', desk'. split; [exact Hrun|]. split; [now rewrite Hreplies | exact Hst].
  - destruct (addReply_appends_or_rejects Counter.up None "Thank you" false
                Counter.invoice Counter.desk Hv Hup) as (_ & Hbad & _).
    exact (Hbad eq_refl).
Defined.

(* ------------------------------------------------------------------ *)
(** ** Deadlines *)

Lemma insertAsc_perm {A : Type} (key : A -> Z) x l :
  Permutation (x :: l) (insertAsc key x l).
Proof.
  induction l as [|y l IH]; cbn [insertAsc]; [reflexivity|].
  destruct (key x <? key y)%Z; [reflexivity|].
  rewrite perm_swap. now apply perm_skip.
Qed.

Lemma sortAsc_perm {A : Type} (key : A -> Z) l : Permutation (sortAsc key l) l.
Proof.
  induction l as [|x l IH]; cbn [sortAsc fold_right]; [reflexivity|].
  rewrite <- insertAsc_perm. now apply perm_skip.
Qed.

Lemma insertAsc_sorted {A : Type} (key : A -> Z) x l :
  StronglySorted (fun a b => (key a <= key b)%Z) l ->
  StronglySorted (fun a b => (key a <= key b)%Z) (insertAsc key x l).
Proof.
  induction l as [|y l IH]; cbn [insertAsc]; intros Hs.
  - constructor; constructor.
  - inversion Hs as [|? ? Hl Hy]. subst.
    destruct (Z.ltb_spec (key x) (key y)) as [Hlt|Hge].
    + constructor; [exact Hs|]. constructor; [lia|].
      rewrite Forall_forall in *. intros b Hb. specialize (Hy b Hb). lia.
    + constructor; [exact (IH Hl)|].
      rewrite Forall_forall in *. intros b Hb.
      apply (Permutation_in _ (Permutation_sym (insertAsc_perm key x l))) in Hb.
      destruct Hb as [<-|Hb]; [lia | exact (Hy b Hb)].
Qed.

Lemma sortAsc_sorted {A : Type} (key : A -> Z) l :
  StronglySorted (fun a b => (key a <= key b)%Z) (sortAsc key l).
Proof.
  induction l as [|x l IH]; cbn [sortAsc fold_right]; [constructor|].
  apply insertAsc_sorted. exact IH.
Qed.

Lemma StronglySorted_weaken {A : Type} (R S : A -> A -> Prop) l :
  (forall a b, R a b -> S a b) -> StronglySorted R l -> StronglySorted S l.
Proof.
  intros HRS. induction 1 as [|a l Hl IH Ha]; constructor; [exact IH|].
  revert Ha. apply Forall_impl. exact (HRS a).
Qed.

Lemma overdue_breached now doc :
  overdue now doc = String.eqb (slaStatus now doc) "breached".
Proof.
  unfold overdue, slaStatus, oneOf. cbn [existsb].
  destruct (slaDeadline doc) as [deadline|]; [|reflexivity].
  destruct (String.eqb (status doc) "resolved"), (String.eqb (status doc) "closed");
    cbn [orb negb andb]; rewrite ?andb_false_r; try reflexivity.
  rewrite andb_true_r.
  destruct (Z.ltb_spec deadline now), (Z.ltb_spec (deadline - now) 0); try lia;
    [reflexivity|].
  destruct (deadline - now <? 2 * 60 * 60 * 1000)%Z; reflexivity.
Qed.

(** X14.  [getOverdueTickets] finds the tickets whose [slaStatus] reads
    breached at that moment, each as often as it is stored, and returns
    them by deadline, the earliest first; it reads and writes nothing.
    When the connection is down it rejects with the error of the
    connection. *)
Theorem getOverdueTickets_lists_breached down desk :
  match down (trips desk) with
  | Some message =>
      getOverdueTickets down desk = (Rejected (ExternalError message), addTrip desk)
  | None =>
      exists found,
        getOverdueTickets down desk = (Resolved found, addTrip desk) /\
        Permutation found
          (filter (fun doc => String.eqb (slaStatus (today desk) doc) "breached")
                  (tickets desk)) /\
        StronglySorted
          (fun a b => forall da db,
               slaDeadline a = Some da -> slaDeadline b = Some db -> (da <= db)%Z)
          found
  end.
Proof.
  unfold getOverdueTickets, Task.bind, newDate, roundTrip, Task.get, Task.ret.
  destruct (down (trips desk)) as [message|]; [reflexivity|].
  cbn [tickets addTrip].
  eexists. split; [reflexivity|]. split.
  - rewrite sortAsc_perm.
    rewrite (filter_ext _ _ (overdue_breached (today desk))). reflexivity.
  - eapply StronglySorted_weaken; [|apply sortAsc_sorted].
    cbn beta. intros a b Hab da db Ha Hb. rewrite Ha, Hb in Hab. exact Hab.
Qed.

(** X15.  As time passes, the [slaStatus] of a ticket that is not touched
    only moves from on track to at risk to breached: a ticket that is
    breached stays breached, one at risk stays so or becomes breached, and
    the answers met and no_sla do not depend on the time. *)
Theorem slaStatus_over_time now later doc :
  (now <= later)%Z ->
  (slaStatus now doc = "breached" -> slaStatus later doc = "breached") /\
  (slaStatus now doc = "at_risk" ->
   slaStatus later doc = "at_risk" \/ slaStatus later doc = "breached") /\
  (slaStatus now doc = "met" <-> slaStatus later doc = "met") /\
  (slaStatus now doc = "no_sla" <-> slaStatus later doc = "no_sla") /\
  In (slaStatus now doc) ["no_sla"; "met"; "breached"; "at_risk"; "on_track"].
Proof.
  intros Hle. unfold slaStatus.
  destruct (slaDeadline doc) as [deadline|].
  2:{ cbn [In]. repeat split; intros; try discriminate; tauto. }
  destruct (String.eqb (status doc) "resolved" || String.eqb (status doc) "closed").
  { cbn [In]. repeat split; intros; try discriminate; tauto. }
  cbv zeta.
  destruct (Z.ltb_spec (deadline - now) 0), (Z.ltb_spec (deadline - later) 0),
    (Z.ltb_spec (deadline - now) (2 * 60 * 60 * 1000)),
    (Z.ltb_spec (deadline - later) (2 * 60 * 60 * 1000));
    try lia; cbn [In]; repeat split; intros; try discriminate; tauto.
Qed.

Lemma slaStatus_over_time_witness :
  (85000000 <= 90000001)%Z /\
  (slaStatus 85000000%Z Counter.invoice = "at_risk" ->
   slaStatus 90000001%Z Counter.invoice = "at_risk"
   \/ slaStatus 90000001%Z Counter.invoice = "breached").
Proof.
  split; [lia|].
  apply (slaStatus_over_time 85000000%Z 90000001%Z Counter.invoice). lia.
Defined.

(* ------------------------------------------------------------------ *)
(** ** The status of a ticket *)

Lemma Ticket_save_lastActivity down doc desk doc' desk' :
  Ticket_save down doc desk = (Resolved doc', desk') ->
  lastActivity doc' = lastActivity doc \/ lastActivity doc' = today desk.
Proof.
  unfold Ticket_save. unfold Task.bind at 1. rewrite lift_validate.
  destruct (failingPaths (ticketChecks doc)); [|intros H; discriminate H].
  unfold Task.bind at 1, Task.get. unfold Task.bind at 1, newDate. cbv zeta.
  assert (Hwrite : forall doc2,
            lastActivity doc2 = lastActivity doc \/ lastActivity doc2 = today desk ->
            (Task.bind (roundTrip down)
               (fun _ => Task.bind (Task.putTickets (written doc2 (tickets desk)))
                           (fun _ => Task.ret doc2))) desk
            = (Resolved doc', desk') ->
            lastActivity doc' = lastActivity doc \/ lastActivity doc' = today desk).
  { intros doc2 H2. unfold Task.bind, roundTrip, Task.putTickets, Task.ret.
    destruct (down (trips desk)); intros H; [discriminate H|].
    injection H as Hd _. rewrite <- Hd. exact H2. }
  destruct (stored (doc_id doc) (tickets desk)) as [before|].
  - destruct (TicketDoc_eq_dec before doc); cbn [andb].
    + unfold Task.ret. intros H. injection H as Hd _. rewrite <- Hd. now left.
    + apply Hwrite. destruct (negb (negb _)); [right | left]; reflexivity.
  - cbn [andb negb]. apply Hwrite. right.
    cbn [createdAt set_lastActivity]. destruct (createdAt doc); reflexivity.
Qed.

(** X16.  [updateStatus] stores the new status with the moment of the
    change: on a valid ticket and a healthy connection a status of the
    schema is stored, [lastActivity] is the moment of the call, [resolvedAt]
    is stamped for resolved and [closedAt] for closed, and nothing else
    moves; once resolved or closed, the ticket is never overdue again and
    its [slaStatus] reads met whenever it has a deadline.  A status outside
    the schema is turned down under the path status, and nothing is
    written. *)
Theorem updateStatus_stamps_the_change down newStatus userId doc desk :
  validTicket doc -> (forall n, down n = None) ->
  (In newStatus ticketStatuses ->
   exists doc' desk',
     updateStatus down newStatus userId doc desk = (Resolved doc', desk') /\
     stored (doc_id doc) (tickets desk') = Some doc' /\
     status doc' = newStatus /\
     lastActivity doc' = today desk /\
     resolvedAt doc' = (if String.eqb newStatus "resolved"
                        then Some (today desk) else resolvedAt doc) /\
     closedAt doc' = (if String.eqb newStatus "closed"
                      then Some (today desk) else closedAt doc) /\
     assignee doc' = assignee doc /\ replies doc' = replies doc /\
     slaDeadline doc' = slaDeadline doc /\
     (newStatus = "resolved" \/ newStatus = "closed" ->
      forall now,
        overdue now doc' = false /\
        slaStatus now doc' = match slaDeadline doc with
                             | Some _ => "met"
                             | None => "no_sla"
                             end)) /\
  (~ In newStatus ticketStatuses ->
   exists paths,
     In "status" paths /\
     updateStatus down newStatus userId doc desk
     = (Rejected (ValidationError "Ticket" paths), desk)).
Proof.
  intros Hv Hup. unfold updateStatus, Task.bind at 1, newDate. cbv zeta.
  set (doc1 := set_lastActivity (today desk) (set_status newStatus doc)).
  set (doc2 := if String.eqb newStatus "resolved"
               then set_resolvedAt (Some (today desk)) doc1
               else if String.eqb newStatus "closed"
                    then set_closedAt (Some (today desk)) doc1 else doc1).
  assert (Hchecks : ticketChecks doc2 = ticketChecks (set_status newStatus doc)).
  { subst doc2 doc1. destruct (String.eqb newStatus "resolved"); [reflexivity|].
    destruct (String.eqb newStatus "closed"); reflexivity. }
  split.
  - intros Hs.
    assert (Hv2 : validTicket doc2).
    { unfold validTicket. rewrite Hchecks. apply valid_set_status; assumption. }
    destruct (Ticket_save_runs down doc2 desk Hv2 Hup)
      as (doc' & desk' & Hrun & Hsame & Hst & _).
    destruct (sameContent_fields _ _ Hsame)
      as (Hid & _ & _ & Hstatus & Hassignee & _ & _ & Hreplies & Hsla & Hres & Hclo).
    assert (Hid2 : doc_id doc2 = doc_id doc).
    { subst doc2 doc1. destruct (String.eqb newStatus "resolved"); [reflexivity|].
      destruct (String.eqb newStatus "closed"); reflexivity. }
    assert (Hstatus' : status doc' = newStatus).
    { rewrite Hstatus. subst doc2 doc1.
      destruct (String.eqb newStatus "resolved"); [reflexivity|].
      destruct (String.eqb newStatus "closed"); reflexivity. }
    assert (Hsla' : slaDeadline doc' = slaDeadline doc).
    { rewrite Hsla. subst doc2 doc1.
      destruct (String.eqb newStatus "resolved"); [reflexivity|].
      destruct (String.eqb newStatus "closed"); reflexivity. }
    exists doc', desk'. split; [exact Hrun|].
    split; [rewrite <- Hid2; exact Hst|]. split; [exact Hstatus'|].
    split.
    { destruct (Ticket_save_lastActivity _ _ _ _ _ Hrun) as [H|H]; [|exact H].
      rewrite H. subst doc2 doc1.
      destruct (String.eqb newStatus "resolved"); [reflexivity|].
      destruct (String.eqb newStatus "closed"); reflexivity. }
    split.
    { rewrite Hres. subst doc2 doc1.
      destruct (String.eqb newStatus "resolved"); [reflexivity|].
      destruct (String.eqb newStatus "closed"); reflexivity. }
    split.
    { rewrite Hclo. subst doc2 doc1.
      destruct (String.eqb newStatus "resolved") eqn:E.
      - apply String.eqb_eq in E. subst newStatus. reflexivity.
      - destruct (String.eqb newStatus "closed"); reflexivity. }
    split.
    { rewrite Hassignee. subst doc2 doc1.
      destruct (String.eqb newStatus "resolved"); [reflexivity|].
      destruct (String.eqb newStatus "closed"); reflexivity. }
    split.
    { rewrite Hreplies. subst doc2 doc1.
      destruct (String.eqb newStatus "resolved"); [reflexivity|].
      destruct (String.eqb newStatus "closed"); reflexivity. }
    split; [exact Hsla'|].
    intros Hdone now.
    assert (Hclosed : String.eqb (status doc') "resolved"
                      || String.eqb (status doc') "closed" = true).
    { rewrite Hstatus'. destruct Hdone as [-> | ->]; reflexivity. }
    assert (Hsla_status : slaStatus now doc' = match slaDeadline doc with
                                               | Some _ => "met"
                                               | None => "no_sla"
                                               end).
    { unfold slaStatus. rewrite Hsla', Hclosed. reflexivity. }
    split; [|exact Hsla_status].
    rewrite overdue_breached, Hsla_status. destruct (slaDeadline doc); reflexivity.
  - intros Hs. apply Ticket_save_invalid. fold doc1. fold doc2. rewrite Hchecks.
    unfold ticketChecks. apply in_or_app. left. cbn [In set_status status].
    do 3 right. left. f_equal.
    destruct (oneOf ticketStatuses newStatus) eqn:E; [|reflexivity].
    exfalso. apply Hs. unfold oneOf in E. apply existsb_exists in E.
    destruct E as (s & Hin & Heq). apply String.eqb_eq in Heq. now subst s.
Qed.

Lemma updateStatus_stamps_the_change_witness :
  (exists doc' desk',
      updateStatus Counter.up "resolved" (Some 21) Counter.invoice Counter.desk
      = (Resolved doc', desk') /\
      resolvedAt doc' = Some 3600500%Z /\
      slaStatus 90000001%Z doc' = "met") /\
  (exists paths,
      updateStatus Counter.up "done" (Some 21) Counter.invoice Counter.desk
      = (Rejected (ValidationError "Ticket" paths), Counter.desk)).
Proof.
  assert (Hv : validTicket Counter.invoice) by reflexivity.
  assert (Hup : forall n, Counter.up n = None) by reflexivity.
  split.
  - destruct (updateStatus_stamps_the_change Counter.up "resolved" (Some 21)
                Counter.invoice Counter.desk Hv Hup) as [Hok _].
    destruct Hok as (doc' & desk' & Hrun & _ & _ & _ & Hres & _ & _ & _ & _ & Hmet).
    { cbn. tauto. }
    exists doc', desk'. split; [exact Hrun|]. split; [exact Hres|].
    exact (proj2 (Hmet (or_introl eq_refl) 90000001%Z)).
  - destruct (updateStatus_stamps_the_change Counter.up "done" (Some 21)
                Counter.invoice Counter.desk Hv Hup) as [_ Hbad].
    destruct Hbad as (paths & _ & Hrun).
    { cbn. intros H. repeat (destruct H as [H|H]; [discriminate H|]). exact H. }
    exists paths. exact Hrun.
Defined.

(* ------------------------------------------------------------------ *)
(** ** The triage that follows the creation of a ticket *)

Lemma addReply_anonymous down content internal doc desk :
  exists paths,
    In ("replies." ++ Str.ofNat (List.length (replies doc)) ++ ".author") paths /\
    addReply down None content internal doc desk
    = (Rejected (ValidationError "Ticket" paths), desk).
Proof.
  change (addReply down None content internal doc desk)
    with (Ticket_save down
            (set_lastActivity (today desk)
               (set_replies (replies doc
                             ++ [{| reply_author := None; reply_content := content;
                                    isInternal := internal;
                                    reply_createdAt := today desk |}])%list doc)) desk).
  apply Ticket_save_invalid.
  match goal with
  | |- In ?c (ticketChecks (set_lastActivity ?d ?pushed)) =>
      change (In c (ticketChecks pushed))
  end.
  apply In_checks_pushed. right. cbn [replyChecks In reply_author isSome].
  left. reflexivity.
Qed.

Lemma In_written doc l d : In d (written doc l) -> In d l \/ d = doc.
Proof.
  unfold written. destruct (existsb (sameId (doc_id doc)) l); intros H.
  - apply in_map_iff in H. destruct H as (old & Hd & Hold).
    destruct (sameId (doc_id doc) old); [right; now subst d | left; now subst d].
  - apply in_app_or in H. destruct H as [H|[<-|[]]]; [left; exact H | right; reflexivity].
Qed.

(** X17.  The triage that [POST /api/tickets] schedules never fails and
    never stores a resolved ticket.  Whatever the pipeline, the store and
    the connection do, the callback ends normally; a ticket found in the
    collection afterwards was there before, or is the ticket of the call,
    valid, triaged, with the replies it had and linked to a stored
    suggestion of the ticket.
    When the pipeline decides to close the ticket, the suggestion is stored
    as auto-closed, but the reply that the callback adds has no author, the
    schema turns it down, and the collection of tickets stays as it was; so
    it does when the pipeline rejects. *)
Theorem triageAfterCreate_never_resolves down env ticket desk :
  exists desk',
    triageAfterCreate down env ticket desk = (Resolved tt, desk') /\
    world desk' = snd (processTicket env (asTicket ticket) (world desk)) /\
    (forall doc, In doc (tickets desk') ->
       In doc (tickets desk) \/
       (doc_id doc = doc_id ticket /\ status doc = "triaged" /\
        replies doc = replies ticket /\ validTicket doc /\
        exists found,
          In found (suggestions (world desk')) /\
          sug_ticketId found = doc_id ticket /\
          agentSuggestionId doc = Some (suggestionKey found))) /\
    (forall result,
       fst (processTicket env (asTicket ticket) (world desk)) = Resolved result ->
       shouldAutoClose result = true ->
       tickets desk' = tickets desk /\
       autoClosed (suggestion result) = true /\
       In (suggestion result) (suggestions (world desk'))) /\
    (forall error,
       fst (processTicket env (asTicket ticket) (world desk)) = Rejected error ->
       tickets desk' = tickets desk).
Proof.
  unfold triageAfterCreate, Task.tryCatch. unfold Task.bind at 1. unfold Task.lift at 1.
  destruct (processTicket env (asTicket ticket) (world desk)) as [[result|error] w1] eqn:E;
    cbn [fst snd].
  - pose proof (processTicket_resolved _ _ _ _ _ E) as Ht.
    apply triage_resolved in Ht. cbv zeta in Ht.
    destruct Ht as (cr & arts & dr & events & rest & _ & Hclose & _ & Hauto & Hid & _ & _
                    & Hs & _).
    destruct (shouldAutoClose result) eqn:Hc.
    + match goal with
      | |- context [addReply down None ?c ?i ?d] =>
          destruct (addReply_anonymous down c i d (setWorld w1 desk))
            as (paths & _ & Hrej)
      end.
      rewrite (task_bind_rejected _ _ _ _ _ Hrej). unfold Task.ret.
      exists (setWorld w1 desk). split; [reflexivity|]. split; [reflexivity|].
      split; [intros doc Hin; left; exact Hin|].
      split; [|intros error H; discriminate H].
      intros r Hr _. inversion Hr. subst r. split; [reflexivity|].
      split; [rewrite Hauto, <- Hclose; reflexivity|].
      cbn [world setWorld]. rewrite Hs. apply in_or_app. right. left. reflexivity.
    + match goal with
      | |- context [Ticket_save down ?d] =>
          destruct (Ticket_save down d (setWorld w1 desk)) as [[saved|e] desk2] eqn:Es;
          destruct (Ticket_save_outcome _ _ _ _ _ Es) as (Hw & _ & Hwritten & _)
      end.
      * rewrite (task_bind_run _ _ _ _ _ Es). unfold Task.ret.
        exists desk2. split; [reflexivity|]. split; [exact Hw|].
        split; [|split; [intros r Hr Hr'; inversion Hr; congruence
                        |intros error H; discriminate H]].
        intros doc Hin. destruct Hwritten as [Hsame|(doc' & Hv & Hsame & Hl)].
        -- left. rewrite Hsame in Hin. exact Hin.
        -- rewrite Hl in Hin. apply In_written in Hin.
           destruct Hin as [Hin| ->]; [left; exact Hin|]. right.
           destruct (sameContent_fields _ _ Hsame)
             as (Hid' & _ & _ & Hstatus & _ & _ & Hsug & Hreplies & _).
           split; [exact Hid'|]. split; [exact Hstatus|].
           split; [exact Hreplies|].
           split; [exact (sameContent_valid _ _ Hsame Hv)|].
           exists (suggestion result). rewrite Hw. cbn [world setWorld].
           split; [rewrite Hs; apply in_or_app; right; left; reflexivity|].
           split; [exact Hid | exact Hsug].
      * rewrite (task_bind_rejected _ _ _ _ _ Es).
        exists desk2. split; [reflexivity|]. split; [exact Hw|].
        split; [|split; [intros r Hr Hr'; inversion Hr; congruence
                        |intros error H; discriminate H]].
        intros doc Hin. destruct Hwritten as [Hsame|(doc' & Hv & Hsame & Hl)].
        -- left. rewrite Hsame in Hin. exact Hin.
        -- rewrite Hl in Hin. apply In_written in Hin.
           destruct Hin as [Hin| ->]; [left; exact Hin|]. right.
           destruct (sameContent_fields _ _ Hsame)
             as (Hid' & _ & _ & Hstatus & _ & _ & Hsug & Hreplies & _).
           split; [exact Hid'|]. split; [exact Hstatus|].
           split; [exact Hreplies|].
           split; [exact (sameContent_valid _ _ Hsame Hv)|].
           exists (suggestion result). rewrite Hw. cbn [world setWorld].
           split; [rewrite Hs; apply in_or_app; right; left; reflexivity|].
           split; [exact Hid | exact Hsug].
  - unfold Task.ret. exists (setWorld w1 desk).
    split; [reflexivity|]. split; [reflexivity|].
    split; [intros doc Hin; left; exact Hin|].
    split; [intros r H; discriminate H | reflexivity].
Qed.

Lemma triageAfterCreate_never_resolves_witness :
  exists result desk',
    fst (processTicket Sample.env (asTicket Counter.invoice) Sample.eagerWorld)
    = Resolved result /\
    shouldAutoClose result = true /\
    triageAfterCreate Counter.up Sample.env Counter.invoice Counter.eagerDesk
    = (Resolved tt, desk') /\
    tickets desk' = [Counter.invoice] /\
    autoClosed (suggestion result) = true /\
    In (suggestion result) (suggestions (world desk')).
Proof.
  destruct (triageAfterCreate_never_resolves Counter.up Sample.env Counter.invoice
              Counter.eagerDesk) as (desk' & Hrun & _ & _ & Hclose & _).
  change (world Counter.eagerDesk) with Sample.eagerWorld in Hclose.
  destruct (processTicket Sample.env (asTicket Counter.invoice) Sample.eagerWorld)
    as [[result|e] w'] eqn:E; [|vm_compute in E; discriminate E].
  assert (Hc : shouldAutoClose result = true).
  { vm_compute in E. inversion E. reflexivity. }
  destruct (Hclose result eq_refl Hc) as (Htickets & Hauto & Hin).
  exists result, desk'. repeat split; assumption.
Defined.

(** X18.  When the pipeline returns without closing, the callback leaves
    the ticket triaged: on a valid ticket and a healthy connection the
    stored ticket has the status triaged and is linked to the suggestion of
    the run, which is in the store under the ticket; its replies, its
    assignee and its deadline are those it had. *)
Theorem triageAfterCreate_triages down env ticket desk result w' :
  validTicket ticket -> (forall n, down n = None) ->
  processTicket env (asTicket ticket) (world desk) = (Resolved result, w') ->
  shouldAutoClose result = false ->
  exists doc' desk',
    triageAfterCreate down env ticket desk = (Resolved tt, desk') /\
    world desk' = w' /\
    stored (doc_id ticket) (tickets desk') = Some doc' /\
    status doc' = "triaged" /\
    agentSuggestionId doc' = Some (suggestionKey (suggestion result)) /\
    sug_ticketId (suggestion result) = doc_id ticket /\
    In (suggestion result) (suggestions w') /\
    replies doc' = replies ticket /\ assignee doc' = assignee ticket /\
    slaDeadline doc' = slaDeadline ticket.
Proof.
  intros Hv Hup E Hc.
  pose proof (processTicket_resolved _ _ _ _ _ E) as Ht.
  apply triage_resolved in Ht. cbv zeta in Ht.
  destruct Ht as (cr & arts & dr & events & rest & _ & _ & _ & _ & Hid & _ & _ & Hs & _).
  unfold triageAfterCreate, Task.tryCatch. unfold Task.bind at 1. unfold Task.lift at 1.
  rewrite E, Hc.
  set (doc2 := set_agentSuggestionId (Some (suggestionKey (suggestion result)))
                 (set_status "triaged" ticket)).
  assert (Hv2 : validTicket doc2).
  { apply (valid_set_status "triaged" ticket Hv). cbn. tauto. }
  destruct (Ticket_save_runs down doc2 (setWorld w' desk) Hv2 Hup)
    as (doc' & desk' & Hrun & Hsame & Hst & Hw & _).
  destruct (sameContent_fields _ _ Hsame)
    as (_ & _ & _ & Hstatus & Hassignee & _ & Hsug & Hreplies & Hsla & _).
  rewrite (task_bind_run _ _ _ _ _ Hrun). unfold Task.ret.
  exists doc', desk'. split; [reflexivity|]. split; [exact Hw|].
  split; [exact Hst|]. split; [exact Hstatus|]. split; [exact Hsug|].
  split; [exact Hid|].
  split; [rewrite Hs; apply in_or_app; right; left; reflexivity|].
  repeat split; assumption.
Qed.

Lemma triageAfterCreate_triages_witness :
  exists result doc' desk',
    processTicket Sample.env (asTicket Counter.invoice) (world Counter.desk)
    = (Resolved result, world desk') /\
    triageAfterCreate Counter.up Sample.env Counter.invoice Counter.desk
    = (Resolved tt, desk') /\
    stored 7 (tickets desk') = Some doc' /\
    status doc' = "triaged" /\
    In (suggestion result) (suggestions (world desk')) /\
    agentSuggestionId doc' = Some (suggestionKey (suggestion result)).
Proof.
  destruct (processTicket Sample.env (asTicket Counter.invoice) (world Counter.desk))
    as [[result|e] w'] eqn:E; [|vm_compute in E; discriminate E].
  assert (Hc : shouldAutoClose result = false).
  { vm_compute in E. inversion E. reflexivity. }
  assert (Hv : validTicket Counter.invoice) by reflexivity.
  assert (Hup : forall n, Counter.up n = None) by reflexivity.
  destruct (triageAfterCreate_triages Counter.up Sample.env Counter.invoice Counter.desk
              result w' Hv Hup E Hc)
    as (doc' & desk' & Hrun & Hw & Hst & Hstatus & Hsug & _ & Hin & _).
  exists result, doc', desk'. rewrite Hw. split; [reflexivity|].
  split; [exact Hrun|]. split; [exact Hst|]. split; [exact Hstatus|].
  split; [exact Hin | exact Hsug].
Defined.

(* ------------------------------------------------------------------ *)
(** ** A direct assignment beside a request *)

(** X19.  [assignTo] gives the ticket to the agent and touches nothing but
    the assignee and the last activity: on a valid ticket and a healthy
    connection the ticket is stored with that assignee, and from then on
    [canRequestAssignment] answers no and [requestAssignment] throws for
    every agent.  A request that was pending stays pending, and
    [approveAssignment] still goes through: it hands the ticket over to the
    agent who had asked. *)
Theorem assignTo_keeps_pending_request down agentId doc desk :
  validTicket doc -> (forall n, down n = None) ->
  exists doc' desk',
    assignTo down agentId doc desk = (Resolved doc', desk') /\
    stored (doc_id doc) (tickets desk') = Some doc' /\
    assignee doc' = Some agentId /\
    lastActivity doc' = today desk /\
    status doc' = status doc /\ replies doc' = replies doc /\
    pendingAssignment doc' = pendingAssignment doc /\
    (forall other desk2,
        canRequest (canRequestAssignment other doc') = false /\
        requestAssignment down other doc' desk2
        = (Rejected (thrown "Ticket is already assigned to an agent"), desk2)) /\
    (forall request notes,
        pendingAssignment doc = Some request -> pa_status request = Some "pending" ->
        exists handed desk2,
          approveAssignment down notes doc' desk' = (Resolved handed, desk2) /\
          stored (doc_id doc) (tickets desk2) = Some handed /\
          assignee handed = requestedBy request).
Proof.
  intros Hv Hup. unfold assignTo, Task.bind at 1, newDate.
  set (doc1 := set_lastActivity (today desk) (set_assignee (Some agentId) doc)).
  assert (Hv1 : validTicket doc1) by exact Hv.
  destruct (Ticket_save_runs down doc1 desk Hv1 Hup)
    as (doc' & desk' & Hrun & Hsame & Hst & _).
  destruct (sameContent_fields _ _ Hsame)
    as (Hid & _ & _ & Hstatus & Hassignee & Hpending & _ & Hreplies & _).
  pose proof (sameContent_valid _ _ Hsame Hv1) as Hv'.
  exists doc', desk'. split; [exact Hrun|]. split; [exact Hst|].
  split; [exact Hassignee|].
  split.
  { destruct (Ticket_save_lastActivity _ _ _ _ _ Hrun) as [H|H]; [rewrite H|];
      reflexivity || exact H. }
  split; [exact Hstatus|]. split; [exact Hreplies|]. split; [exact Hpending|].
  split.
  - intros other desk2. unfold canRequestAssignment, requestAssignment.
    rewrite Hassignee. split; reflexivity.
  - intros request notes Hp Hs.
    assert (Hp' : pendingAssignment doc' = Some request) by (rewrite Hpending; exact Hp).
    destruct (approveAssignment_runs down notes doc' desk' request Hv' Hup Hp' Hs)
      as (handed & desk2 & Hrun2 & Ha & _ & _ & _ & _ & Hst2 & _).
    exists handed, desk2. split; [exact Hrun2|]. split; [|exact Ha].
    change (doc_id doc) with (doc_id doc1). rewrite <- Hid. exact Hst2.
Qed.

Lemma assignTo_keeps_pending_request_witness :
  exists doc' desk' handed desk2,
    assignTo Counter.up 44 Counter.requested Counter.desk = (Resolved doc', desk') /\
    assignee doc' = Some 44 /\
    approveAssignment Counter.up None doc' desk' = (Resolved handed, desk2) /\
    assignee handed = Some 31.
Proof.
  assert (Hv : validTicket Counter.requested) by reflexivity.
  assert (Hup : forall n, Counter.up n = None) by reflexivity.
  destruct (assignTo_keeps_pending_request Counter.up 44 Counter.requested Counter.desk
              Hv Hup)
    as (doc' & desk' & Hrun & _ & Ha & _ & _ & _ & _ & _ & Happrove).
  destruct (Happrove (pendingRequest 31 3600400%Z) None eq_refl eq_refl)
    as (handed & desk2 & Hrun2 & _ & Ha2).
  exists doc', desk', handed, desk2. repeat split; assumption.
Defined.
